(** * Verification of the code-analysis handler (src/code-analyze/code-analysis.py)

    A shallow embedding of the project-detection, sanitising, budgeting and
    merging logic of the handler, with the properties its specification
    states about them.

    Python [str] values are sequences of Unicode code points, modelled as
    [list Z]; [bytes] values are modelled as [list Z] with entries in
    [0, 256). Dictionaries keep insertion order and are association lists;
    Python sets are [gset]s, enumerated through an explicit iteration
    function where the program iterates over them. *)

From Stdlib Require Import ZArith List Ascii String Lia Bool Permutation Sorted
  DecimalString.
From stdpp Require Import base tactics option list sets gmap.

Local Open Scope Z_scope.
Set Warnings "-register-all".

(** ** Python strings *)

Abbreviation pystr := (list Z).
Abbreviation pybytes := (list Z).

(** An ASCII literal as a sequence of code points. *)
Definition lit (s : string) : pystr :=
  List.map (fun a => Z.of_N (N_of_ascii a)) (list_ascii_of_string s).

Definition SLASH : Z := 47.
Definition DOT : Z := 46.
Definition NL : Z := 10.

Fixpoint str_eqb (a b : pystr) : bool :=
  match a, b with
  | [], [] => true
  | x :: a', y :: b' => (x =? y) && str_eqb a' b'
  | _, _ => false
  end.

(** [x in xs] for a tuple or set of strings. *)
Definition str_in (x : pystr) (xs : list pystr) : bool :=
  existsb (str_eqb x) xs.

(** [s.startswith(p)] *)
Fixpoint startswith (s p : pystr) : bool :=
  match p, s with
  | [], _ => true
  | c :: p', d :: s' => (c =? d) && startswith s' p'
  | _ :: _, [] => false
  end.

(** [s.endswith(p)] *)
Definition endswith (s p : pystr) : bool :=
  startswith (rev s) (rev p).

(** [k in s] for strings: substring test. *)
Fixpoint contains (s k : pystr) : bool :=
  startswith s k ||
  match s with
  | [] => false
  | _ :: s' => contains s' k
  end.

(** [c in s] for a one-character string [c]. *)
Definition has_char (c : Z) (s : pystr) : bool :=
  existsb (Z.eqb c) s.

(** [s.count(c)] for a one-character string [c]. *)
Fixpoint count_char (c : Z) (s : pystr) : Z :=
  match s with
  | [] => 0
  | x :: s' => (if x =? c then 1 else 0) + count_char c s'
  end.

(** [s.rfind(c)]: index of the last occurrence, [-1] when there is none. *)
Fixpoint rfind_from (c : Z) (s : pystr) (i acc : Z) : Z :=
  match s with
  | [] => acc
  | x :: s' => rfind_from c s' (i + 1) (if x =? c then i else acc)
  end.

Definition rfind (c : Z) (s : pystr) : Z := rfind_from c s 0 (-1).

(** [s.find(c)]: index of the first occurrence, [-1] when there is none. *)
Fixpoint find_from (c : Z) (s : pystr) (i : Z) : Z :=
  match s with
  | [] => -1
  | x :: s' => if x =? c then i else find_from c s' (i + 1)
  end.

Definition find (c : Z) (s : pystr) : Z := find_from c s 0.

(** Slices [s[:i]] and [s[i:]] for a non-negative index. *)
Definition slice_to (i : Z) (s : pystr) : pystr := take (Z.to_nat i) s.
Definition slice_from (i : Z) (s : pystr) : pystr := drop (Z.to_nat i) s.

(** [s.lstrip(c)] and [s.rstrip(c)] for a one-character set [c]. *)
Fixpoint lstrip_char (c : Z) (s : pystr) : pystr :=
  match s with
  | x :: s' => if x =? c then lstrip_char c s' else s
  | [] => []
  end.

Definition rstrip_char (c : Z) (s : pystr) : pystr :=
  rev (lstrip_char c (rev s)).

(** [s.split(c)]: always at least one field. *)
Fixpoint split_char (c : Z) (s : pystr) : list pystr :=
  match s with
  | [] => [[]]
  | x :: s' =>
      if x =? c then [] :: split_char c s'
      else match split_char c s' with
           | f :: fs => (x :: f) :: fs
           | [] => [[x]]
           end
  end.

(** [sep.join(parts)] *)
Fixpoint join (sep : pystr) (parts : list pystr) : pystr :=
  match parts with
  | [] => []
  | [p] => p
  | p :: ps => p ++ sep ++ join sep ps
  end.

(** [s.partition(c)[0]]: the text before the first [c] (all of [s] when
    [c] does not occur). *)
Fixpoint partition_head (c : Z) (s : pystr) : pystr :=
  match s with
  | [] => []
  | x :: s' => if x =? c then [] else x :: partition_head c s'
  end.

(** [str.lower()]. The program compares lowered strings only against ASCII
    patterns (prefix, suffix, substring and equality tests). A-Z map to a-z;
    U+0130 and U+212A are the two other code points whose lowercase form
    contains an ASCII letter; every other code point lowers to non-ASCII
    code points, which those tests cannot tell from the code point itself. *)
Definition cp_lower (c : Z) : pystr :=
  if (65 <=? c) && (c <=? 90) then [c + 32]
  else if c =? 304 then [105; 775]
  else if c =? 8490 then [107]
  else [c].

Definition lower (s : pystr) : pystr := flat_map cp_lower s.

(** ** posixpath *)

(** [posixpath.basename] *)
Definition basename (p : pystr) : pystr :=
  slice_from (rfind SLASH p + 1) p.

(** [posixpath.dirname] *)
Definition dirname (p : pystr) : pystr :=
  let head := slice_to (rfind SLASH p + 1) p in
  if negb (str_eqb head []) && negb (forallb (Z.eqb SLASH) head)
  then rstrip_char SLASH head
  else head.

(** The component loop of [posixpath.normpath]; [new_comps] is kept
    reversed (last component first). *)
Fixpoint normpath_comps (initial_slashes : Z) (comps : list pystr)
    (new_comps : list pystr) : list pystr :=
  match comps with
  | [] => rev new_comps
  | comp :: rest =>
      if str_eqb comp [] || str_eqb comp (lit ".") then
        normpath_comps initial_slashes rest new_comps
      else if negb (str_eqb comp (lit ".."))
              || ((initial_slashes =? 0) && match new_comps with [] => true | _ => false end)
              || match new_comps with
                 | last :: _ => str_eqb last (lit "..")
                 | [] => false
                 end
      then normpath_comps initial_slashes rest (comp :: new_comps)
      else match new_comps with
           | _ :: popped => normpath_comps initial_slashes rest popped
           | [] => normpath_comps initial_slashes rest new_comps
           end
  end.

(** [posixpath.normpath] *)
Definition normpath (path : pystr) : pystr :=
  if str_eqb path [] then lit "."
  else
    let initial_slashes :=
      if startswith path (lit "/") then
        if startswith path (lit "//") && negb (startswith path (lit "///"))
        then 2 else 1
      else 0 in
    let comps := normpath_comps initial_slashes (split_char SLASH path) [] in
    let path' := join (lit "/") comps in
    let path'' := repeat SLASH (Z.to_nat initial_slashes) ++ path' in
    if str_eqb path'' [] then lit "." else path''.

(** [posixpath.splitext]: the loop that skips leading dots of the file name. *)
Fixpoint splitext_scan (p : pystr) (n : nat) (filenameIndex dotIndex : Z) : bool :=
  match n with
  | O => false
  | S n' =>
      if filenameIndex <? dotIndex then
        match slice_from filenameIndex p with
        | c :: _ => if c =? DOT
                    then splitext_scan p n' (filenameIndex + 1) dotIndex
                    else true
        | [] => true
        end
      else false
  end.

Definition splitext (p : pystr) : pystr * pystr :=
  let sepIndex := rfind SLASH p in
  let dotIndex := rfind DOT p in
  if (sepIndex <? dotIndex) && splitext_scan p (length p) (sepIndex + 1) dotIndex
  then (slice_to dotIndex p, slice_from dotIndex p)
  else (p, []).

(** ** Configuration constants *)

Definition MAX_FILES_PER_PROJECT : Z := 50.
Definition MAX_TOTAL_FILES : Z := 120.
Definition MAX_BYTES_PER_FILE : Z := 16000.
Definition MAX_TOTAL_BYTES : Z := 350000.
Definition MAX_LINE_CHARS : Z := 200.
Definition PAYLOAD_SOFT_CAP_BYTES : Z := 1200000.

Definition SKIP_DIRS : list pystr :=
  List.map lit ["node_modules"; ".git"; ".idea"; ".vscode";
                "build"; "dist"; "target"; ".gradle"; ".next"; ".cache"; ".turbo";
                "__MACOSX"]%string.

Definition SKIP_PREFIXES : list pystr := List.map lit ["./"; "._"]%string.

Definition SENSITIVE_KEYS : list pystr :=
  List.map lit ["secret"; "password"; "passwd"; "token"; "apikey";
                "access_key"; "secret_key"]%string.

Definition PROJECT_ROOT_MARKERS : list pystr :=
  List.map lit ["package.json"; "pom.xml"; "build.gradle"; "build.gradle.kts";
                "settings.gradle"; "settings.gradle.kts"; "requirements.txt";
                "pyproject.toml"; "go.mod"; "Gemfile"; "Cargo.toml";
                "Dockerfile"; "docker-compose.yml"; "docker-compose.yaml";
                "main.tf"; "versions.tf"]%string.

Definition SIGNAL_BASENAMES : list pystr :=
  List.map lit ["package.json"; "pnpm-lock.yaml"; "yarn.lock"; "pom.xml";
                "build.gradle"; "build.gradle.kts"; "settings.gradle"; "settings.gradle.kts";
                "requirements.txt"; "pyproject.toml"; "Pipfile"; "Pipfile.lock";
                "go.mod"; "Gemfile"; "Cargo.toml"; "Cargo.lock";
                "Dockerfile"; "docker-compose.yml"; "docker-compose.yaml";
                ".gitlab-ci.yml"; ".travis.yml"; "cdk.json"]%string.

Definition SIGNAL_SUFFIXES : list pystr :=
  List.map lit [".tf"; ".tfvars"; ".tf.json"; ".tfvars.json"; ".yaml"; ".yml";
                ".properties"]%string.

Definition SIGNAL_PATH_PARTS : list pystr :=
  List.map lit [".github/workflows"; "src/main/resources"]%string.

(** ** Path classifier *)

(** [parts[:-1]] *)
Definition all_but_last {A} (l : list A) : list A := removelast l.

Definition should_skip_path (path : pystr) : bool :=
  let norm := lstrip_char SLASH (normpath path) in
  if endswith norm (lit "/") then true
  else if existsb (startswith norm) SKIP_PREFIXES then true
  else
    let parts := split_char SLASH norm in
    if existsb (fun part => str_in part SKIP_DIRS) (all_but_last parts) then true
    else if startswith (basename norm) (lit "._") then true
    else false.

Definition is_signal_path (path : pystr) : bool :=
  let b := basename path in
  if str_in b SIGNAL_BASENAMES then true
  else if startswith b (lit "Dockerfile") then true
  else if startswith (lower b) (lit "readme") then true
  else if startswith b (lit "application")
          && (endswith b (lit ".yml") || endswith b (lit ".yaml")
              || endswith b (lit ".properties")) then true
  else if existsb (endswith b) SIGNAL_SUFFIXES then true
  else
    let parts := split_char SLASH path in
    if existsb (fun p => str_in p parts) SIGNAL_PATH_PARTS then true
    else false.


(** ** Project detection *)

(** The result dictionary [{root: set_of_files}], in insertion order. *)
Abbreviation roots_dict := (list (pystr * gset pystr)).

(** [should_skip_path(path) or path.endswith("/")] *)
Definition skipped (path : pystr) : bool :=
  should_skip_path path || endswith path (lit "/").

(** [key in d] *)
Definition dict_has {V} (k : pystr) (d : list (pystr * V)) : bool :=
  existsb (fun e => str_eqb k (fst e)) d.

(** First loop: the directory of every marker file becomes a root. *)
Definition register_root (project_roots : roots_dict) (path : pystr) : roots_dict :=
  if skipped path then project_roots
  else
    if str_in (basename path) PROJECT_ROOT_MARKERS then
      let dir_path :=
        match dirname path with [] => lit "." | d => d end in
      if dict_has dir_path project_roots then project_roots
      else project_roots ++ [(dir_path, ∅)]
    else project_roots.

Definition collect_roots (all_paths : list pystr) : roots_dict :=
  fold_left register_root all_paths [].

(** [if not project_roots: project_roots["."] = set()] *)
Definition with_default_root (project_roots : roots_dict) : roots_dict :=
  match project_roots with
  | [] => [(lit ".", ∅)]
  | _ => project_roots
  end.

(** [root == "." or path.startswith(root + "/") or path == root] *)
Definition root_matches (root path : pystr) : bool :=
  str_eqb root (lit ".") || startswith path (root ++ lit "/") || str_eqb path root.

(** [root.count("/")] *)
Definition depth (root : pystr) : Z := count_char SLASH root.

(** The inner loop over [project_roots.keys()], threading [assigned_root]
    and [max_depth]. *)
Fixpoint choose_root (roots : list pystr) (path : pystr)
    (assigned_root : option pystr) (max_depth : Z) : option pystr :=
  match roots with
  | [] => assigned_root
  | root :: rest =>
      if root_matches root path then
        if max_depth <? depth root
        then choose_root rest path (Some root) (depth root)
        else choose_root rest path assigned_root max_depth
      else choose_root rest path assigned_root max_depth
  end.

(** [project_roots[root].add(path)] *)
Fixpoint add_to_root (root path : pystr) (d : roots_dict) : roots_dict :=
  match d with
  | [] => []
  | (k, files) :: d' =>
      if str_eqb k root then (k, {[path]} ∪ files) :: d'
      else (k, files) :: add_to_root root path d'
  end.

(** Second loop body: [if assigned_root:] tests the truth value of the
    chosen root, which is false for [None] and for the empty string. *)
Definition assign_path (project_roots : roots_dict) (path : pystr) : roots_dict :=
  if skipped path then project_roots
  else
    match choose_root (List.map fst project_roots) path None (-1) with
    | Some (c :: r) => add_to_root (c :: r) path project_roots
    | Some [] => project_roots
    | None => project_roots
    end.

(** [{k: v for k, v in project_roots.items() if v}] *)
Definition drop_empty (project_roots : roots_dict) : roots_dict :=
  List.filter (fun kv => negb (bool_decide (snd kv = ∅))) project_roots.

Definition registered_roots (all_paths : list pystr) : roots_dict :=
  with_default_root (collect_roots all_paths).

Definition detect_project_roots (all_paths : list pystr) : roots_dict :=
  drop_empty (fold_left assign_path all_paths (registered_roots all_paths)).

(** The files of [root] in a result, as Python's [d.get(root, set())]. *)
Fixpoint files_of (root : pystr) (d : roots_dict) : gset pystr :=
  match d with
  | [] => ∅
  | (k, files) :: d' => if str_eqb k root then files else files_of root d'
  end.

Definition spec_scenario_paths : list pystr :=
  List.map lit ["app/package.json"; "app/src/index.js"; "infra/main.tf";
                "infra/variables.tf"]%string.



(** The root, if any, that the second loop files [path] under. *)
Definition assigned_root (roots : list pystr) (path : pystr) : option pystr :=
  match choose_root roots path None (-1) with
  | Some (c :: r) => Some (c :: r)
  | _ => None
  end.

(** The files of a project that are sent on: [[p for p in project_files if
    is_signal_path(p)]]. Iterating over a Python set visits every member
    once, in an order the language leaves open (it follows the hash table);
    that order is a parameter of the model. *)
Definition set_order := gset pystr -> list pystr.

Definition enumerates (iter : set_order) : Prop :=
  forall s, NoDup (iter s) /\ forall x, In x (iter s) <-> x ∈ s.

Definition candidates_of (iter : set_order) (project_files : gset pystr) : list pystr :=
  List.filter is_signal_path (iter project_files).

(** ** JSON values *)

(** A Python [float], by the two things the program observes of one:
    whether it is zero (its truth value) and its [repr]. *)
Record pyfloat := { float_is_zero : bool; float_repr : pystr }.

(** A value made of [dict], [list], [str], [int], [float], [bool] and
    [None], as [json.loads] returns and [json.dumps] accepts; a [dict] keeps
    its insertion order. *)
Inductive json :=
| JNull
| JBool (b : bool)
| JInt (n : Z)
| JFloat (f : pyfloat)
| JStr (s : pystr)
| JList (l : list json)
| JDict (d : list (pystr * json)).

(** ** Exceptions *)

(** A [botocore] [ClientError] carries the error code, the message and the
    request id of the service's response (each a string or [None]); any
    other exception is given by its class name and its text. *)
Inductive exn :=
| ClientError (code message service_request_id : json)
| PyError (cls : string) (msg : pystr).

Inductive result (A : Type) :=
| Ok (a : A)
| Raise (e : exn).
Arguments Ok {A} a.
Arguments Raise {A} e.

Definition bind {A B} (m : result A) (k : A -> result B) : result B :=
  match m with
  | Ok a => k a
  | Raise e => Raise e
  end.

Notation "x <- m ;; k" := (bind m (fun x => k))
  (at level 90, m at level 80, right associativity).

(** ** UTF-8 *)

Definition is_surrogate (c : Z) : bool := (55296 <=? c) && (c <=? 57343).

(** The bytes of one code point; [None] where [str.encode("utf-8")] raises
    (lone surrogates, and values that are no code point). *)
Definition utf8_encode_cp (c : Z) : option pybytes :=
  if c <? 0 then None
  else if c <? 128 then Some [c]
  else if c <? 2048 then Some [192 + c / 64; 128 + c mod 64]
  else if c <? 65536 then
    if is_surrogate c then None
    else Some [224 + c / 4096; 128 + (c / 64) mod 64; 128 + c mod 64]
  else if c <? 1114112 then
    Some [240 + c / 262144; 128 + (c / 4096) mod 64; 128 + (c / 64) mod 64;
          128 + c mod 64]
  else None.

(** [s.encode("utf-8")] *)
Fixpoint encode_utf8 (s : pystr) : result pybytes :=
  match s with
  | [] => Ok []
  | c :: s' =>
      match utf8_encode_cp c with
      | Some bs => rest <- encode_utf8 s' ;; Ok (bs ++ rest)
      | None => Raise (PyError "UnicodeEncodeError" (lit "surrogates not allowed"))
      end
  end.

Inductive decode_errors := Replace | Ignore.

Definition on_error (e : decode_errors) : pystr :=
  match e with
  | Replace => [65533]
  | Ignore => []
  end.

Definition is_cont (b : Z) : bool := (128 <=? b) && (b <=? 191).

(** The admissible second byte after the lead byte [b0] of a three- or
    four-byte sequence. *)
Definition second_ok (b0 b1 : Z) : bool :=
  if b0 =? 224 then (160 <=? b1) && (b1 <=? 191)
  else if b0 =? 237 then (128 <=? b1) && (b1 <=? 159)
  else if b0 =? 240 then (144 <=? b1) && (b1 <=? 191)
  else if b0 =? 244 then (128 <=? b1) && (b1 <=? 143)
  else is_cont b1.

(** [bs.decode("utf-8", errors=e)]: an ill-formed sequence is replaced (or
    dropped) up to its longest well-formed prefix, and decoding goes on
    after it. *)
Fixpoint decode_utf8 (e : decode_errors) (bs : pybytes) : pystr :=
  match bs with
  | [] => []
  | b0 :: r0 =>
      if (0 <=? b0) && (b0 <? 128) then b0 :: decode_utf8 e r0
      else if (194 <=? b0) && (b0 <=? 223) then
        match r0 with
        | [] => on_error e
        | b1 :: r1 =>
            if is_cont b1
            then ((b0 - 192) * 64 + (b1 - 128)) :: decode_utf8 e r1
            else on_error e ++ decode_utf8 e r0
        end
      else if (224 <=? b0) && (b0 <=? 239) then
        match r0 with
        | [] => on_error e
        | b1 :: r1 =>
            if second_ok b0 b1 then
              match r1 with
              | [] => on_error e
              | b2 :: r2 =>
                  if is_cont b2
                  then ((b0 - 224) * 4096 + (b1 - 128) * 64 + (b2 - 128))
                       :: decode_utf8 e r2
                  else on_error e ++ decode_utf8 e r1
              end
            else on_error e ++ decode_utf8 e r0
        end
      else if (240 <=? b0) && (b0 <=? 244) then
        match r0 with
        | [] => on_error e
        | b1 :: r1 =>
            if second_ok b0 b1 then
              match r1 with
              | [] => on_error e
              | b2 :: r2 =>
                  if is_cont b2 then
                    match r2 with
                    | [] => on_error e
                    | b3 :: r3 =>
                        if is_cont b3
                        then ((b0 - 240) * 262144 + (b1 - 128) * 4096
                              + (b2 - 128) * 64 + (b3 - 128))
                             :: decode_utf8 e r3
                        else on_error e ++ decode_utf8 e r2
                    end
                  else on_error e ++ decode_utf8 e r1
              end
            else on_error e ++ decode_utf8 e r0
        end
      else on_error e ++ decode_utf8 e r0
  end.

(** [len(x)] as a Python integer. *)
Definition len {A} (l : list A) : Z := Z.of_nat (length l).

(** [s[:i]] for any integer [i] (a negative index counts from the end). *)
Definition py_slice_to {A} (i : Z) (s : list A) : list A :=
  if i <? 0 then take (Z.to_nat (len s + i)) s else take (Z.to_nat i) s.

(** ** Content sanitizer *)

(** Line boundaries of [str.splitlines()]. *)
Definition is_linebreak (c : Z) : bool :=
  (c =? 10) || (c =? 11) || (c =? 12) || (c =? 13) || (c =? 28) || (c =? 29)
  || (c =? 30) || (c =? 133) || (c =? 8232) || (c =? 8233).

(** [s.splitlines()]: a CR LF pair is one boundary, and a final boundary
    opens no further line. *)
Fixpoint splitlines (s : pystr) : list pystr :=
  match s with
  | [] => []
  | c :: s' =>
      if is_linebreak c then
        [] :: (if c =? 13
               then match s' with
                    | d :: s'' => if d =? 10 then splitlines s'' else splitlines s'
                    | [] => splitlines s'
                    end
               else splitlines s')
      else match splitlines s' with
           | l :: ls => (c :: l) :: ls
           | [] => [[c]]
           end
  end.

Definition EQUALS : Z := 61.
Definition COLON : Z := 58.

(** The body of the loop of [redact_secrets], for one line. *)
Definition redact_line (line : pystr) : pystr :=
  let l := lower line in
  if existsb (contains l) SENSITIVE_KEYS then
    if has_char EQUALS line then
      partition_head EQUALS line ++ lit "=***REDACTED***"
    else if has_char COLON line then
      partition_head COLON line ++ lit ": ***REDACTED***"
    else lit "***REDACTED LINE***"
  else line.

Definition redact_secrets (text : pystr) : pystr :=
  let lines := splitlines text in
  let redacted :=
    fold_left (fun redacted line => redacted ++ [redact_line line]) lines [] in
  join [NL] redacted.

(** Whitespace as the regular-expression class [\s] and [str.strip()] see
    it on [str] values. *)
Definition is_space (c : Z) : bool :=
  ((9 <=? c) && (c <=? 13)) || ((28 <=? c) && (c <=? 32)) || (c =? 133)
  || (c =? 160) || (c =? 5760) || ((8192 <=? c) && (c <=? 8202))
  || (c =? 8232) || (c =? 8233) || (c =? 8239) || (c =? 8287) || (c =? 12288).

(** The rest of [s] from the first line feed on (all of a comment up to the
    end of its line is dropped). *)
Fixpoint skip_to_eol (s : pystr) : pystr :=
  match s with
  | [] => []
  | c :: s' => if c =? NL then s else skip_to_eol s'
  end.

(** The rest of [s] after the first occurrence of [closer], if there is one. *)
Fixpoint skip_past (closer : pystr) (s : pystr) : option pystr :=
  if startswith s closer then Some (drop (length closer) s)
  else match s with
       | [] => None
       | _ :: s' => skip_past closer s'
       end.

(** [s] without its longest prefix of whitespace. *)
Fixpoint skip_spaces (s : pystr) : pystr :=
  match s with
  | c :: s' => if is_space c then skip_spaces s' else s
  | [] => []
  end.

(** A match of [^\s*#.*?$] (MULTILINE) at a line start: the rest of the
    text after the match. The greedy [\s*] has to stop right before a [#]. *)
Definition match_hash_comment (s : pystr) : option pystr :=
  match skip_spaces s with
  | c :: rest => if c =? 35 then Some (skip_to_eol rest) else None
  | [] => None
  end.

(** A match of [(//.*?$)|(/\*.*?\*/)] (DOTALL, MULTILINE) at the head of [s]. *)
Definition match_c_comment (s : pystr) : option pystr :=
  if startswith s (lit "//") then Some (skip_to_eol (drop 2 s))
  else if startswith s (lit "/*") then skip_past (lit "*/") (drop 2 s)
  else None.

Definition TRIPLE_SQ : pystr := [39; 39; 39].
Definition TRIPLE_DQ : pystr := [34; 34; 34].

(** A match of the Python expression: a [#] comment at a line start, or a
    string in triple single quotes or in triple double quotes (DOTALL,
    MULTILINE). *)
Definition match_py_comment (at_bol : bool) (s : pystr) : option pystr :=
  match (if at_bol then match_hash_comment s else None) with
  | Some rest => Some rest
  | None =>
      if startswith s TRIPLE_SQ then skip_past TRIPLE_SQ (drop 3 s)
      else if startswith s TRIPLE_DQ then skip_past TRIPLE_DQ (drop 3 s)
      else None
  end.

Inductive comment_re := RE_default | RE_c_like | RE_py | RE_hash.

(** [COMMENT_RE.get(lang, COMMENT_RE["default"])] *)
Definition comment_re_for (lang : pystr) : comment_re :=
  if str_in lang (List.map lit ["js"; "ts"; "java"; "kt"; "go"]%string) then RE_c_like
  else if str_eqb lang (lit "py") then RE_py
  else if str_in lang (List.map lit ["sh"; "yml"; "yaml"; "properties"]%string) then RE_hash
  else RE_default.

Definition match_comment (rx : comment_re) (at_bol : bool) (s : pystr) : option pystr :=
  match rx with
  | RE_default => None
  | RE_c_like => match_c_comment s
  | RE_py => match_py_comment at_bol s
  | RE_hash => if at_bol then match_hash_comment s else None
  end.

(** [rx.sub(empty, text)]: scan from the left; where the expression matches,
    drop the match and go on after it, otherwise keep the character.
    [at_bol] says whether the position follows a line feed (or is the start
    of the text); [prev] is the character before the position. Every match
    is at least one character long, so [fuel] = length of the text is
    enough. *)
Fixpoint re_sub_scan (rx : comment_re) (fuel : nat) (at_bol : bool) (s : pystr) : pystr :=
  match fuel with
  | O => s
  | S fuel' =>
      match s with
      | [] => []
      | c :: s' =>
          match match_comment rx at_bol s with
          | Some rest => re_sub_scan rx fuel' false rest
          | None => c :: re_sub_scan rx fuel' (c =? NL) s'
          end
      end
  end.

Definition re_sub (rx : comment_re) (text : pystr) : pystr :=
  re_sub_scan rx (length text) true text.

(** [re.sub(r"\s+", " ", line)]: every run of whitespace becomes one space;
    [in_run] says whether the previous character was whitespace. *)
Fixpoint collapse_spaces_from (in_run : bool) (s : pystr) : pystr :=
  match s with
  | [] => []
  | c :: s' =>
      if is_space c then
        if in_run then collapse_spaces_from true s'
        else 32 :: collapse_spaces_from true s'
      else c :: collapse_spaces_from false s'
  end.

Definition collapse_spaces (s : pystr) : pystr := collapse_spaces_from false s.

(** [s.strip()] *)
Definition strip (s : pystr) : pystr :=
  rev (skip_spaces (rev (skip_spaces s))).

Definition ELLIPSIS : Z := 8230.

(** The marker ["\n… [TRUNCATED]"]. *)
Definition TRUNCATED_MARKER : pystr := [NL; ELLIPSIS] ++ lit " [TRUNCATED]".

(** The body of the line loop of [strip_comments_and_minify]: the lines
    kept so far, extended by what becomes of [line]. *)
Definition minify_line (lines : list pystr) (line : pystr) : list pystr :=
  let line := strip (collapse_spaces line) in
  match line with
  | [] => lines
  | _ =>
      let line :=
        if MAX_LINE_CHARS <? len line
        then py_slice_to MAX_LINE_CHARS line ++ [32; ELLIPSIS]
        else line in
      lines ++ [line]
  end.

(** The cut [encoded[:n].decode("utf-8", errors="ignore")]. *)
Definition cut_bytes (n : Z) (encoded : pybytes) : pystr :=
  decode_utf8 Ignore (py_slice_to n encoded).

(** The text [out] of [strip_comments_and_minify] before its size is
    looked at: comments stripped, lines minified and joined. *)
Definition minify_text (text ext : pystr) : pystr :=
  let lang := lstrip_char DOT (lower ext) in
  let rx := comment_re_for lang in
  let text := re_sub rx text in
  let lines := fold_left minify_line (splitlines text) [] in
  join [NL] lines.

Definition strip_comments_and_minify (text ext : pystr) : result pystr :=
  let out := minify_text text ext in
  encoded <- encode_utf8 out ;;
  if MAX_BYTES_PER_FILE <? len encoded
  then Ok (cut_bytes MAX_BYTES_PER_FILE encoded ++ TRUNCATED_MARKER)
  else Ok out.

Definition strip_and_cap_bytes (content : pybytes) (ext : pystr) : result pystr :=
  let text := decode_utf8 Replace content in
  let text := redact_secrets text in
  strip_comments_and_minify text ext.

(** ** Operations on values *)

Abbreviation pydict := (list (pystr * json)).

(** [d.get(k)] *)
Fixpoint dict_get (k : pystr) (d : pydict) : option json :=
  match d with
  | [] => None
  | (k', v) :: d' => if str_eqb k' k then Some v else dict_get k d'
  end.

(** [d[k] = v]: an existing key keeps its place. *)
Fixpoint dict_set (k : pystr) (v : json) (d : pydict) : pydict :=
  match d with
  | [] => [(k, v)]
  | (k', v') :: d' =>
      if str_eqb k' k then (k', v) :: d' else (k', v') :: dict_set k v d'
  end.

(** [d.update(other)] *)
Definition dict_update (d other : pydict) : pydict :=
  fold_left (fun d kv => dict_set (fst kv) (snd kv) d) other d.

(** The truth value of a value. *)
Definition truthy (v : json) : bool :=
  match v with
  | JNull => false
  | JBool b => b
  | JInt n => negb (n =? 0)
  | JFloat f => negb (float_is_zero f)
  | JStr s => negb (str_eqb s [])
  | JList l => match l with [] => false | _ => true end
  | JDict d => match d with [] => false | _ => true end
  end.

(** Decimal digits of an integer, as [str(n)]. *)
Definition dec (n : Z) : pystr := lit (NilZero.string_of_int (Z.to_int n)).

(** [str(v)], as an f-string formats a value; the text of a [list] or a
    [dict] is left to [container_repr]. *)
Definition py_str (container_repr : json -> pystr) (v : json) : pystr :=
  match v with
  | JNull => lit "None"
  | JBool true => lit "True"
  | JBool false => lit "False"
  | JInt n => dec n
  | JFloat f => float_repr f
  | JStr s => s
  | JList _ | JDict _ => container_repr v
  end.

(** [v.get(k, default)] where [v] has to be a [dict]. *)
Definition get_or (k : pystr) (default : json) (v : json) : result json :=
  match v with
  | JDict d => Ok (match dict_get k d with Some x => x | None => default end)
  | _ => Raise (PyError "AttributeError" (lit "object has no attribute 'get'"))
  end.

(** [len(v)] *)
Definition py_len (v : json) : result Z :=
  match v with
  | JStr s => Ok (len s)
  | JList l => Ok (len l)
  | JDict d => Ok (len d)
  | _ => Raise (PyError "TypeError" (lit "object has no len()"))
  end.

(** The items [for x in v] visits. *)
Definition py_iter (v : json) : result (list json) :=
  match v with
  | JList l => Ok l
  | JDict d => Ok (List.map (fun kv => JStr (fst kv)) d)
  | JStr s => Ok (List.map (fun c => JStr [c]) s)
  | _ => Raise (PyError "TypeError" (lit "object is not iterable"))
  end.

(** ["k" in v] for a string [k]. *)
Definition py_contains (k : pystr) (v : json) : result bool :=
  match v with
  | JDict d => Ok (dict_has k d)
  | JList l =>
      Ok (existsb (fun x => match x with JStr s => str_eqb s k | _ => false end) l)
  | JStr s => Ok (contains s k)
  | _ => Raise (PyError "TypeError" (lit "argument is not iterable"))
  end.

(** [v[k]] for a string [k]. *)
Definition py_getitem (k : pystr) (v : json) : result json :=
  match v with
  | JDict d =>
      match dict_get k d with
      | Some x => Ok x
      | None => Raise (PyError "KeyError" k)
      end
  | _ => Raise (PyError "TypeError" (lit "indices must be integers"))
  end.

(** [v[0]] *)
Definition py_getitem0 (v : json) : result json :=
  match v with
  | JList (x :: _) => Ok x
  | JList [] => Raise (PyError "IndexError" (lit "list index out of range"))
  | JStr (c :: _) => Ok (JStr [c])
  | JStr [] => Raise (PyError "IndexError" (lit "string index out of range"))
  | JDict d =>
      Raise (PyError "KeyError" (lit "0"))
  | _ => Raise (PyError "TypeError" (lit "object is not subscriptable"))
  end.

(** [c = v.copy(); c[k] = x] as far as it succeeds: only a [dict] can be
    copied and then assigned to by key. *)
Definition copy_as_dict (v : json) : result pydict :=
  match v with
  | JDict d => Ok d
  | JList _ => Raise (PyError "TypeError" (lit "list indices must be integers"))
  | _ => Raise (PyError "AttributeError" (lit "object has no attribute 'copy'"))
  end.

(** ** json.dumps *)

Definition hex_digit (n : Z) : Z := if n <? 10 then 48 + n else 87 + n.

(** The text of one character inside a JSON string, with
    [ensure_ascii=False]. *)
Definition json_escape_cp (c : Z) : pystr :=
  if c =? 34 then [92; 34]
  else if c =? 92 then [92; 92]
  else if c =? 10 then [92; 110]
  else if c =? 13 then [92; 114]
  else if c =? 9 then [92; 116]
  else if c =? 8 then [92; 98]
  else if c =? 12 then [92; 102]
  else if (0 <=? c) && (c <? 32)
  then [92; 117; 48; 48; hex_digit (c / 16); hex_digit (c mod 16)]
  else [c].

Definition json_string (s : pystr) : pystr :=
  [34] ++ flat_map json_escape_cp s ++ [34].

(** [json.dumps(v, ensure_ascii=False)] with the default separators. *)
Fixpoint json_dumps (v : json) : pystr :=
  match v with
  | JNull => lit "null"
  | JBool true => lit "true"
  | JBool false => lit "false"
  | JInt n => dec n
  | JFloat f => float_repr f
  | JStr s => json_string s
  | JList l =>
      [91] ++ join (lit ", ") (List.map json_dumps l) ++ [93]
  | JDict d =>
      [123]
      ++ join (lit ", ")
           (List.map (fun kv => json_string (fst kv) ++ lit ": " ++ json_dumps (snd kv)) d)
      ++ [125]
  end.

(** ** Budget allocator *)

(** The priority function [score] of the handler. *)
Definition score (p : pystr) : Z :=
  let p_l := lower p in
  let base := basename p_l in
  if existsb (endswith p_l) (List.map lit [".tf"; ".tfvars"; ".tf.json"]%string) then 100
  else if contains p_l (lit "docker") || contains p_l (lit "compose") then 90
  else if str_in base (List.map lit ["package.json"; "pom.xml"; "build.gradle";
                                     "build.gradle.kts"]%string) then 80
  else if contains p_l (lit "application")
          && (endswith p_l (lit ".yml") || endswith p_l (lit ".yaml")
              || endswith p_l (lit ".properties")) then 70
  else if startswith base (lit "readme") then 60
  else 10.

(** [l.sort(key=key, reverse=True)]: the stable sort by decreasing key.
    An element goes in front of the first one whose key is not greater. *)
Fixpoint insert_desc {A} (key : A -> Z) (x : A) (l : list A) : list A :=
  match l with
  | [] => [x]
  | y :: l' => if key y <=? key x then x :: l else y :: insert_desc key x l'
  end.

Fixpoint sort_desc {A} (key : A -> Z) (l : list A) : list A :=
  match l with
  | [] => []
  | x :: l' => insert_desc key x (sort_desc key l')
  end.

(** A list arranged by non-increasing key. *)
Definition descending {A} (key : A -> Z) (l : list A) : Prop :=
  StronglySorted (fun x y => key y <= key x) l.

(** The candidates of a project in the order the handler processes them. *)
Definition ranked_candidates (iter : set_order) (project_files : gset pystr) : list pystr :=
  sort_desc score (candidates_of iter project_files).

(** The limits of the handler; [source_limits] are the values of the
    module-level constants. *)
Record limits := {
  max_files_per_project : Z;
  max_total_files : Z;
  max_total_bytes : Z
}.

Definition source_limits : limits :=
  {| max_files_per_project := MAX_FILES_PER_PROJECT;
     max_total_files := MAX_TOTAL_FILES;
     max_total_bytes := MAX_TOTAL_BYTES |}.

Record file_summary := {
  fs_path : pystr;
  fs_languageHint : pystr;
  fs_content : pystr
}.

(** The variables the collection loop updates. *)
Record collect_state := {
  file_summaries : list file_summary;
  project_bytes : Z;
  used_total_bytes : Z;
  total_files_collected : Z
}.

(** The path of [name] relative to the project root. *)
Definition rel_path_of (project_root name : pystr) : pystr :=
  if negb (str_eqb project_root (lit ".")) && startswith name (project_root ++ lit "/")
  then slice_from (len project_root + 1) name
  else name.

(** The state after [name] is accepted with content [snippet] of [size]
    bytes: a summary is appended and the counters move on. *)
Definition accept_file (project_root name ext snippet : pystr) (size : Z)
    (st : collect_state) : collect_state :=
  {| file_summaries :=
       file_summaries st
       ++ [{| fs_path := rel_path_of project_root name;
              fs_languageHint := lstrip_char DOT ext;
              fs_content := snippet |}];
     project_bytes := project_bytes st + size;
     used_total_bytes := used_total_bytes st + size;
     total_files_collected := total_files_collected st + 1 |}.

(** The loop [for name in candidates[:project_limit]]; [read] is
    [zip_ref.read]. A [break] returns the state as it stands. *)
Fixpoint collect_files (L : limits) (read : pystr -> result pybytes)
    (project_root : pystr) (names : list pystr) (st : collect_state)
    : result collect_state :=
  match names with
  | [] => Ok st
  | name :: rest =>
      if max_total_bytes L <=? used_total_bytes st then Ok st
      else
        raw <- read name ;;
        let ext := snd (splitext name) in
        snippet <- strip_and_cap_bytes raw ext ;;
        encoded <- encode_utf8 snippet ;;
        let size := len encoded in
        if max_total_bytes L <? used_total_bytes st + size then
          let remain := max_total_bytes L - used_total_bytes st in
          if remain <=? 0 then Ok st
          else
            let snippet := cut_bytes remain encoded ++ TRUNCATED_MARKER in
            encoded' <- encode_utf8 snippet ;;
            collect_files L read project_root rest
              (accept_file project_root name ext snippet (len encoded') st)
        else
          collect_files L read project_root rest
            (accept_file project_root name ext snippet size st)
  end.

(** ** Prompt assembly and the guarded inference call *)

Definition SHAPE_HINT : pystr :=
  lit ("services[].name,services[].language,services[].framework,services[].artifact,"
    ++ "services[].docker.hasDockerfile,services[].docker.ports[],services[].env,services[].dependsOn[],"
    ++ "services[].runtime.javaVersion,services[].runtime.nodeVersion,services[].runtime.pythonVersion,"
    ++ "infrastructure.aws.ec2,infrastructure.aws.alb,infrastructure.aws.rds,infrastructure.aws.s3,"
    ++ "infrastructure.aws.ecr,infrastructure.aws.vpc,infrastructure.aws.iam,infrastructure.aws.lambda,"
    ++ "infrastructure.aws.apigw,infrastructure.aws.bedrock,infrastructure.aws.kafka_msksqs,"
    ++ "infrastructure.aws.redis_elasticache,infrastructure.external[],"
    ++ "deployment.buildTool,deployment.ci,deployment.containerOrchestration,"
    ++ "deployment.terraformHints.terraformRequiredProviders[],"
    ++ "deployment.terraformHints.terraformModulesCandidates[],"
    ++ "deployment.terraformHints.variables.*,deployment.terraformHints.outputs.*,"
    ++ "findings[].type,findings[].message,findings[].path")%string.

Definition build_llm_prompt (file_summaries : list file_summary)
    (project_context : pystr) : pystr :=
  let header :=
    lit "Analyze " ++ project_context ++ lit ". "
    ++ lit "Return JSON only (no backticks, no prose). If uncertain, omit fields. "
    ++ lit "Fill only these keys: " ++ SHAPE_HINT ++ [NL] ++ lit "=== FILES ===" ++ [NL] in
  let parts :=
    fold_left
      (fun parts fs =>
         parts ++ [lit "[" ++ fs_path fs ++ lit "]" ++ [NL]; fs_content fs;
                   [NL] ++ lit "---" ++ [NL]])
      file_summaries [header] in
  join [] (parts ++ [lit "Output strictly valid JSON."]).

Definition MODEL_ID : pystr :=
  lit "arn:aws:bedrock:ap-northeast-2:273354645391:inference-profile/apac.amazon.nova-pro-v1:0".

(** One call of [bedrock.converse]. *)
Record converse_call := {
  call_modelId : pystr;
  call_messages : json;
  call_inferenceConfig : json
}.

Definition payload_messages (prompt : pystr) : json :=
  JList [JDict [(lit "role", JStr (lit "user"));
                (lit "content", JList [JDict [(lit "text", JStr prompt)]])]].

Definition inference_config (max_tokens : Z) : json :=
  JDict [(lit "maxTokens", JInt max_tokens);
         (lit "temperature", JFloat {| float_is_zero := true; float_repr := lit "0.0" |});
         (lit "topP", JFloat {| float_is_zero := false; float_repr := lit "0.9" |})].

(** The text whose size the guard measures. *)
Definition payload_check (prompt : pystr) (max_tokens : Z) : pystr :=
  json_dumps (JDict [(lit "messages", payload_messages prompt);
                     (lit "inferenceConfig", inference_config max_tokens)]).

Definition prompt_too_large (payload_bytes : Z) : exn :=
  PyError "ValueError"
    (lit "Prompt too large: " ++ dec payload_bytes ++ lit " bytes (cap="
     ++ dec PAYLOAD_SOFT_CAP_BYTES ++ lit ")").

(** [safe_invoke_bedrock]: the calls of [bedrock.converse] made, and the
    outcome. [converse] is the inference service. *)
Definition safe_invoke_bedrock (converse : converse_call -> result json)
    (prompt : pystr) (max_tokens : Z) : list converse_call * result json :=
  match encode_utf8 (payload_check prompt max_tokens) with
  | Raise e => ([], Raise e)
  | Ok encoded =>
      let payload_bytes := len encoded in
      if PAYLOAD_SOFT_CAP_BYTES <? payload_bytes
      then ([], Raise (prompt_too_large payload_bytes))
      else
        let call := {| call_modelId := MODEL_ID;
                       call_messages := payload_messages prompt;
                       call_inferenceConfig := inference_config max_tokens |} in
        ([call],
         resp <- converse call ;;
         output <- py_getitem (lit "output") resp ;;
         message <- py_getitem (lit "message") output ;;
         content <- py_getitem (lit "content") message ;;
         first <- py_getitem0 content ;;
         py_getitem (lit "text") first)
  end.

(** ** Merging the metadata of several projects *)

(** The dictionary [merged] under construction. *)
Record merged := {
  m_services : list json;
  m_aws : pydict;
  m_external : list json;
  m_deployment : json;
  m_findings : list json;
  m_projects : list json
}.

Definition merged_init : merged :=
  {| m_services := []; m_aws := []; m_external := []; m_deployment := JDict [];
     m_findings := []; m_projects := [] |}.

Definition merged_json (m : merged) : json :=
  JDict [(lit "services", JList (m_services m));
         (lit "infrastructure",
          JDict [(lit "aws", JDict (m_aws m)); (lit "external", JList (m_external m))]);
         (lit "deployment", m_deployment m);
         (lit "findings", JList (m_findings m));
         (lit "projects", JList (m_projects m))].

(** A loop that appends [f x] for every [x], until one raises. *)
Fixpoint append_each {A B} (f : A -> result B) (xs : list A) (acc : list B)
    : result (list B) :=
  match xs with
  | [] => Ok acc
  | x :: xs' => y <- f x ;; append_each f xs' (acc ++ [y])
  end.

(** The body of the services loop. *)
Definition tag_service (container_repr : json -> pystr) (project_name svc : json)
    : result json :=
  svc_copy <- copy_as_dict svc ;;
  let svc_copy :=
    match dict_get (lit "name") svc_copy with
    | Some name =>
        dict_set (lit "name")
          (JStr (py_str container_repr project_name ++ lit "/"
                 ++ py_str container_repr name))
          svc_copy
    | None => svc_copy
    end in
  Ok (JDict (dict_set (lit "project") project_name svc_copy)).

(** The body of the findings loop. *)
Definition tag_finding (project_name finding : json) : result json :=
  finding_copy <- copy_as_dict finding ;;
  Ok (JDict (dict_set (lit "project") project_name finding_copy)).

(** The loop over [aws_infra.items()]. *)
Fixpoint merge_aws (aws : pydict) (items : pydict) : result pydict :=
  match items with
  | [] => Ok aws
  | (key, value) :: rest =>
      if truthy value then
        if negb (dict_has key aws) then merge_aws (dict_set key value aws) rest
        else
          match value with
          | JDict vd =>
              match dict_get key aws with
              | Some (JDict ed) =>
                  merge_aws (dict_set key (JDict (dict_update ed vd)) aws) rest
              | _ => Raise (PyError "AttributeError" (lit "object has no attribute 'update'"))
              end
          | _ => merge_aws aws rest
          end
      else merge_aws aws rest
  end.

Definition TERRAFORM_HINTS : pystr := lit "terraformHints".

Definition merge_deployment (current deploy : json) : result json :=
  if negb (truthy current) then Ok deploy
  else
    has <- py_contains TERRAFORM_HINTS deploy ;;
    if has then
      has_current <- py_contains TERRAFORM_HINTS current ;;
      if negb has_current then
        hints <- py_getitem TERRAFORM_HINTS deploy ;;
        match current with
        | JDict d => Ok (JDict (dict_set TERRAFORM_HINTS hints d))
        | _ => Raise (PyError "TypeError" (lit "object does not support item assignment"))
        end
      else Ok current
    else Ok current.

(** [meta.get("projectName", f"project-{idx+1}")] *)
Definition project_name_of (idx : Z) (meta : json) : result json :=
  get_or (lit "projectName") (JStr (lit "project-" ++ dec (idx + 1))) meta.

(** The body of the loop of [merge_metadata]. *)
Definition merge_one (container_repr : json -> pystr) (m : merged) (idx : Z)
    (meta : json) : result merged :=
  project_name <- project_name_of idx meta ;;
  root <- get_or (lit "projectRoot") (JStr (lit ".")) meta ;;
  svcs <- get_or (lit "services") (JList []) meta ;;
  service_count <- py_len svcs ;;
  let projects :=
    m_projects m ++ [JDict [(lit "name", project_name); (lit "root", root);
                            (lit "serviceCount", JInt service_count)]] in
  svc_items <- py_iter svcs ;;
  services <- append_each (tag_service container_repr project_name) svc_items
                (m_services m) ;;
  infra <- get_or (lit "infrastructure") (JDict []) meta ;;
  aws_infra <- get_or (lit "aws") (JDict []) infra ;;
  aws <- match aws_infra with
         | JDict items => merge_aws (m_aws m) items
         | _ => Raise (PyError "AttributeError" (lit "object has no attribute 'items'"))
         end ;;
  ext_infra <- get_or (lit "external") (JList []) infra ;;
  ext_items <- py_iter ext_infra ;;
  deploy <- get_or (lit "deployment") (JDict []) meta ;;
  deployment <- merge_deployment (m_deployment m) deploy ;;
  findings <- get_or (lit "findings") (JList []) meta ;;
  finding_items <- py_iter findings ;;
  findings' <- append_each (tag_finding project_name) finding_items (m_findings m) ;;
  Ok {| m_services := services; m_aws := aws;
        m_external := m_external m ++ ext_items; m_deployment := deployment;
        m_findings := findings'; m_projects := projects |}.

(** The loop [for idx, meta in enumerate(metadata_list)]. *)
Fixpoint merge_loop (container_repr : json -> pystr) (m : merged) (idx : Z)
    (metadata_list : list json) : result merged :=
  match metadata_list with
  | [] => Ok m
  | meta :: rest =>
      m' <- merge_one container_repr m idx meta ;;
      merge_loop container_repr m' (idx + 1) rest
  end.

Definition merge_metadata (container_repr : json -> pystr)
    (metadata_list : list json) : result json :=
  m <- merge_loop container_repr merged_init 0 metadata_list ;;
  Ok (merged_json m).

(** Step 6 of the handler, for a non-empty [metadata_list]: a single
    document is used as it is, several are merged. *)
Definition final_metadata (container_repr : json -> pystr)
    (metadata_list : list json) : result json :=
  match metadata_list with
  | [single] => Ok single
  | _ => merge_metadata container_repr metadata_list
  end.

(** ** The handler *)

(** The services the handler works with. *)
Record zip_archive := {
  namelist : list pystr;
  zip_read : pystr -> result pybytes
}.

Record world := {
  set_iter : set_order;
  getenv_DEBUG : pystr;
  s3_get_object : pystr -> pystr -> result pybytes;
  s3_put_object : pystr -> pystr -> pybytes -> pystr -> result unit;
  open_zip : pybytes -> result zip_archive;
  converse : converse_call -> result json;
  json_loads : pystr -> option json;
  json_dumps_indent2 : json -> pystr;
  container_repr : json -> pystr
}.

Record response := {
  statusCode : Z;
  headers : option pydict;
  body : pystr
}.

Definition BUCKET_NAME : pystr := lit "deployment-tr-bucket".
Definition SAVE_METADATA_TO_S3 : bool := true.
Definition SAFE_ERROR_SLICE : Z := 500.

Definition CORS_HEADERS : pydict :=
  [(lit "Access-Control-Allow-Origin", JStr (lit "*"));
   (lit "Access-Control-Allow-Methods", JStr (lit "POST, OPTIONS"));
   (lit "Access-Control-Allow-Headers", JStr (lit "*"));
   (lit "Access-Control-Max-Age", JStr (lit "86400"))].

(** The messages of the handler, as code points. *)
Definition MSG_FAILURE : pystr := [49892; 54056].
Definition MSG_SUCCESS : pystr := [49457; 44277].
Definition MSG_CLIENT_ERROR : pystr :=
  lit "AWS " ++ [53364; 46972; 51060; 50616; 53944; 32; 50724; 47448].
Definition MSG_INTERNAL_ERROR : pystr :=
  [45236; 48512; 32; 52376; 47532; 32; 51473; 32; 50724; 47448; 32; 48156; 49373].

Definition DEBUG_VALUES : list pystr := List.map lit ["1"; "true"; "yes"; "on"]%string.

Definition is_debug_mode (W : world) (event : json) : bool :=
  let env_debug := str_in (lower (getenv_DEBUG W)) DEBUG_VALUES in
  let qs_debug :=
    match (qs <- get_or (lit "queryStringParameters") JNull event ;;
           let qs := if truthy qs then qs else JDict [] in
           v <- get_or (lit "debug") (JStr []) qs ;;
           Ok (str_in (lower (py_str (container_repr W) v)) DEBUG_VALUES)) with
    | Ok b => b
    | Raise _ => false
    end in
  env_debug || qs_debug.

(** The 7-bit form [json.dumps] gives a character with its default
    [ensure_ascii=True]. *)
Definition hex4 (n : Z) : pystr :=
  [92; 117; hex_digit (n / 4096); hex_digit ((n / 256) mod 16);
   hex_digit ((n / 16) mod 16); hex_digit (n mod 16)].

Definition json_escape_cp_ascii (c : Z) : pystr :=
  if c <? 127 then json_escape_cp c
  else if c <? 65536 then hex4 c
  else hex4 (55296 + (c - 65536) / 1024) ++ hex4 (56320 + (c - 65536) mod 1024).

(** [json.dumps({"message": msg})] *)
Definition dumps_message_ascii (msg : pystr) : pystr :=
  lit "{" ++ json_string (lit "message") ++ lit ": "
  ++ [34] ++ flat_map json_escape_cp_ascii msg ++ [34] ++ lit "}".

Definition exn_class_name (e : exn) : pystr :=
  match e with
  | ClientError _ _ _ => lit "ClientError"
  | PyError cls _ => lit cls
  end.

Definition exn_str (container_repr : json -> pystr) (e : exn) : pystr :=
  match e with
  | ClientError code message _ =>
      lit "An error occurred (" ++ py_str container_repr code ++ lit "): "
      ++ py_str container_repr message
  | PyError _ msg => msg
  end.

(** [v[:i]] for a value [v]: a [str] and a [list] are cut, a number, a
    boolean and [None] are not subscriptable, and a [dict] cannot be
    indexed by a slice either (a [TypeError] for its unhashable key; the
    lookup fails with a [KeyError] instead where slices are hashable). *)
Definition py_slice_value (i : Z) (v : json) : result json :=
  match v with
  | JStr s => Ok (JStr (py_slice_to i s))
  | JList l => Ok (JList (py_slice_to i l))
  | JDict _ => Raise (PyError "TypeError" (lit "unhashable type: 'slice'"))
  | _ => Raise (PyError "TypeError" (lit "object is not subscriptable"))
  end.

(** [build_error_response]; a [Raise] is an exception raised while the
    payload is put together. *)
Definition build_error_response (container_repr : json -> pystr) (status : Z)
    (message : pystr) (exc : exn) (aws_request_id : json) (debug : bool)
    : result response :=
  let payload :=
    [(lit "message", JStr MSG_FAILURE); (lit "reason", JStr message);
     (lit "requestId", aws_request_id)] in
  payload <-
    match exc with
    | ClientError code msg service_request_id =>
        error_message <-
          (if debug
           then (if truthy msg then py_slice_value SAFE_ERROR_SLICE msg else Ok JNull)
           else Ok code) ;;
        Ok (payload ++
            [(lit "error",
              JDict [(lit "type", JStr (lit "AWS.ClientError"));
                     (lit "code", code);
                     (lit "message", error_message);
                     (lit "serviceRequestId", service_request_id)])])
    | PyError _ _ =>
        if debug
        then Ok (payload ++
                 [(lit "error",
                   JDict [(lit "type", JStr (exn_class_name exc));
                          (lit "message",
                           JStr (py_slice_to SAFE_ERROR_SLICE
                                   (exn_str container_repr exc)))])])
        else Ok payload
    end ;;
  Ok {| statusCode := status; headers := None; body := json_dumps (JDict payload) |}.

(** [x or y] *)
Definition py_or (x : json) (y : result json) : result json :=
  if truthy x then Ok x else y.

(** [s.strip("`")] *)
Definition strip_backticks (s : pystr) : pystr :=
  rstrip_char 96 (lstrip_char 96 s).

(** The removal of a code fence around the model's answer. *)
Definition strip_code_fence (llm_text : pystr) : pystr :=
  if startswith llm_text (lit "```") then
    let llm_text := strip_backticks llm_text in
    let idx := find 123 llm_text in
    let llm_text := if 0 <=? idx then slice_from idx llm_text else llm_text in
    let ridx := rfind 125 llm_text in
    if 0 <=? ridx then py_slice_to (ridx + 1) llm_text else llm_text
  else llm_text.

(** Step 5 for one project: everything inside the [try] of the project
    loop. A [Raise] is what the [except Exception] clause catches. *)
Definition analyze_project (W : world) (file_summaries : list file_summary)
    (project_name project_root : pystr) : result json :=
  let prompt :=
    build_llm_prompt file_summaries
      (lit "project '" ++ project_name ++ lit "' at '" ++ project_root ++ lit "'") in
  llm_raw <- snd (safe_invoke_bedrock (converse W) prompt 1500) ;;
  match llm_raw with
  | JStr raw =>
      let llm_text := strip_code_fence (strip raw) in
      match json_loads W llm_text with
      | None => Raise (PyError "JSONDecodeError" (lit "invalid JSON"))
      | Some (JDict d) =>
          Ok (JDict (dict_set (lit "projectRoot") (JStr project_root)
                       (dict_set (lit "projectName") (JStr project_name) d)))
      | Some _ =>
          Raise (PyError "TypeError" (lit "object does not support item assignment"))
      end
  | _ => Raise (PyError "AttributeError" (lit "object has no attribute 'strip'"))
  end.

(** What the project loop carries from one project to the next. *)
Record run_state := {
  metadata_list : list json;
  run_files : Z;
  run_bytes : Z
}.

Definition project_name_for (project_root : pystr) : pystr :=
  if negb (str_eqb project_root (lit ".")) then basename project_root else lit "root".

(** Step 4 for one project: the files collected for it. *)
Definition collect_project (W : world) (L : limits) (read : pystr -> result pybytes)
    (project_root : pystr) (project_files : gset pystr) (st : run_state)
    : result collect_state :=
  let candidates := ranked_candidates (set_iter W) project_files in
  let remaining_total_quota := max_total_files L - run_files st in
  let project_limit := Z.min (max_files_per_project L) remaining_total_quota in
  collect_files L read project_root (py_slice_to project_limit candidates)
    {| file_summaries := []; project_bytes := 0;
       used_total_bytes := run_bytes st; total_files_collected := run_files st |}.

(** Step 5 and the counters after one project: the document of the
    project joins [metadata_list] when there are file summaries and the
    analysis succeeds. *)
Definition after_project (W : world) (project_root : pystr) (st : run_state)
    (cs : collect_state) : run_state :=
  {| metadata_list :=
       match file_summaries cs with
       | [] => metadata_list st
       | _ =>
           match analyze_project W (file_summaries cs)
                   (project_name_for project_root) project_root with
           | Ok metadata => metadata_list st ++ [metadata]
           | Raise _ => metadata_list st
           end
       end;
     run_files := total_files_collected cs;
     run_bytes := used_total_bytes cs |}.

(** The loop [for project_root, project_files in project_roots.items()]. *)
Fixpoint process_projects (W : world) (L : limits) (read : pystr -> result pybytes)
    (projects : roots_dict) (st : run_state) : result run_state :=
  match projects with
  | [] => Ok st
  | (project_root, project_files) :: rest =>
      if max_total_files L <=? run_files st then Ok st
      else
        cs <- collect_project W L read project_root project_files st ;;
        process_projects W L read rest (after_project W project_root st cs)
  end.

Definition run_init : run_state :=
  {| metadata_list := []; run_files := 0; run_bytes := 0 |}.

(** Steps 2 to 6: the body of the [try] block, up to the success response. *)
Definition analyze_archive (W : world) (zip_key result_prefix : pystr)
    : result run_state :=
  zip_content <- s3_get_object W BUCKET_NAME zip_key ;;
  zip_ref <- open_zip W zip_content ;;
  let all_paths :=
    List.filter (fun name => negb (endswith name (lit "/")) && negb (should_skip_path name))
      (namelist zip_ref) in
  let project_roots := detect_project_roots all_paths in
  st <- process_projects W source_limits (zip_read zip_ref) project_roots run_init ;;
  match metadata_list st with
  | [] => Ok st
  | _ =>
      final <- final_metadata (container_repr W) (metadata_list st) ;;
      let meta_key := result_prefix ++ lit "metadata.json" in
      if SAVE_METADATA_TO_S3 then
        body <- encode_utf8 (json_dumps_indent2 W final) ;;
        _ <- s3_put_object W BUCKET_NAME meta_key body (lit "application/json") ;;
        Ok st
      else Ok st
  end.

Definition success_response (st : run_state) : response :=
  {| statusCode := 200;
     headers := Some CORS_HEADERS;
     body := json_dumps (JDict [(lit "message", JStr MSG_SUCCESS);
                                (lit "projectsAnalyzed", JInt (len (metadata_list st)));
                                (lit "filesCollected", JInt (run_files st))]) |}.

(** Step 1: the request id and the file name, each taken from the body
    or else from the event itself. *)
Definition request_ids (W : world) (event : json) : result (json * json) :=
  body <- get_or (lit "body") event event ;;
  let body :=
    match body with
    | JStr s => match json_loads W s with Some b => b | None => JDict [] end
    | _ => body
    end in
  uuid0 <- get_or (lit "request_id") JNull body ;;
  uuid <- py_or uuid0 (get_or (lit "request_id") JNull event) ;;
  file0 <- get_or (lit "file_name") JNull body ;;
  req_file_name <- py_or file0 (get_or (lit "file_name") JNull event) ;;
  Ok (uuid, req_file_name).

Definition zip_key_of (W : world) (uuid req_file_name : json) : pystr :=
  lit "uploads/" ++ py_str (container_repr W) uuid ++ lit "/"
  ++ py_str (container_repr W) req_file_name.

Definition result_prefix_of (W : world) (uuid : json) : pystr :=
  lit "results/" ++ py_str (container_repr W) uuid ++ lit "/".

(** [lambda_handler(event, context)]; [aws_request_id] is
    [getattr(context, "aws_request_id", None)]. A [Raise] is an exception
    that leaves the handler: one raised before the [try] block, or inside
    an [except] clause while the error response is built. *)
Definition lambda_handler (W : world) (event : json) (aws_request_id : json)
    : result response :=
  let debug := is_debug_mode W event in
  ids <- request_ids W event ;;
  let uuid := fst ids in
  let req_file_name := snd ids in
  if negb (truthy uuid) || negb (truthy req_file_name) then
    Ok {| statusCode := 400; headers := None; body := dumps_message_ascii MSG_FAILURE |}
  else
    match analyze_archive W (zip_key_of W uuid req_file_name) (result_prefix_of W uuid) with
    | Ok st => Ok (success_response st)
    | Raise (ClientError code msg rid) =>
        build_error_response (container_repr W) 502 MSG_CLIENT_ERROR
          (ClientError code msg rid) aws_request_id debug
    | Raise e =>
        build_error_response (container_repr W) 500 MSG_INTERNAL_ERROR e
          aws_request_id debug
    end.

(** A run in which the inference service throttles every call. *)
Definition throttled_world : world :=
  {| set_iter := elements;
     getenv_DEBUG := [];
     s3_get_object := fun _ _ => Ok [80; 75];
     s3_put_object := fun _ _ _ _ => Ok tt;
     open_zip := fun _ =>
       Ok {| namelist := List.map lit ["infra/main.tf"; "infra/notes.txt"]%string;
             zip_read := fun _ => Ok (lit "region = 1") |};
     converse := fun _ =>
       Raise (ClientError (JStr (lit "ThrottlingException")) (JStr (lit "Too many requests")) JNull);
     json_loads := fun _ => None;
     json_dumps_indent2 := fun _ => [];
     container_repr := fun _ => [] |}.

Definition sample_event : json :=
  JDict [(lit "request_id", JStr (lit "r-1")); (lit "file_name", JStr (lit "src.zip"))].

(** ** Statements of the specification that are checked against the model *)

(** The partition property as the specification states it: every path
    that is neither skipped nor a directory is filed under some root. *)
Definition every_path_assigned (all_paths : list pystr) : Prop :=
  forall p, In p all_paths -> skipped p = false ->
    exists root, p ∈ files_of root (detect_project_roots all_paths).

Definition unassigned_paths : list pystr :=
  List.map lit ["a/package.json"; "b/notes.txt"]%string.

(** The order of equal-score candidates as the specification states it:
    whenever [p] is processed before [q] and both have the same score, the
    archive lists [p] before [q]. *)
Definition ties_in_archive_order (iter : set_order) (all_paths : list pystr) : Prop :=
  forall root l1 p l2 q l3,
    ranked_candidates iter (files_of root (detect_project_roots all_paths))
    = l1 ++ p :: l2 ++ q :: l3 ->
    score p = score q ->
    exists a1 a2 a3, all_paths = a1 ++ p :: a2 ++ q :: a3.

Definition two_yaml_files : list pystr := List.map lit ["a.yml"; "b.yml"]%string.

Definition scenario_candidates : list pystr :=
  List.map lit ["main.tf"; "Dockerfile"; "package.json"; "README.md"; "src/App.java"]%string.

(** [any(k in line.lower() for k in SENSITIVE_KEYS)] *)
Definition sensitive (line : pystr) : bool :=
  existsb (contains (lower line)) SENSITIVE_KEYS.

Definition REDACTED : pystr := lit "***REDACTED***".


(** ** The merged document, in the words of the specification *)

(** [f idx x] for every [x], counting from [idx] (as [enumerate] does). *)
Fixpoint map_indexed {A B} (f : Z -> A -> B) (idx : Z) (l : list A) : list B :=
  match l with
  | [] => []
  | x :: l' => f idx x :: map_indexed f (idx + 1) l'
  end.

(** The value of a top-level key of a document, or [default]. *)
Definition doc_field (k : pystr) (default : json) (meta : json) : json :=
  match meta with
  | JDict d => match dict_get k d with Some v => v | None => default end
  | _ => default
  end.

Definition doc_project_name (idx : Z) (meta : json) : json :=
  doc_field (lit "projectName") (JStr (lit "project-" ++ dec (idx + 1))) meta.

(** The services of a document. *)
Definition doc_services (meta : json) : list json :=
  match py_iter (doc_field (lit "services") (JList []) meta) with
  | Ok l => l
  | Raise _ => []
  end.

(** The entry of [projects] for the document at position [idx]. *)
Definition project_entry (idx : Z) (meta : json) : json :=
  JDict [(lit "name", doc_project_name idx meta);
         (lit "root", doc_field (lit "projectRoot") (JStr (lit ".")) meta);
         (lit "serviceCount", JInt (len (doc_services meta)))].

(** A service with its name prefixed by the project name and its origin
    recorded. *)
Definition prefixed_service (container_repr : json -> pystr) (project_name svc : json)
    : json :=
  match svc with
  | JDict d =>
      JDict (dict_set (lit "project") project_name
               (match dict_get (lit "name") d with
                | Some name =>
                    dict_set (lit "name")
                      (JStr (py_str container_repr project_name ++ lit "/"
                             ++ py_str container_repr name)) d
                | None => d
                end))
  | _ => svc
  end.

Definition is_dict (v : json) : bool :=
  match v with JDict _ => true | _ => false end.

Definition is_list (v : json) : bool :=
  match v with JList _ => true | _ => false end.

Definition list_of_dicts (v : json) : bool :=
  match v with JList l => forallb is_dict l | _ => false end.

(** [ok] holds of the value of key [k], if the key is there. *)
Definition field_ok (k : pystr) (ok : json -> bool) (d : pydict) : bool :=
  match dict_get k d with Some v => ok v | None => true end.

(** A document of the shape the prompt asks for: [services] and [findings]
    are lists of objects, [infrastructure] is an object with an object
    [aws] (whose values satisfy [aws_ok]) and a list [external], and
    [deployment] is an object; any of them may be missing. *)
Definition doc_shape_ok (aws_ok : json -> bool) (meta : json) : bool :=
  match meta with
  | JDict d =>
      field_ok (lit "services") list_of_dicts d
      && field_ok (lit "infrastructure")
           (fun infra =>
              match infra with
              | JDict i =>
                  field_ok (lit "aws")
                    (fun aws =>
                       match aws with
                       | JDict items => forallb (fun kv => aws_ok (snd kv)) items
                       | _ => false
                       end) i
                  && field_ok (lit "external") is_list i
              | _ => false
              end) d
      && field_ok (lit "deployment") is_dict d
      && field_ok (lit "findings") list_of_dicts d
  | _ => false
  end.

(** The values under [infrastructure.aws] are objects (or empty) in every
    document, or in no document is one a non-empty object. *)
Definition aws_object (v : json) : bool := is_dict v || negb (truthy v).
Definition aws_leaf (v : json) : bool := negb (is_dict v && truthy v).

Definition well_shaped (metadata_list : list json) : bool :=
  forallb (doc_shape_ok aws_object) metadata_list
  || forallb (doc_shape_ok aws_leaf) metadata_list.

Definition two_project_documents : list json :=
  [JDict [(lit "services",
           JList [JDict [(lit "name", JStr (lit "web")); (lit "language", JStr (lit "js"))]]);
          (lit "infrastructure",
           JDict [(lit "aws", JDict [(lit "s3", JBool true)]);
                  (lit "external", JList [JStr (lit "stripe")])]);
          (lit "deployment", JDict [(lit "buildTool", JStr (lit "npm"))]);
          (lit "projectName", JStr (lit "app"));
          (lit "projectRoot", JStr (lit "app"))];
   JDict [(lit "services",
           JList [JDict [(lit "name", JStr (lit "db"))]; JDict [(lit "language", JStr (lit "go"))]]);
          (lit "findings", JList [JDict [(lit "type", JStr (lit "info"))]]);
          (lit "projectName", JStr (lit "infra"));
          (lit "projectRoot", JStr (lit "infra"))]].

(** The longest prefix of [s] whose UTF-8 encoding takes at most [n]
    bytes. *)
Fixpoint fit_bytes (n : Z) (s : pystr) : pystr :=
  match s with
  | [] => []
  | c :: s' =>
      match utf8_encode_cp c with
      | Some bs => if len bs <=? n then c :: fit_bytes (n - len bs) s' else []
      | None => []
      end
  end.

(** A text that [str.encode] accepts: no lone surrogate in it. *)
Definition encodable (s : pystr) : Prop :=
  Forall (fun c => utf8_encode_cp c <> None) s.

(** The size in bytes of what a sanitising run returns. *)
Definition snippet_bytes (r : result pystr) : option Z :=
  match r with
  | Ok s => match encode_utf8 s with
            | Ok encoded => Some (len encoded)
            | Raise _ => None
            end
  | Raise _ => None
  end.

(** The bound on a sanitised snippet as the specification states it. *)
Definition within_file_ceiling (text ext : pystr) : Prop :=
  forall out encoded,
    strip_comments_and_minify text ext = Ok out ->
    encode_utf8 out = Ok encoded ->
    len encoded <= MAX_BYTES_PER_FILE.

(** 81 lines of 200 letters each. *)
Definition long_text : pystr := join [NL] (repeat (repeat 97 200) 81).





(** The scenario of the specification: a byte cap of 100 and two files
    that sanitise to 60 and 80 bytes. *)
Definition scenario_limits : limits :=
  {| max_files_per_project := 50; max_total_files := 120; max_total_bytes := 100 |}.

Definition scenario_read (name : pystr) : result pybytes :=
  if str_eqb name (lit "a.tf") then Ok (repeat 120 60) else Ok (repeat 121 80).

Definition scenario_projects : roots_dict :=
  [(lit ".", list_to_set (List.map lit ["a.tf"; "b.yml"]%string))].

(** ** Further notions used in the statements *)

(** A path segment as archives have them: not empty, without a slash, and
    neither "." nor "..". *)
Definition plain_segment (seg : pystr) : bool :=
  negb (str_eqb seg []) && negb (has_char SLASH seg)
  && negb (str_eqb seg (lit ".")) && negb (str_eqb seg (lit "..")).

Definition is_str (v : json) : bool :=
  match v with JStr _ => true | _ => false end.

(** A run in which the archive that was downloaded cannot be opened. *)
Definition corrupt_archive_world : world :=
  {| set_iter := elements;
     getenv_DEBUG := [];
     s3_get_object := fun _ _ => Ok [0; 1; 2];
     s3_put_object := fun _ _ _ _ => Ok tt;
     open_zip := fun _ => Raise (PyError "BadZipFile" (lit "File is not a zip file"));
     converse := fun _ => Ok JNull;
     json_loads := fun _ => None;
     json_dumps_indent2 := fun _ => [];
     container_repr := fun _ => [] |}.

(** The external dependencies a document lists. *)
Definition doc_external (meta : json) : list json :=
  match py_iter (doc_field (lit "external") (JList [])
                   (doc_field (lit "infrastructure") (JDict []) meta)) with
  | Ok l => l
  | Raise _ => []
  end.

(** The AWS section of a document. *)
Definition doc_aws (meta : json) : json :=
  doc_field (lit "aws") (JDict []) (doc_field (lit "infrastructure") (JDict []) meta).

Definition doc_deployment (meta : json) : json :=
  doc_field (lit "deployment") (JDict []) meta.

(** The findings of a document. *)
Definition doc_findings (meta : json) : list json :=
  match py_iter (doc_field (lit "findings") (JList []) meta) with
  | Ok l => l
  | Raise _ => []
  end.

(** A finding with its origin recorded. *)
Definition tagged_finding (project_name finding : json) : json :=
  match finding with
  | JDict d => JDict (dict_set (lit "project") project_name d)
  | _ => finding
  end.

(** The [serviceCount] an entry of [projects] reports. *)
Definition entry_service_count (entry : json) : Z :=
  match py_getitem (lit "serviceCount") entry with
  | Ok (JInt n) => n
  | _ => 0
  end.

Definition sum_Z (l : list Z) : Z := fold_right Z.add 0 l.

(** Two documents that both describe S3 buckets as a list. *)
Definition two_bucket_documents : list json :=
  [JDict [(lit "infrastructure",
           JDict [(lit "aws", JDict [(lit "s3", JList [JStr (lit "assets")])])]);
          (lit "deployment", JDict [(lit "buildTool", JStr (lit "npm"))])];
   JDict [(lit "infrastructure",
           JDict [(lit "aws", JDict [(lit "s3", JList [JStr (lit "backups")])])]);
          (lit "deployment", JDict [(lit "buildTool", JStr (lit "gradle"));
                                    (lit "ci", JStr (lit "jenkins"))])]].

(** Two documents, the second with a service given by its name only. *)
Definition documents_with_named_service : list json :=
  [JDict [(lit "services", JList [JDict [(lit "name", JStr (lit "web"))]])];
   JDict [(lit "services", JList [JStr (lit "worker")])]].

(** A document of [metadata_list] that carries the name and the root the
    handler gave it. *)
Definition labelled (project_root : pystr) (doc : json) : Prop :=
  exists d, doc = JDict d
            /\ dict_get (lit "projectName") d = Some (JStr (project_name_for project_root))
            /\ dict_get (lit "projectRoot") d = Some (JStr project_root).

(** A run in which the model answers every prompt with the same document,
    which claims a project name of its own. *)
Definition renaming_world : world :=
  {| set_iter := elements;
     getenv_DEBUG := [];
     s3_get_object := fun _ _ => Ok [80; 75];
     s3_put_object := fun _ _ _ _ => Ok tt;
     open_zip := fun _ =>
       Ok {| namelist := List.map lit ["infra/main.tf"]%string;
             zip_read := fun _ => Ok (lit "region = 1") |};
     converse := fun _ =>
       Ok (JDict [(lit "output",
                   JDict [(lit "message",
                           JDict [(lit "content",
                                   JList [JDict [(lit "text", JStr (lit "{}"))]])])])]);
     json_loads := fun _ => Some (JDict [(lit "projectName", JStr (lit "other"))]);
     json_dumps_indent2 := fun _ => [];
     container_repr := fun _ => [] |}.

(** A character that is not whitespace other than the plain space. *)
Definition tidy_char (c : Z) : Prop := is_space c = true -> c = 32.

(** A line as the minifier leaves it: it starts with a character that is
    not whitespace, has at most MAX_LINE_CHARS + 2 characters, and its only
    whitespace is the plain space. *)
Definition tidy_line (l : pystr) : Prop :=
  (exists c rest, l = c :: rest /\ is_space c = false)
  /\ len l <= MAX_LINE_CHARS + 2
  /\ Forall tidy_char l.

(** The extensions (without the dot, in lower case) that have a comment
    expression of their own in [COMMENT_RE]. *)
Definition COMMENT_LANGS : list pystr :=
  List.map lit ["js"; "ts"; "java"; "kt"; "go"; "py"; "sh"; "yml"; "yaml";
                "properties"]%string.

(** The parts of the prompt. *)
Definition prompt_header (project_context : pystr) : pystr :=
  lit "Analyze " ++ project_context ++ lit ". "
  ++ lit "Return JSON only (no backticks, no prose). If uncertain, omit fields. "
  ++ lit "Fill only these keys: " ++ SHAPE_HINT ++ [NL] ++ lit "=== FILES ===" ++ [NL].

Definition file_block (fs : file_summary) : pystr :=
  lit "[" ++ fs_path fs ++ lit "]" ++ [NL] ++ fs_content fs
  ++ [NL] ++ lit "---" ++ [NL].

Definition PROMPT_FOOTER : pystr := lit "Output strictly valid JSON.".


(** [posixpath.dirname(path) or "."], the root a marker file registers. *)
Definition marker_root (path : pystr) : pystr :=
  match dirname path with [] => lit "." | d => d end.

(** The paths of an archive that detection looks at. *)
Definition qualifying (all_paths : list pystr) : gset pystr :=
  list_to_set (List.filter (fun p => negb (skipped p)) all_paths).

(** Two states of the project loop with the same counters. *)
Definition same_counters (a b : run_state) : Prop :=
  run_files a = run_files b /\ run_bytes a = run_bytes b.

(** ** Further statements of the specification, and the notions of their
    amended forms *)




(** The tiers of [score], as conditions on the lower-cased path. *)
Definition iac_suffix (p_l : pystr) : bool :=
  existsb (endswith p_l) (List.map lit [".tf"; ".tfvars"; ".tf.json"]%string).

Definition names_docker (p_l : pystr) : bool :=
  contains p_l (lit "docker") || contains p_l (lit "compose").

Definition build_manifest (p_l : pystr) : bool :=
  str_in (basename p_l)
    (List.map lit ["package.json"; "pom.xml"; "build.gradle"; "build.gradle.kts"]%string).

Definition application_config (p_l : pystr) : bool :=
  contains p_l (lit "application")
  && (endswith p_l (lit ".yml") || endswith p_l (lit ".yaml")
      || endswith p_l (lit ".properties")).

Definition readme_file (p_l : pystr) : bool :=
  startswith (basename p_l) (lit "readme").

(** The merge as the specification states it: for every non-empty list of
    documents a merged document is produced, with one entry of [projects]
    per document and the prefixed services of all documents. *)
Definition merge_lists_every_service : Prop :=
  forall (container_repr : json -> pystr) (docs : list json),
    docs <> [] ->
    exists merged projects services,
      merge_metadata container_repr docs = Ok merged
      /\ py_getitem (lit "projects") merged = Ok (JList projects)
      /\ length projects = length docs
      /\ py_getitem (lit "services") merged = Ok (JList services)
      /\ services
         = concat (map_indexed
                     (fun i meta =>
                        List.map (prefixed_service container_repr (doc_project_name i meta))
                          (doc_services meta))
                     0 docs).



(** An AWS error message that can be cut to a slice, or is not looked at
    because it is falsy. *)
Definition sliceable (msg : json) : bool :=
  negb (truthy msg) || is_str msg || is_list msg.

(** A run in which the download fails with an AWS error whose message is
    a number, under [DEBUG=1]. *)
Definition numeric_message_world : world :=
  {| set_iter := elements;
     getenv_DEBUG := lit "1";
     s3_get_object := fun _ _ =>
       Raise (ClientError (JStr (lit "NoSuchKey")) (JInt 5) JNull);
     s3_put_object := fun _ _ _ _ => Ok tt;
     open_zip := fun _ => Raise (PyError "BadZipFile" (lit "File is not a zip file"));
     converse := fun _ => Ok JNull;
     json_loads := fun _ => None;
     json_dumps_indent2 := fun _ => [];
     container_repr := fun _ => [] |}.

(** Whether the error response for [outcome] can be built: only an AWS
    error in debug mode has its message cut. *)
Definition error_message_fits (debug : bool) (outcome : result run_state) : bool :=
  match outcome with
  | Raise (ClientError _ msg _) => negb debug || sliceable msg
  | _ => true
  end.

(** * Properties *)

Example basename_ex : basename (lit "app/src/index.js") = lit "index.js".
Proof. vm_compute. reflexivity. Qed.
Example dirname_ex : dirname (lit "app/src/index.js") = lit "app/src".
Proof. vm_compute. reflexivity. Qed.
Example normpath_ex : normpath (lit "a//b/./c/../d") = lit "a/b/d".
Proof. vm_compute. reflexivity. Qed.
Example splitext_ex : splitext (lit "infra/main.tf") = (lit "infra/main", lit ".tf").
Proof. vm_compute. reflexivity. Qed.
Example splitext_hidden : splitext (lit ".env") = (lit ".env", []).
Proof. vm_compute. reflexivity. Qed.
Example skip_ex : should_skip_path (lit "node_modules/x/package.json") = true.
Proof. vm_compute. reflexivity. Qed.
Example signal_ex : is_signal_path (lit "infra/variables.tf") = true.
Proof. vm_compute. reflexivity. Qed.
Example signal_java : is_signal_path (lit "src/App.java") = false.
Proof. vm_compute. reflexivity. Qed.
Example detect_scenario_roots :
  List.map fst (detect_project_roots spec_scenario_paths) = [lit "app"; lit "infra"].
Proof. vm_compute. reflexivity. Qed.
Example detect_scenario_files :
  List.map (fun kv => size (snd kv)) (detect_project_roots spec_scenario_paths) = [2%nat; 2%nat]
  /\ bool_decide (lit "app/src/index.js" ∈ files_of (lit "app") (detect_project_roots spec_scenario_paths)) = true.
Proof. vm_compute. split; reflexivity. Qed.

(** ** Facts about strings *)

Lemma str_eqb_eq (a b : pystr) : str_eqb a b = true <-> a = b.
Proof.
  revert b; induction a as [|x a IH]; intros [|y b]; simpl; split; intros H;
    try done.
  - apply andb_prop in H as [H1 H2]. apply Z.eqb_eq in H1.
    apply IH in H2. by subst.
  - injection H as -> ->. rewrite Z.eqb_refl. by apply IH.
Qed.

Lemma str_eqb_refl (a : pystr) : str_eqb a a = true.
Proof. by apply str_eqb_eq. Qed.

Lemma str_eqb_neq (a b : pystr) : str_eqb a b = false <-> a <> b.
Proof.
  destruct (str_eqb a b) eqn:E.
  - apply str_eqb_eq in E. split; [done | tauto].
  - split; [|done]. intros _ Heq. apply str_eqb_eq in Heq. congruence.
Qed.

Lemma str_eqb_sym_bool (a b : pystr) : str_eqb a b = str_eqb b a.
Proof.
  destruct (str_eqb a b) eqn:E1, (str_eqb b a) eqn:E2; try done.
  - apply str_eqb_eq in E1. apply str_eqb_neq in E2. congruence.
  - apply str_eqb_eq in E2. apply str_eqb_neq in E1. congruence.
Qed.

Lemma str_in_In (x : pystr) (xs : list pystr) : str_in x xs = true <-> In x xs.
Proof.
  unfold str_in. rewrite existsb_exists. split.
  - intros (y & Hy & E). apply str_eqb_eq in E. by subst.
  - intros H. exists x. split; [done | apply str_eqb_refl].
Qed.

Lemma count_char_nonneg (c : Z) (s : pystr) : 0 <= count_char c s.
Proof. induction s as [|x s IH]; simpl; [lia | destruct (x =? c); lia]. Qed.

(** ** Facts about project detection *)

Lemma dict_has_In {V} (k : pystr) (d : list (pystr * V)) :
  dict_has k d = true <-> In k (List.map fst d).
Proof.
  unfold dict_has. rewrite existsb_exists, in_map_iff. split.
  - intros (e & He & E). apply str_eqb_eq in E. exists e. by subst.
  - intros (e & <- & He). exists e. split; [done | apply str_eqb_refl].
Qed.

Lemma register_root_keys (d : roots_dict) (path : pystr) :
  NoDup (List.map fst d) -> NoDup (List.map fst (register_root d path)).
Proof.
  intros Hnd. unfold register_root.
  destruct (skipped path); [done|].
  destruct (str_in _ _); [|done].
  remember (match dirname path with [] => lit "." | d0 => d0 end) as dir_path.
  clear Heqdir_path.
  destruct (dict_has dir_path d) eqn:Hhas; [done|].
  rewrite List.map_app. simpl. apply NoDup_app. split; [done|]. split.
  - intros k Hk [<-|[]]%list_elem_of_In.
    assert (dict_has dir_path d = true) as E.
    { apply dict_has_In. by apply list_elem_of_In. }
    congruence.
  - apply NoDup_singleton.
Qed.

Lemma register_root_empty_sets (d : roots_dict) (path : pystr) :
  Forall (fun kv => snd kv = ∅) d ->
  Forall (fun kv => snd kv = ∅) (register_root d path).
Proof.
  intros H. unfold register_root.
  destruct (skipped path); [done|].
  destruct (str_in _ _); [|done].
  set (dir_path := match dirname path with [] => lit "." | d0 => d0 end).
  destruct (dict_has dir_path d); [done|].
  apply Forall_app. split; [done|]. by constructor.
Qed.

Lemma collect_roots_inv (all_paths : list pystr) (d : roots_dict) :
  NoDup (List.map fst d) -> Forall (fun kv => snd kv = ∅) d ->
  NoDup (List.map fst (fold_left register_root all_paths d))
  /\ Forall (fun kv => snd kv = ∅) (fold_left register_root all_paths d).
Proof.
  revert d; induction all_paths as [|p ps IH]; intros d Hnd Hemp; simpl.
  - done.
  - apply IH; [by apply register_root_keys | by apply register_root_empty_sets].
Qed.

Lemma registered_roots_inv (all_paths : list pystr) :
  NoDup (List.map fst (registered_roots all_paths))
  /\ Forall (fun kv => snd kv = ∅) (registered_roots all_paths).
Proof.
  unfold registered_roots, collect_roots.
  destruct (collect_roots_inv all_paths []) as [H1 H2]; [constructor | constructor |].
  unfold with_default_root.
  destruct (fold_left register_root all_paths []) as [|e d] eqn:E.
  - split; [apply NoDup_singleton | by repeat constructor].
  - done.
Qed.

(** What the inner loop returns: a matching root of greatest separator
    count, or nothing when no root matches. *)
Lemma choose_root_spec (roots : list pystr) (path : pystr) :
  forall (assigned : option pystr) (max_depth : Z),
    match assigned with
    | Some a => root_matches a path = true /\ depth a = max_depth
    | None => max_depth = -1
    end ->
    match choose_root roots path assigned max_depth with
    | Some r =>
        (assigned = Some r \/ In r roots)
        /\ root_matches r path = true
        /\ max_depth <= depth r
        /\ forall r', In r' roots -> root_matches r' path = true -> depth r' <= depth r
    | None =>
        assigned = None /\ forall r', In r' roots -> root_matches r' path = false
    end.
Proof.
  induction roots as [|root rest IH]; intros assigned max_depth Hinv; simpl.
  - destruct assigned as [a|].
    + destruct Hinv as [Hm Hd]. repeat split; [by left | done | lia | intros ? []].
    + split; [done | intros ? []].
  - destruct (root_matches root path) eqn:Hm.
    + destruct (max_depth <? depth root) eqn:Hlt.
      * apply Z.ltb_lt in Hlt.
        specialize (IH (Some root) (depth root) (conj Hm eq_refl)).
        destruct (choose_root rest path (Some root) (depth root)) as [r|].
        -- destruct IH as (Hin & Hrm & Hge & Hmax). repeat split.
           ++ destruct Hin as [[= ->]|Hin]; right; [by left | by right].
           ++ done.
           ++ lia.
           ++ intros r' [<-|Hr'] Hr'm; [lia | by apply Hmax].
        -- by destruct IH as [? _].
      * apply Z.ltb_ge in Hlt.
        specialize (IH assigned max_depth Hinv).
        destruct (choose_root rest path assigned max_depth) as [r|].
        -- destruct IH as (Hin & Hrm & Hge & Hmax). repeat split.
           ++ destruct Hin as [Hin|Hin]; [by left | right; by right].
           ++ done.
           ++ done.
           ++ intros r' [<-|Hr'] Hr'm; [lia | by apply Hmax].
        -- destruct IH as [-> _]. pose proof (count_char_nonneg SLASH root).
           unfold depth in Hlt. lia.
    + specialize (IH assigned max_depth Hinv).
      destruct (choose_root rest path assigned max_depth) as [r|].
      * destruct IH as (Hin & Hrm & Hge & Hmax). repeat split.
        -- destruct Hin as [Hin|Hin]; [by left | right; by right].
        -- done.
        -- done.
        -- intros r' [<-|Hr'] Hr'm; [congruence | by apply Hmax].
      * destruct IH as [-> Hnone]. split; [done|].
        intros r' [<-|Hr']; [done | by apply Hnone].
Qed.

Lemma add_to_root_keys (root path : pystr) (d : roots_dict) :
  List.map fst (add_to_root root path d) = List.map fst d.
Proof.
  induction d as [|[k v] d IH]; simpl; [done|].
  destruct (str_eqb k root); simpl; [done | by rewrite IH].
Qed.

Lemma assign_path_keys (d : roots_dict) (path : pystr) :
  List.map fst (assign_path d path) = List.map fst d.
Proof.
  unfold assign_path. destruct (skipped path); [done|].
  destruct (choose_root _ _ _ _) as [[|c r]|]; try done.
  apply add_to_root_keys.
Qed.

Lemma files_of_add_to_root (root path r : pystr) (d : roots_dict) :
  In root (List.map fst d) ->
  files_of r (add_to_root root path d)
  = if str_eqb root r then {[path]} ∪ files_of r d else files_of r d.
Proof.
  induction d as [|[k v] d IH]; simpl; [done|].
  intros Hin. destruct (str_eqb k root) eqn:Hk.
  - apply str_eqb_eq in Hk as ->. simpl. by destruct (str_eqb root r).
  - simpl. destruct Hin as [->|Hin]; [by rewrite str_eqb_refl in Hk|].
    destruct (str_eqb k r) eqn:Hkr.
    + apply str_eqb_eq in Hkr as ->. by rewrite (proj2 (str_eqb_neq root r)) by (apply str_eqb_neq in Hk; congruence).
    + by apply IH.
Qed.


Lemma files_of_assign_fold (paths : list pystr) :
  forall (d : roots_dict) (r q : pystr),
    q ∈ files_of r (fold_left assign_path paths d)
    <-> q ∈ files_of r d
        \/ (In q paths /\ skipped q = false
            /\ assigned_root (List.map fst d) q = Some r).
Proof.
  induction paths as [|p ps IH]; intros d r q; simpl.
  - split; [by left | intros [H|(H & _)]; [done | destruct H]].
  - rewrite IH, assign_path_keys. unfold assign_path at 1, assigned_root.
    destruct (skipped p) eqn:Hskip.
    + split; intros [H|(H1 & H2 & H3)]; try by left.
      * right. split; [by right | done].
      * right. destruct H1 as [->|H1]; [congruence | done].
    + pose proof (choose_root_spec (List.map fst d) p None (-1) eq_refl) as Hspec.
      destruct (choose_root (List.map fst d) p None (-1)) as [[|c r0]|] eqn:Hch.
      * split; intros [H|(H1 & H2 & H3)]; try by left.
        -- right. split; [by right | done].
        -- right. destruct H1 as [->|H1]; [|done]. rewrite Hch in H3. done.
      * destruct Hspec as ([Habs|Hin] & _); [done|].
        rewrite files_of_add_to_root by done.
        destruct (str_eqb (c :: r0) r) eqn:Hr.
        -- apply str_eqb_eq in Hr as <-. rewrite elem_of_union, elem_of_singleton.
           split.
           ++ intros [[->|H]|(H1 & H2 & H3)].
              ** right. split; [by left|]. split; [done|]. by rewrite Hch.
              ** by left.
              ** right. split; [by right | done].
           ++ intros [H|(H1 & H2 & H3)]; [left; by right|].
              destruct H1 as [->|H1]; [left; by left | right; done].
        -- apply str_eqb_neq in Hr.
           split; intros [H|(H1 & H2 & H3)]; try by left.
           ++ right. split; [by right | done].
           ++ right. destruct H1 as [->|H1]; [|done].
              rewrite Hch in H3. congruence.
      * split; intros [H|(H1 & H2 & H3)]; try by left.
        -- right. split; [by right | done].
        -- right. destruct H1 as [->|H1]; [|done]. rewrite Hch in H3. done.
Qed.

Lemma files_of_empty_sets (r : pystr) (d : roots_dict) :
  Forall (fun kv => snd kv = ∅) d -> files_of r d = ∅.
Proof.
  induction 1 as [|[k v] d Hk _ IH]; simpl; [done|].
  simpl in Hk. subst. by destruct (str_eqb k r).
Qed.

Lemma files_of_not_key (r : pystr) (d : roots_dict) :
  ~ In r (List.map fst d) -> files_of r d = ∅.
Proof.
  induction d as [|[k v] d IH]; simpl; [done|].
  intros Hn. destruct (str_eqb k r) eqn:E.
  - apply str_eqb_eq in E. tauto.
  - apply IH. tauto.
Qed.

Lemma files_of_drop_empty (r : pystr) (d : roots_dict) :
  NoDup (List.map fst d) -> files_of r (drop_empty d) = files_of r d.
Proof.
  unfold drop_empty.
  induction d as [|[k v] d IH]; simpl; [done|].
  intros Hnd. apply NoDup_cons in Hnd as [Hk Hnd].
  destruct (bool_decide (v = ∅)) eqn:Hv; simpl.
  - apply bool_decide_eq_true in Hv as ->.
    destruct (str_eqb k r) eqn:E.
    + apply str_eqb_eq in E as ->. rewrite IH by done.
      apply files_of_not_key. by rewrite <- list_elem_of_In.
    + by apply IH.
  - destruct (str_eqb k r); [done | by apply IH].
Qed.

Lemma fold_assign_keys (paths : list pystr) (d : roots_dict) :
  List.map fst (fold_left assign_path paths d) = List.map fst d.
Proof.
  revert d; induction paths as [|p ps IH]; intros d; simpl; [done|].
  by rewrite IH, assign_path_keys.
Qed.

(** The files a root holds in the result are exactly the qualifying paths
    the second loop filed under it. *)
Lemma detect_files_of (all_paths : list pystr) (r q : pystr) :
  q ∈ files_of r (detect_project_roots all_paths)
  <-> In q all_paths /\ skipped q = false
      /\ assigned_root (List.map fst (registered_roots all_paths)) q = Some r.
Proof.
  unfold detect_project_roots.
  destruct (registered_roots_inv all_paths) as [Hnd Hemp].
  rewrite files_of_drop_empty by (by rewrite fold_assign_keys).
  rewrite files_of_assign_fold, files_of_empty_sets by done.
  split; [intros [H|H]; [set_solver | done] | by right].
Qed.

Lemma registered_root_nonempty_step (d : roots_dict) (path : pystr) :
  Forall (fun kv => fst kv <> []) d ->
  Forall (fun kv => fst kv <> []) (register_root d path).
Proof.
  intros H. unfold register_root.
  destruct (skipped path); [done|].
  destruct (str_in _ _); [|done].
  remember (match dirname path with [] => lit "." | d0 => d0 end) as dir_path.
  destruct (dict_has dir_path d); [done|].
  apply Forall_app. split; [done|]. constructor; [|constructor].
  simpl. subst dir_path. by destruct (dirname path).
Qed.

Lemma registered_roots_nonempty (all_paths : list pystr) (r : pystr) :
  In r (List.map fst (registered_roots all_paths)) -> r <> [].
Proof.
  unfold registered_roots, collect_roots.
  assert (forall ps d, Forall (fun kv : pystr * gset pystr => fst kv <> []) d ->
            Forall (fun kv => fst kv <> []) (fold_left register_root ps d)) as Hfold.
  { induction ps as [|p ps IH]; intros d Hd; simpl; [done|].
    apply IH. by apply registered_root_nonempty_step. }
  specialize (Hfold all_paths [] (Forall_nil_2 _)).
  intros (kv & <- & Hin)%in_map_iff.
  destruct (fold_left register_root all_paths []) as [|e d] eqn:E; simpl in Hin.
  - destruct Hin as [<-|[]]. done.
  - rewrite Forall_forall in Hfold. apply Hfold. by apply list_elem_of_In.
Qed.

Lemma detect_keys_NoDup (all_paths : list pystr) :
  NoDup (List.map fst (detect_project_roots all_paths)).
Proof.
  unfold detect_project_roots, drop_empty.
  destruct (registered_roots_inv all_paths) as [Hnd _].
  rewrite <- (fold_assign_keys all_paths) in Hnd.
  revert Hnd. generalize (fold_left assign_path all_paths (registered_roots all_paths)).
  induction l as [|[k v] l IH]; simpl; [done|].
  intros [Hk Hl]%NoDup_cons. destruct (negb _); simpl; [|by apply IH].
  apply NoDup_cons. split; [|by apply IH].
  intros Hin. apply Hk. apply list_elem_of_In in Hin. apply list_elem_of_In.
  apply in_map_iff in Hin as (kv & <- & Hkv). apply in_map_iff. exists kv.
  split; [done|]. apply filter_In in Hkv. tauto.
Qed.

(** C1, as stated, fails: once a marker file registers a root, a file
    outside every registered root is filed nowhere. *)
Lemma detect_leaves_path_unassigned :
  ~ every_path_assigned unassigned_paths.
Proof.
  intros H.
  destruct (H (lit "b/notes.txt")) as [root Hroot].
  - right. left. reflexivity.
  - vm_compute. reflexivity.
  - apply detect_files_of in Hroot as (_ & _ & Hassigned).
    vm_compute in Hassigned. discriminate.
Qed.

(** A root "." and a top-level directory root count the same number of
    separators: which of the two receives a file then depends on the order
    in which the archive lists the marker files. *)
Example detect_dot_shadows_directory :
  let listed_first := List.map lit ["package.json"; "api/package.json"; "api/app.js"]%string in
  let listed_second := List.map lit ["api/package.json"; "package.json"; "api/app.js"]%string in
  List.map fst (detect_project_roots listed_first) = [lit "."]
  /\ bool_decide (lit "api/app.js" ∈ files_of (lit ".") (detect_project_roots listed_first)) = true
  /\ List.map fst (detect_project_roots listed_second) = [lit "api"; lit "."]
  /\ bool_decide (lit "api/app.js" ∈ files_of (lit "api") (detect_project_roots listed_second)) = true.
Proof. vm_compute. repeat split; reflexivity. Qed.

(** ** The stable descending sort *)

Section SortDesc.
Context {A : Type} (key : A -> Z).

Lemma insert_desc_perm (x : A) (l : list A) :
  Permutation (insert_desc key x l) (x :: l).
Proof.
  induction l as [|y l IH]; simpl; [done|].
  destruct (key y <=? key x); [done|].
  rewrite IH. apply perm_swap.
Qed.

Lemma sort_desc_perm (l : list A) : Permutation (sort_desc key l) l.
Proof.
  induction l as [|x l IH]; simpl; [done|].
  by rewrite insert_desc_perm, IH.
Qed.

Lemma insert_desc_descending (x : A) (l : list A) :
  descending key l -> descending key (insert_desc key x l).
Proof.
  unfold descending. induction 1 as [|y l Hl IH Hy]; simpl.
  - repeat constructor.
  - destruct (key y <=? key x) eqn:E.
    + apply Z.leb_le in E. constructor; [by constructor|].
      constructor; [done|]. eapply Forall_impl; [exact Hy|].
      simpl. intros z Hz. lia.
    + apply Z.leb_gt in E. constructor; [done|].
      rewrite (insert_desc_perm x l). constructor; [lia | done].
Qed.

Lemma sort_desc_descending (l : list A) : descending key (sort_desc key l).
Proof.
  induction l as [|x l IH]; simpl; [constructor|].
  by apply insert_desc_descending.
Qed.

(** Stability: the elements of one key keep their relative order. *)
Lemma insert_desc_stable (k : Z) (x : A) (l : list A) :
  List.filter (fun y => key y =? k) (insert_desc key x l)
  = List.filter (fun y => key y =? k) (x :: l).
Proof.
  induction l as [|y l IH]; simpl; [done|].
  destruct (key y <=? key x) eqn:E; [done|].
  apply Z.leb_gt in E. simpl. rewrite IH. simpl.
  destruct (key x =? k) eqn:Ex, (key y =? k) eqn:Ey; try done.
  apply Z.eqb_eq in Ex, Ey. lia.
Qed.

Lemma sort_desc_stable (k : Z) (l : list A) :
  List.filter (fun y => key y =? k) (sort_desc key l)
  = List.filter (fun y => key y =? k) l.
Proof.
  induction l as [|x l IH]; simpl; [done|].
  rewrite insert_desc_stable. simpl. by rewrite IH.
Qed.

(** Two descending arrangements of the same elements coincide when no
    two elements share a key. *)
Lemma descending_unique (l1 l2 : list A) :
  NoDup (List.map key l1) -> descending key l1 -> descending key l2 ->
  Permutation l1 l2 -> l1 = l2.
Proof.
  unfold descending. revert l2.
  induction l1 as [|x l1 IH]; intros l2 Hnd H1 H2 Hp.
  - apply Permutation_nil in Hp. by subst.
  - destruct l2 as [|y l2]; [by apply Permutation_sym, Permutation_nil in Hp|].
    simpl in Hnd. apply NoDup_cons in Hnd as [Hx Hnd].
    apply StronglySorted_inv in H1 as [H1 Hx1].
    apply StronglySorted_inv in H2 as [H2 Hy2].
    rewrite Forall_forall in Hx1, Hy2.
    assert (x = y) as ->.
    { assert (In x (y :: l2)) as Hxin
        by (eapply Permutation_in; [exact Hp | by left]).
      assert (In y (x :: l1)) as Hyin
        by (eapply Permutation_in; [apply Permutation_sym; exact Hp | by left]).
      destruct Hxin as [->|Hxin]; [done|].
      destruct Hyin as [->|Hyin]; [done|].
      apply list_elem_of_In in Hxin, Hyin.
      specialize (Hx1 _ Hyin). specialize (Hy2 _ Hxin).
      exfalso. apply Hx. apply list_elem_of_In, in_map_iff. exists y.
      split; [lia | by apply list_elem_of_In]. }
    f_equal. apply IH; try done. by apply Permutation_cons_inv in Hp.
Qed.

Lemma sort_desc_perm_unique (l l' : list A) :
  NoDup (List.map key l) -> Permutation l' l ->
  sort_desc key l' = sort_desc key l.
Proof.
  intros Hnd Hp. apply descending_unique.
  - assert (Permutation (List.map key (sort_desc key l')) (List.map key l)) as ->; [|done].
    apply Permutation_map. by rewrite sort_desc_perm.
  - apply sort_desc_descending.
  - apply sort_desc_descending.
  - by rewrite !sort_desc_perm.
Qed.
End SortDesc.

Lemma enumerates_elements : enumerates elements.
Proof.
  intros s. split; [apply NoDup_elements|].
  intros x. rewrite <- list_elem_of_In. apply elem_of_elements.
Qed.

Lemma score_tiers (p : pystr) :
  In (score p) [100; 90; 80; 70; 60; 10].
Proof.
  unfold score.
  repeat match goal with
         | |- context [if ?b then _ else _] => destruct b
         end; simpl; tauto.
Qed.

(** C5, as stated, fails: the files of a project are a set, and equal-score
    candidates come out in the order the set is enumerated, which need not
    be the order of the archive. *)
Lemma ties_follow_set_enumeration :
  ~ (forall iter, enumerates iter -> ties_in_archive_order iter two_yaml_files).
Proof.
  intros H.
  destruct (H elements enumerates_elements (lit ".") [] (lit "b.yml") [] (lit "a.yml") [])
    as (a1 & a2 & a3 & Heq).
  - vm_compute. reflexivity.
  - vm_compute. reflexivity.
  - vm_compute in Heq.
    destruct a1 as [|x [|y [|z a1]]]; try discriminate;
      destruct a2 as [|y' [|z' a2]]; discriminate.
Qed.

(** ** Redaction *)

Lemma list_ind2 {A} (P : list A -> Prop) :
  P [] -> (forall x, P [x]) ->
  (forall x y l, P l -> P (y :: l) -> P (x :: y :: l)) ->
  forall l, P l.
Proof.
  intros H0 H1 H2 l.
  assert (P l /\ forall x, P (x :: l)) as [H _]; [|exact H].
  induction l as [|y l [IH1 IH2]]; [by split|].
  split; [apply IH2|]. intros x. by apply H2.
Qed.





Lemma partition_head_spec (c : Z) (s : pystr) :
  has_char c s = true ->
  exists value, s = partition_head c s ++ c :: value
                /\ has_char c (partition_head c s) = false.
Proof.
  unfold has_char. induction s as [|x s IH]; simpl; [done|].
  rewrite (Z.eqb_sym c x). destruct (x =? c) eqn:E.
  - intros _. apply Z.eqb_eq in E as ->. by exists s.
  - simpl. intros H. destruct (IH H) as (value & Hs & Hk).
    exists value. split; [by rewrite <- Hs|].
    simpl. by rewrite (Z.eqb_sym c x), E.
Qed.




Lemma redact_loop_map (lines acc : list pystr) :
  fold_left (fun redacted line => redacted ++ [redact_line line]) lines acc
  = acc ++ List.map redact_line lines.
Proof.
  revert acc; induction lines as [|l ls IH]; intros acc; simpl.
  - by rewrite app_nil_r.
  - by rewrite IH, <- app_assoc.
Qed.

(** What becomes of one line. *)
Lemma redact_line_cases (line : pystr) :
  (sensitive line = false -> redact_line line = line)
  /\ (sensitive line = true -> has_char EQUALS line = true ->
      exists key value,
        line = key ++ EQUALS :: value /\ has_char EQUALS key = false
        /\ redact_line line = key ++ [EQUALS] ++ REDACTED)
  /\ (sensitive line = true -> has_char EQUALS line = false ->
      has_char COLON line = true ->
      exists key value,
        line = key ++ COLON :: value /\ has_char COLON key = false
        /\ redact_line line = key ++ [COLON; 32] ++ REDACTED)
  /\ (sensitive line = true -> has_char EQUALS line = false ->
      has_char COLON line = false ->
      redact_line line = lit "***REDACTED LINE***").
Proof.
  unfold redact_line, sensitive. repeat split.
  - by intros ->.
  - intros -> Heq. rewrite Heq.
    destruct (partition_head_spec EQUALS line Heq) as (value & Hline & Hkey).
    by exists (partition_head EQUALS line), value.
  - intros -> Heq Hcolon. rewrite Heq, Hcolon.
    destruct (partition_head_spec COLON line Hcolon) as (value & Hline & Hkey).
    by exists (partition_head COLON line), value.
  - by intros -> -> ->.
Qed.

(** A value that itself holds an "=" after a ":" separator is cut at the
    "=": what stands between the two separators counts as key text. *)
Example redact_colon_then_equals :
  redact_secrets (lit "password: abc=def") = lit "password: abc=***REDACTED***".
Proof. vm_compute. reflexivity. Qed.

(** ** Merging *)

Ltac bind_ok H :=
  repeat match type of H with
         | bind ?m _ = Ok _ =>
             let E := fresh "E" in
             destruct m eqn:E; simpl in H; [|discriminate H]
         end.

Lemma dict_get_set_eq (k : pystr) (v : json) (d : pydict) :
  dict_get k (dict_set k v d) = Some v.
Proof.
  induction d as [|[k' v'] d IH]; simpl.
  - by rewrite str_eqb_refl.
  - destruct (str_eqb k' k) eqn:E; simpl; by rewrite E.
Qed.

Lemma dict_get_set_ne (k k' : pystr) (v : json) (d : pydict) :
  k <> k' -> dict_get k' (dict_set k v d) = dict_get k' d.
Proof.
  intros Hne. induction d as [|[k0 v0] d IH]; simpl.
  - by rewrite (proj2 (str_eqb_neq k k')).
  - destruct (str_eqb k0 k) eqn:E; simpl.
    + apply str_eqb_eq in E as ->. by rewrite (proj2 (str_eqb_neq k k')).
    + by destruct (str_eqb k0 k').
Qed.

Lemma dict_has_get (k : pystr) (d : pydict) :
  dict_has k d = true <-> exists v, dict_get k d = Some v.
Proof.
  induction d as [|[k' v'] d IH]; simpl.
  - split; [done | by intros [? ?]].
  - rewrite (str_eqb_sym_bool k k'). destruct (str_eqb k' k); simpl; [|done].
    split; [by exists v' | done].
Qed.

Lemma get_or_ok (k : pystr) (default meta v : json) :
  get_or k default meta = Ok v -> is_dict meta = true /\ v = doc_field k default meta.
Proof. destruct meta; simpl; try discriminate. by intros [= <-]. Qed.

Lemma py_len_iter (v : json) (n : Z) (items : list json) :
  py_len v = Ok n -> py_iter v = Ok items -> n = len items.
Proof.
  destruct v; simpl; try discriminate; intros [= <-] [= <-]; unfold len;
    by rewrite ?length_map.
Qed.

Lemma tag_service_ok (container_repr : json -> pystr) (project_name svc tagged : json) :
  tag_service container_repr project_name svc = Ok tagged ->
  is_dict svc = true /\ tagged = prefixed_service container_repr project_name svc.
Proof.
  unfold tag_service. destruct svc; simpl; try discriminate.
  intros [= <-]. split; [done|]. by destruct (dict_get _ d).
Qed.

Lemma append_each_map {A B} (f : A -> result B) (g : A -> B) (xs : list A) :
  (forall x y, f x = Ok y -> y = g x) ->
  forall acc r, append_each f xs acc = Ok r -> r = acc ++ List.map g xs.
Proof.
  intros Hfg. induction xs as [|x xs IH]; intros acc r H; simpl in *.
  - injection H as <-. by rewrite app_nil_r.
  - destruct (f x) as [y|] eqn:E; simpl in H; [|discriminate].
    apply IH in H as ->. rewrite (Hfg x y E). by rewrite <- app_assoc.
Qed.

Lemma append_each_total {A B} (f : A -> result B) (g : A -> B) (xs : list A) :
  Forall (fun x => f x = Ok (g x)) xs ->
  forall acc, append_each f xs acc = Ok (acc ++ List.map g xs).
Proof.
  induction 1 as [|x xs Hx _ IH]; intros acc; simpl.
  - by rewrite app_nil_r.
  - rewrite Hx. simpl. by rewrite IH, <- app_assoc.
Qed.

(** One round of the loop extends [projects] by the entry of the document
    and [services] by its prefixed services. *)
Lemma merge_one_projects_services (container_repr : json -> pystr) (m m' : merged)
    (idx : Z) (meta : json) :
  merge_one container_repr m idx meta = Ok m' ->
  m_projects m' = m_projects m ++ [project_entry idx meta]
  /\ m_services m'
     = m_services m
       ++ List.map (prefixed_service container_repr (doc_project_name idx meta))
            (doc_services meta)
  /\ Forall (fun svc => is_dict svc = true) (doc_services meta).
Proof.
  unfold merge_one. intros H.
  destruct (project_name_of idx meta) as [pn|] eqn:Epn; cbn [bind] in H; [|discriminate].
  destruct (get_or (lit "projectRoot") (JStr (lit ".")) meta) as [root|] eqn:Eroot;
    cbn [bind] in H; [|discriminate].
  destruct (get_or (lit "services") (JList []) meta) as [svcs|] eqn:Esvcs;
    cbn [bind] in H; [|discriminate].
  destruct (py_len svcs) as [count|] eqn:Ecount; cbn [bind] in H; [|discriminate].
  destruct (py_iter svcs) as [items|] eqn:Eitems; cbn [bind] in H; [|discriminate].
  destruct (append_each (tag_service container_repr pn) items (m_services m))
    as [services|] eqn:Eservices; cbn [bind] in H; [|discriminate].
  bind_ok H. injection H as <-. simpl.
  apply get_or_ok in Epn as [_ ->], Eroot as [_ ->], Esvcs as [_ ->].
  assert (doc_services meta = items) as Hitems.
  { unfold doc_services. by rewrite Eitems. }
  pose proof (py_len_iter _ _ _ Ecount Eitems) as ->.
  repeat split.
  - unfold project_entry, doc_project_name. by rewrite Hitems.
  - rewrite Hitems.
    eapply append_each_map; [|exact Eservices].
    intros x y Hxy. by apply tag_service_ok in Hxy as [_ ->].
  - rewrite Hitems. clear -Eservices.
    revert Eservices. generalize (m_services m).
    induction items as [|x items IH]; intros acc H; [constructor|].
    simpl in H.
    destruct (tag_service container_repr _ x) as [y|] eqn:E; simpl in H; [|discriminate].
    constructor; [by apply tag_service_ok in E as [? _] | by eapply IH].
Qed.

Lemma merge_loop_projects_services (container_repr : json -> pystr)
    (docs : list json) :
  forall (m m' : merged) (idx : Z),
    merge_loop container_repr m idx docs = Ok m' ->
    m_projects m' = m_projects m ++ map_indexed project_entry idx docs
    /\ m_services m'
       = m_services m
         ++ concat (map_indexed
                      (fun i meta =>
                         List.map (prefixed_service container_repr (doc_project_name i meta))
                           (doc_services meta))
                      idx docs).
Proof.
  induction docs as [|meta rest IH]; intros m m' idx H; simpl in *.
  - injection H as <-. by rewrite !app_nil_r.
  - destruct (merge_one container_repr m idx meta) as [m1|] eqn:E1; simpl in H;
      [|discriminate].
    apply merge_one_projects_services in E1 as (Hp & Hs & _).
    apply IH in H as [-> ->]. rewrite Hp, Hs. by rewrite <- !app_assoc.
Qed.

Lemma field_value (k : pystr) (ok : json -> bool) (default : json) (d : pydict) :
  field_ok k ok d = true -> ok default = true ->
  ok (match dict_get k d with Some v => v | None => default end) = true.
Proof. unfold field_ok. by destruct (dict_get k d). Qed.

Lemma dict_set_all (P : json -> bool) (k : pystr) (v : json) (d : pydict) :
  P v = true -> forallb (fun kv => P (snd kv)) d = true ->
  forallb (fun kv => P (snd kv)) (dict_set k v d) = true.
Proof.
  intros Hv. induction d as [|[k' v'] d IH]; simpl.
  - by rewrite Hv.
  - intros [Hv' Hd]%andb_prop. destruct (str_eqb k' k); simpl.
    + by rewrite Hv, Hd.
    + by rewrite Hv', IH.
Qed.

Lemma dict_get_all (P : json -> bool) (k : pystr) (v : json) (d : pydict) :
  forallb (fun kv => P (snd kv)) d = true -> dict_get k d = Some v -> P v = true.
Proof.
  induction d as [|[k' v'] d IH]; simpl; [done|].
  intros [Hv' Hd]%andb_prop. destruct (str_eqb k' k); [by intros [= <-] | by apply IH].
Qed.

Lemma merge_aws_objects (items aws : pydict) :
  forallb (fun kv => is_dict (snd kv)) aws = true ->
  forallb (fun kv => aws_object (snd kv)) items = true ->
  exists aws', merge_aws aws items = Ok aws'
               /\ forallb (fun kv => is_dict (snd kv)) aws' = true.
Proof.
  revert aws. induction items as [|[key value] items IH]; intros aws Haws Hitems; simpl.
  - by exists aws.
  - simpl in Hitems. apply andb_prop in Hitems as [Hv Hitems].
    destruct (truthy value) eqn:Ht; [|by apply IH].
    unfold aws_object in Hv. rewrite Ht in Hv. simpl in Hv. rewrite orb_false_r in Hv.
    destruct (dict_has key aws) eqn:Hhas; simpl.
    + destruct value as [| | | | | |vd]; try discriminate.
      apply dict_has_get in Hhas as [existing Hex]. rewrite Hex.
      pose proof (dict_get_all is_dict _ _ _ Haws Hex) as Hd.
      destruct existing as [| | | | | |ed]; try discriminate.
      apply IH; [|done]. by apply dict_set_all.
    + apply IH; [|done]. by apply dict_set_all.
Qed.

Lemma merge_aws_leaves (items aws : pydict) :
  forallb (fun kv => aws_leaf (snd kv)) items = true ->
  exists aws', merge_aws aws items = Ok aws'.
Proof.
  revert aws. induction items as [|[key value] items IH]; intros aws Hitems; simpl.
  - by exists aws.
  - simpl in Hitems. apply andb_prop in Hitems as [Hv Hitems].
    destruct (truthy value) eqn:Ht; [|by apply IH].
    unfold aws_leaf in Hv. rewrite Ht, andb_true_r in Hv.
    destruct (dict_has key aws); simpl; [|by apply IH].
    destruct value; try discriminate; by apply IH.
Qed.

Lemma merge_deployment_objects (current deploy : json) :
  is_dict current = true -> is_dict deploy = true ->
  exists r, merge_deployment current deploy = Ok r /\ is_dict r = true.
Proof.
  destruct current as [| | | | | |c]; try discriminate.
  destruct deploy as [| | | | | |d]; try discriminate. intros _ _.
  unfold merge_deployment. destruct (truthy (JDict c)); simpl; [|by eexists].
  destruct (dict_has TERRAFORM_HINTS d) eqn:Hd; [|by eexists].
  destruct (dict_has TERRAFORM_HINTS c) eqn:Hc; simpl; [by eexists|].
  apply dict_has_get in Hd as [hints ->]. simpl. by eexists.
Qed.

Lemma tag_all_services (container_repr : json -> pystr) (project_name : json)
    (l acc : list json) :
  forallb is_dict l = true ->
  append_each (tag_service container_repr project_name) l acc
  = Ok (acc ++ List.map (prefixed_service container_repr project_name) l).
Proof.
  intros Hl. apply append_each_total. apply Forall_forall. intros svc Hsvc.
  rewrite forallb_forall in Hl. specialize (Hl svc (proj1 (list_elem_of_In _ _) Hsvc)).
  destruct svc; try discriminate. unfold tag_service. simpl.
  by destruct (dict_get _ d).
Qed.

Lemma tag_all_findings (project_name : json) (l acc : list json) :
  forallb is_dict l = true ->
  exists r, append_each (tag_finding project_name) l acc = Ok r.
Proof.
  revert acc. induction l as [|x l IH]; intros acc Hl; simpl; [by eexists|].
  simpl in Hl. apply andb_prop in Hl as [Hx Hl].
  destruct x; try discriminate. simpl. by apply IH.
Qed.

(** A document of the expected shape is merged without an exception. *)
Lemma merge_one_total (container_repr : json -> pystr) (aws_ok : json -> bool)
    (P : pydict -> Prop) :
  (forall aws items, P aws -> forallb (fun kv => aws_ok (snd kv)) items = true ->
     exists aws', merge_aws aws items = Ok aws' /\ P aws') ->
  forall (m : merged) (idx : Z) (meta : json),
    doc_shape_ok aws_ok meta = true ->
    is_dict (m_deployment m) = true -> P (m_aws m) ->
    exists m', merge_one container_repr m idx meta = Ok m'
               /\ is_dict (m_deployment m') = true /\ P (m_aws m').
Proof.
  intros Hstep m idx meta Hshape Hdep Haws.
  destruct meta as [| | | | | |d]; try discriminate.
  simpl in Hshape.
  apply andb_prop in Hshape as [Hshape Hfin].
  apply andb_prop in Hshape as [Hshape Hdeploy].
  apply andb_prop in Hshape as [Hsvc Hinfra].
  unfold merge_one, project_name_of, get_or. cbn [bind].
  pose proof (field_value _ _ (JList []) _ Hsvc eq_refl) as Hsvcs.
  destruct (match dict_get (lit "services") d with Some x => x | None => JList [] end)
    as [| | | | |svcs|]; try discriminate.
  cbn [py_len py_iter bind].
  rewrite (tag_all_services _ _ _ _ Hsvcs). cbn [bind].
  pose proof (field_value _ _ (JDict []) _ Hinfra eq_refl) as Hinf.
  destruct (match dict_get (lit "infrastructure") d with Some x => x | None => JDict [] end)
    as [| | | | | |infra]; try discriminate.
  cbn [bind]. apply andb_prop in Hinf as [Hawsf Hext].
  pose proof (field_value _ _ (JDict []) _ Hawsf eq_refl) as Hitems.
  destruct (match dict_get (lit "aws") infra with Some x => x | None => JDict [] end)
    as [| | | | | |items]; try discriminate.
  destruct (Hstep _ _ Haws Hitems) as (aws' & -> & Haws'). cbn [bind].
  pose proof (field_value _ _ (JList []) _ Hext eq_refl) as Hexts.
  destruct (match dict_get (lit "external") infra with Some x => x | None => JList [] end)
    as [| | | | |ext|]; try discriminate.
  cbn [py_iter bind].
  pose proof (field_value _ _ (JDict []) _ Hdeploy eq_refl) as Hdep'.
  destruct (merge_deployment_objects _ _ Hdep Hdep') as (deployment & -> & Hdd).
  cbn [bind].
  pose proof (field_value _ _ (JList []) _ Hfin eq_refl) as Hfs.
  destruct (match dict_get (lit "findings") d with Some x => x | None => JList [] end)
    as [| | | | |fs|]; try discriminate.
  cbn [py_iter bind].
  destruct (tag_all_findings
              (match dict_get (lit "projectName") d with
               | Some x => x
               | None => JStr (lit "project-" ++ dec (idx + 1))
               end) fs (m_findings m) Hfs) as [findings ->].
  cbn [bind]. eexists. split; [reflexivity|]. simpl. by split.
Qed.

Lemma merge_loop_total (container_repr : json -> pystr) (aws_ok : json -> bool)
    (P : pydict -> Prop) :
  (forall aws items, P aws -> forallb (fun kv => aws_ok (snd kv)) items = true ->
     exists aws', merge_aws aws items = Ok aws' /\ P aws') ->
  forall (docs : list json) (m : merged) (idx : Z),
    forallb (doc_shape_ok aws_ok) docs = true ->
    is_dict (m_deployment m) = true -> P (m_aws m) ->
    exists m', merge_loop container_repr m idx docs = Ok m'.
Proof.
  intros Hstep. induction docs as [|meta rest IH]; intros m idx Hall Hdep Haws;
    simpl.
  - by eexists.
  - simpl in Hall. apply andb_prop in Hall as [Hmeta Hrest].
    destruct (merge_one_total container_repr aws_ok P Hstep m idx meta Hmeta Hdep Haws)
      as (m1 & -> & Hdep1 & Haws1).
    simpl. by apply IH.
Qed.

Lemma merge_metadata_total (container_repr : json -> pystr) (docs : list json) :
  well_shaped docs = true ->
  exists merged, merge_metadata container_repr docs = Ok merged.
Proof.
  unfold well_shaped, merge_metadata. intros [Hobj|Hleaf]%orb_prop.
  - destruct (merge_loop_total container_repr aws_object
                (fun aws => forallb (fun kv => is_dict (snd kv)) aws = true)
                (fun aws items => merge_aws_objects items aws)
                docs merged_init 0 Hobj eq_refl eq_refl) as [m ->].
    by eexists.
  - destruct (merge_loop_total container_repr aws_leaf (fun _ => True)
                (fun aws items _ Hitems =>
                   match merge_aws_leaves items aws Hitems with
                   | ex_intro _ aws' H => ex_intro _ aws' (conj H I)
                   end)
                docs merged_init 0 Hleaf eq_refl I) as [m ->].
    by eexists.
Qed.

Lemma prefixed_service_fields (container_repr : json -> pystr) (project_name : json)
    (d : pydict) :
  exists d',
    prefixed_service container_repr project_name (JDict d) = JDict d'
    /\ dict_get (lit "project") d' = Some project_name
    /\ (forall name, dict_get (lit "name") d = Some name ->
          dict_get (lit "name") d'
          = Some (JStr (py_str container_repr project_name ++ lit "/"
                        ++ py_str container_repr name)))
    /\ (forall k, k <> lit "name" -> k <> lit "project" ->
          dict_get k d' = dict_get k d).
Proof.
  eexists. split; [reflexivity|]. repeat split.
  - apply dict_get_set_eq.
  - intros name Hname. rewrite Hname.
    rewrite dict_get_set_ne by (vm_compute; discriminate).
    apply dict_get_set_eq.
  - intros k Hname Hproject.
    rewrite dict_get_set_ne by congruence.
    destruct (dict_get (lit "name") d); [|done].
    by rewrite dict_get_set_ne by congruence.
Qed.

Lemma map_indexed_length {A B} (f : Z -> A -> B) (idx : Z) (l : list A) :
  length (map_indexed f idx l) = length l.
Proof. revert idx; induction l as [|x l IH]; intros idx; simpl; [done | by rewrite IH]. Qed.

(** Whenever [merge_metadata] returns, [projects] and [services] are as
    the specification describes them. *)
Lemma merge_metadata_ok_projects_services (container_repr : json -> pystr)
    (docs : list json) (merged : json) :
  merge_metadata container_repr docs = Ok merged ->
  py_getitem (lit "projects") merged = Ok (JList (map_indexed project_entry 0 docs))
  /\ py_getitem (lit "services") merged
     = Ok (JList (concat (map_indexed
                            (fun i meta =>
                               List.map (prefixed_service container_repr
                                           (doc_project_name i meta))
                                 (doc_services meta))
                            0 docs))).
Proof.
  unfold merge_metadata. intros H.
  destruct (merge_loop container_repr merged_init 0 docs) as [m|] eqn:E; simpl in H;
    [|discriminate].
  injection H as <-.
  apply merge_loop_projects_services in E as [Hp Hs]. simpl in Hp, Hs.
  unfold merged_json. split.
  - rewrite <- Hp. reflexivity.
  - rewrite <- Hs. reflexivity.
Qed.

(** C6: when exactly one project was analysed, the merge step of the
    handler hands that project's document on unchanged. *)
Theorem single_document_passes_through (container_repr : json -> pystr) (meta : json) :
  final_metadata container_repr [meta] = Ok meta
  /\ forall first second rest,
       final_metadata container_repr (first :: second :: rest)
       = merge_metadata container_repr (first :: second :: rest).
Proof.
  split.
  - unfold final_metadata. reflexivity.
  - intros first second rest. unfold final_metadata. reflexivity.
Qed.

(** [merge_metadata] itself would wrap a lone document; the handler does
    not call it in that case. *)
Example merge_metadata_wraps_single_document (container_repr : json -> pystr) :
  merge_metadata container_repr [JDict []]
  = Ok (JDict [(lit "services", JList []);
               (lit "infrastructure", JDict [(lit "aws", JDict []); (lit "external", JList [])]);
               (lit "deployment", JDict []);
               (lit "findings", JList []);
               (lit "projects",
                JList [JDict [(lit "name", JStr (lit "project-1"));
                              (lit "root", JStr (lit "."));
                              (lit "serviceCount", JInt 0)]])]).
Proof. vm_compute. reflexivity. Qed.

(** ** The payload guard *)

(** C8: [safe_invoke_bedrock] measures the UTF-8 length of the serialised
    request (messages and inference configuration). When the length
    exceeds PAYLOAD_SOFT_CAP_BYTES it raises the "Prompt too large" error
    and makes no inference call; otherwise it makes exactly one call, with
    those messages and that configuration. The error without a call occurs
    exactly when the length exceeds the cap. *)
Theorem safe_invoke_bedrock_guard (converse : converse_call -> result json)
    (prompt : pystr) (max_tokens : Z) :
  let measured :=
    encode_utf8 (json_dumps (JDict [(lit "messages", payload_messages prompt);
                                    (lit "inferenceConfig", inference_config max_tokens)])) in
  let calls := fst (safe_invoke_bedrock converse prompt max_tokens) in
  let outcome := snd (safe_invoke_bedrock converse prompt max_tokens) in
  match measured with
  | Raise e => calls = [] /\ outcome = Raise e
  | Ok encoded =>
      (PAYLOAD_SOFT_CAP_BYTES < len encoded ->
       calls = [] /\ outcome = Raise (prompt_too_large (len encoded)))
      /\ (len encoded <= PAYLOAD_SOFT_CAP_BYTES ->
          calls = [{| call_modelId := MODEL_ID;
                      call_messages := payload_messages prompt;
                      call_inferenceConfig := inference_config max_tokens |}])
  end
  /\ ((exists n, calls = [] /\ outcome = Raise (prompt_too_large n))
      <-> (exists encoded, measured = Ok encoded /\ PAYLOAD_SOFT_CAP_BYTES < len encoded)).
Proof.
  intros measured calls outcome. subst measured calls outcome.
  unfold safe_invoke_bedrock.
  change (json_dumps (JDict [(lit "messages", payload_messages prompt);
                             (lit "inferenceConfig", inference_config max_tokens)]))
    with (payload_check prompt max_tokens).
  destruct (encode_utf8 (payload_check prompt max_tokens)) as [encoded|e] eqn:E.
  - destruct (PAYLOAD_SOFT_CAP_BYTES <? len encoded) eqn:Hcap; simpl.
    + apply Z.ltb_lt in Hcap. repeat split; try done; try lia.
      * intros _. exists encoded. by split.
      * intros _. by exists (len encoded).
    + apply Z.ltb_ge in Hcap. repeat split; try done; try lia.
      * intros (n & Hcalls & _). discriminate.
      * intros (encoded' & [= <-] & Hlt). lia.
  - simpl. repeat split; try done.
    + intros (n & _ & Hraise). injection Hraise as ->.
      assert (exn_class_name (prompt_too_large n) = lit "ValueError") as Hcls by reflexivity.
      clear -E Hcls. exfalso. revert E Hcls.
      generalize (payload_check prompt max_tokens). intros s.
      induction s as [|c s IH]; simpl; [discriminate|].
      destruct (utf8_encode_cp c); [|intros [= <-]; vm_compute; discriminate].
      destruct (encode_utf8 s); simpl; [discriminate|]. exact IH.
    + intros (encoded & Habs & _). discriminate.
Qed.

Example small_prompt_is_sent (converse : converse_call -> result json) :
  fst (safe_invoke_bedrock converse (lit "Analyze project") 1500)
  = [{| call_modelId := MODEL_ID;
        call_messages := payload_messages (lit "Analyze project");
        call_inferenceConfig := inference_config 1500 |}].
Proof. vm_compute. reflexivity. Qed.

(** ** UTF-8: cutting an encoded text at a byte position *)

Lemma decode_utf8_unfold (e : decode_errors) (b0 : Z) (r0 : pybytes) :
  decode_utf8 e (b0 :: r0)
  = if (0 <=? b0) && (b0 <? 128) then b0 :: decode_utf8 e r0
    else if (194 <=? b0) && (b0 <=? 223) then
      match r0 with
      | [] => on_error e
      | b1 :: r1 =>
          if is_cont b1
          then ((b0 - 192) * 64 + (b1 - 128)) :: decode_utf8 e r1
          else on_error e ++ decode_utf8 e r0
      end
    else if (224 <=? b0) && (b0 <=? 239) then
      match r0 with
      | [] => on_error e
      | b1 :: r1 =>
          if second_ok b0 b1 then
            match r1 with
            | [] => on_error e
            | b2 :: r2 =>
                if is_cont b2
                then ((b0 - 224) * 4096 + (b1 - 128) * 64 + (b2 - 128))
                     :: decode_utf8 e r2
                else on_error e ++ decode_utf8 e r1
            end
          else on_error e ++ decode_utf8 e r0
      end
    else if (240 <=? b0) && (b0 <=? 244) then
      match r0 with
      | [] => on_error e
      | b1 :: r1 =>
          if second_ok b0 b1 then
            match r1 with
            | [] => on_error e
            | b2 :: r2 =>
                if is_cont b2 then
                  match r2 with
                  | [] => on_error e
                  | b3 :: r3 =>
                      if is_cont b3
                      then ((b0 - 240) * 262144 + (b1 - 128) * 4096
                            + (b2 - 128) * 64 + (b3 - 128))
                           :: decode_utf8 e r3
                      else on_error e ++ decode_utf8 e r2
                  end
                else on_error e ++ decode_utf8 e r1
            end
          else on_error e ++ decode_utf8 e r0
      end
    else on_error e ++ decode_utf8 e r0.
Proof. reflexivity. Qed.

Ltac arith := Z.div_mod_to_equations; lia.

Ltac decide_tests :=
  repeat match goal with
         | |- context [?a <=? ?b] =>
             first [rewrite (proj2 (Z.leb_le a b)) by arith
                   | rewrite (proj2 (Z.leb_gt a b)) by arith]
         | |- context [?a <? ?b] =>
             first [rewrite (proj2 (Z.ltb_lt a b)) by arith
                   | rewrite (proj2 (Z.ltb_ge a b)) by arith]
         | |- context [?a =? ?b] =>
             first [rewrite (proj2 (Z.eqb_eq a b)) by arith
                   | rewrite (proj2 (Z.eqb_neq a b)) by arith]
         end.

Ltac split_lead_byte :=
  repeat match goal with
         | |- context [?a =? ?b] =>
             destruct (Z.eqb_spec a b); try (exfalso; arith)
         end.

(** The four shapes of an encoded code point. *)
Lemma utf8_encode_cp_cases (c : Z) (bs : pybytes) :
  utf8_encode_cp c = Some bs ->
  (0 <= c < 128 /\ bs = [c])
  \/ (128 <= c < 2048 /\ bs = [192 + c / 64; 128 + c mod 64])
  \/ (2048 <= c < 65536 /\ ~ (55296 <= c <= 57343)
      /\ bs = [224 + c / 4096; 128 + (c / 64) mod 64; 128 + c mod 64])
  \/ (65536 <= c < 1114112
      /\ bs = [240 + c / 262144; 128 + (c / 4096) mod 64; 128 + (c / 64) mod 64;
               128 + c mod 64]).
Proof.
  unfold utf8_encode_cp, is_surrogate.
  destruct (Z.ltb_spec c 0); [discriminate|].
  destruct (Z.ltb_spec c 128); [intros [= <-]; left; split; [lia | done]|].
  destruct (Z.ltb_spec c 2048); [intros [= <-]; right; left; split; [lia | done]|].
  destruct (Z.ltb_spec c 65536).
  - destruct (Z.leb_spec 55296 c), (Z.leb_spec c 57343); simpl; try discriminate;
      intros [= <-]; right; right; left; (split; [lia|]); (split; [lia | done]).
  - destruct (Z.ltb_spec c 1114112); [|discriminate].
    intros [= <-]. right; right; right. split; [lia | done].
Qed.

Lemma utf8_encode_cp_length (c : Z) (bs : pybytes) :
  utf8_encode_cp c = Some bs -> 1 <= len bs <= 4.
Proof.
  intros H. apply utf8_encode_cp_cases in H.
  destruct H as [[_ ->]|[[_ ->]|[(_ & _ & ->)|[_ ->]]]]; unfold len; simpl; lia.
Qed.

(** Decoding the bytes of a code point gives the code point back. *)
Lemma decode_encoded_cp (e : decode_errors) (c : Z) (bs rest : pybytes) :
  utf8_encode_cp c = Some bs ->
  decode_utf8 e (bs ++ rest) = c :: decode_utf8 e rest.
Proof.
  intros H. apply utf8_encode_cp_cases in H.
  destruct H as [[Hc ->]|[[Hc ->]|[(Hc & Hs & ->)|[Hc ->]]]];
    cbn [app]; rewrite decode_utf8_unfold; unfold second_ok, is_cont;
    split_lead_byte; decide_tests; cbn [andb orb negb]; f_equal; arith.
Qed.

(** A proper prefix of the bytes of a code point decodes to nothing when
    errors are ignored. *)
Lemma decode_cut_cp (c : Z) (bs : pybytes) (k : nat) :
  utf8_encode_cp c = Some bs -> (k < length bs)%nat ->
  decode_utf8 Ignore (take k bs) = [].
Proof.
  intros H Hk. apply utf8_encode_cp_cases in H.
  destruct H as [[Hc ->]|[[Hc ->]|[(Hc & Hs & ->)|[Hc ->]]]]; simpl in Hk.
  - destruct k as [|k]; [done | lia].
  - destruct k as [|[|k]]; [done | | lia].
    cbn [take]. rewrite decode_utf8_unfold. decide_tests. done.
  - destruct k as [|[|[|k]]]; [done | | | lia]; cbn [take];
      rewrite decode_utf8_unfold; unfold second_ok, is_cont; split_lead_byte;
      decide_tests; cbn [andb orb negb on_error]; done.
  - destruct k as [|[|[|[|k]]]]; [done | | | | lia]; cbn [take];
      rewrite decode_utf8_unfold; unfold second_ok, is_cont; split_lead_byte;
      decide_tests; cbn [andb orb negb on_error]; done.
Qed.

Lemma encode_utf8_cons (c : Z) (s : pystr) (enc : pybytes) :
  encode_utf8 (c :: s) = Ok enc ->
  exists bs rest, utf8_encode_cp c = Some bs /\ encode_utf8 s = Ok rest
                  /\ enc = bs ++ rest.
Proof.
  simpl. destruct (utf8_encode_cp c) as [bs|]; [|discriminate].
  destruct (encode_utf8 s) as [rest|]; simpl; [|discriminate].
  intros [= <-]. by exists bs, rest.
Qed.

Lemma encode_utf8_app (a b : pystr) (ea eb : pybytes) :
  encode_utf8 a = Ok ea -> encode_utf8 b = Ok eb ->
  encode_utf8 (a ++ b) = Ok (ea ++ eb).
Proof.
  revert ea. induction a as [|c a IH]; intros ea Ha Hb.
  - injection Ha as <-. exact Hb.
  - apply encode_utf8_cons in Ha as (bs & rest & Hc & Hrest & ->).
    simpl. rewrite Hc, (IH rest Hrest Hb). simpl. by rewrite app_assoc.
Qed.

Lemma len_app {A} (a b : list A) : len (a ++ b) = len a + len b.
Proof. unfold len. rewrite length_app. lia. Qed.

Lemma len_nonneg {A} (a : list A) : 0 <= len a.
Proof. unfold len. lia. Qed.

(** Cutting the encoded text at byte [n] and decoding what is left, with
    errors ignored, keeps the longest prefix of whole characters that fits
    in [n] bytes. *)
Lemma cut_bytes_fit (s : pystr) :
  forall (enc : pybytes) (n : Z),
    encode_utf8 s = Ok enc -> 0 <= n -> cut_bytes n enc = fit_bytes n s.
Proof.
  unfold cut_bytes, py_slice_to.
  induction s as [|c s IH]; intros enc n Henc Hn.
  - injection Henc as <-. rewrite (proj2 (Z.ltb_ge n 0)) by lia. by rewrite take_nil.
  - apply encode_utf8_cons in Henc as (bs & rest & Hc & Hrest & ->).
    rewrite (proj2 (Z.ltb_ge n 0)) by lia. simpl. rewrite Hc.
    destruct (Z.leb_spec (len bs) n) as [Hle|Hgt].
    + rewrite take_app_ge by (unfold len in Hle; lia).
      rewrite (decode_encoded_cp Ignore c bs _ Hc). f_equal.
      specialize (IH rest (n - len bs) Hrest ltac:(lia)).
      rewrite (proj2 (Z.ltb_ge (n - len bs) 0)) in IH by lia.
      rewrite <- IH. do 2 f_equal. unfold len. lia.
    + rewrite take_app_le by (unfold len in Hgt; lia).
      apply (decode_cut_cp c bs _ Hc). unfold len in Hgt. lia.
Qed.

(** The kept prefix can be encoded, fits in [n] bytes, and falls short of
    [n] by less than one character when something was cut away. *)
Lemma fit_bytes_size (s : pystr) :
  forall (enc : pybytes) (n : Z),
    encode_utf8 s = Ok enc -> 0 <= n ->
    exists kept suffix,
      encode_utf8 (fit_bytes n s) = Ok kept
      /\ s = fit_bytes n s ++ suffix
      /\ len kept <= n
      /\ (n < len enc -> n - 3 <= len kept)
      /\ (len enc <= n -> fit_bytes n s = s).
Proof.
  induction s as [|c s IH]; intros enc n Henc Hn.
  - injection Henc as <-. exists [], []. simpl. unfold len. simpl.
    repeat split; try done; lia.
  - apply encode_utf8_cons in Henc as (bs & rest & Hc & Hrest & ->).
    pose proof (utf8_encode_cp_length c bs Hc) as Hbs.
    simpl. rewrite Hc. destruct (Z.leb_spec (len bs) n) as [Hle|Hgt].
    + destruct (IH rest (n - len bs) Hrest ltac:(lia))
        as (kept & suffix & Hkept & Hsplit & Hfit & Hlow & Hall).
      exists (bs ++ kept), suffix. simpl. rewrite Hc, Hkept. simpl.
      rewrite !len_app. repeat split.
      * by rewrite <- Hsplit.
      * lia.
      * intros Hlt. specialize (Hlow ltac:(lia)). lia.
      * intros Hall'. by rewrite Hall by lia.
    + exists [], (c :: s). simpl. rewrite len_app.
      change (len (@nil Z)) with 0.
      pose proof (len_nonneg rest). repeat split; try done; lia.
Qed.

Lemma truncated_marker_bytes :
  exists marker, encode_utf8 TRUNCATED_MARKER = Ok marker /\ len marker = 16.
Proof. eexists. split; vm_compute; reflexivity. Qed.

(** What [strip_comments_and_minify] returns takes at most 16 bytes more
    than MAX_BYTES_PER_FILE: the cut text fits the ceiling, and the marker
    comes on top of it. *)
Lemma strip_comments_and_minify_size (text ext out : pystr) :
  strip_comments_and_minify text ext = Ok out ->
  exists encoded,
    encode_utf8 out = Ok encoded /\ len encoded <= MAX_BYTES_PER_FILE + 16.
Proof.
  unfold strip_comments_and_minify.
  set (joined := minify_text text ext).
  destruct (encode_utf8 joined) as [enc|] eqn:Henc; simpl; [|discriminate].
  destruct (Z.ltb_spec MAX_BYTES_PER_FILE (len enc)) as [Hlt|Hge]; intros [= <-].
  - rewrite (cut_bytes_fit joined enc MAX_BYTES_PER_FILE Henc) by (vm_compute; discriminate).
    destruct (fit_bytes_size joined enc MAX_BYTES_PER_FILE Henc)
      as (kept & suffix & Hkept & _ & Hfit & _); [vm_compute; discriminate|].
    destruct truncated_marker_bytes as (marker & Hmarker & Hlen).
    exists (kept ++ marker). split; [by apply encode_utf8_app|].
    rewrite len_app. lia.
  - exists enc. split; [done | lia].
Qed.

(** ** Every sanitised text can be encoded *)

Lemma encodable_encode (s : pystr) :
  encodable s <-> exists encoded, encode_utf8 s = Ok encoded.
Proof.
  unfold encodable. induction s as [|c s IH]; simpl.
  - split; [by eexists | constructor].
  - rewrite Forall_cons, IH. destruct (utf8_encode_cp c) as [bs|].
    + split.
      * intros [_ [rest ->]]. simpl. by eexists.
      * destruct (encode_utf8 s) as [rest|]; simpl; [|by intros [? ?]].
        intros _. split; [done | by eexists].
    + split; [by intros [? _] | by intros [? ?]].
Qed.

Section CharsPreserved.
Context (P : Z -> Prop).
Context (P_ascii : forall c, 0 <= c < 256 -> P c).
Context (P_ellipsis : P ELLIPSIS).

Lemma Forall_lit (s : string) : Forall P (lit s).
Proof.
  unfold lit. apply Forall_forall. intros c Hc. apply list_elem_of_In in Hc.
  apply in_map_iff in Hc as (a & <- & _). apply P_ascii.
  pose proof (N_ascii_bounded a). lia.
Qed.

Lemma Forall_skip_to_eol (s : pystr) : Forall P s -> Forall P (skip_to_eol s).
Proof.
  induction 1 as [|c s Hc Hs IH]; simpl; [constructor|].
  destruct (c =? NL); [by constructor | done].
Qed.

Lemma Forall_skip_spaces (s : pystr) : Forall P s -> Forall P (skip_spaces s).
Proof.
  induction 1 as [|c s Hc Hs IH]; simpl; [constructor|].
  destruct (is_space c); [done | by constructor].
Qed.

Lemma Forall_skip_past (closer s rest : pystr) :
  skip_past closer s = Some rest -> Forall P s -> Forall P rest.
Proof.
  revert rest. induction s as [|c s IH]; intros rest Hskip Hs.
  - unfold skip_past in Hskip.
    destruct (startswith [] closer); [|discriminate].
    injection Hskip as <-. rewrite drop_nil. constructor.
  - change (skip_past closer (c :: s)) with
      (if startswith (c :: s) closer then Some (drop (length closer) (c :: s))
       else skip_past closer s) in Hskip.
    destruct (startswith (c :: s) closer).
    + injection Hskip as <-. by apply Forall_drop.
    + apply Forall_cons in Hs as [_ Hs]. by apply IH.
Qed.

Lemma Forall_match_hash_comment (s rest : pystr) :
  match_hash_comment s = Some rest -> Forall P s -> Forall P rest.
Proof.
  unfold match_hash_comment. intros H Hs.
  apply Forall_skip_spaces in Hs.
  destruct (skip_spaces s) as [|c r]; [discriminate|].
  destruct (c =? 35); [|discriminate]. injection H as <-.
  apply Forall_cons in Hs as [_ Hr]. by apply Forall_skip_to_eol.
Qed.

Lemma Forall_match_comment (rx : comment_re) (at_bol : bool) (s rest : pystr) :
  match_comment rx at_bol s = Some rest -> Forall P s -> Forall P rest.
Proof.
  intros H Hs. destruct rx; simpl in H.
  - discriminate.
  - unfold match_c_comment in H.
    destruct (startswith s (lit "//")).
    + injection H as <-. by apply Forall_skip_to_eol, Forall_drop.
    + destruct (startswith s (lit "/*")); [|discriminate].
      eapply Forall_skip_past; [exact H|]. by apply Forall_drop.
  - unfold match_py_comment in H.
    destruct (if at_bol then match_hash_comment s else None) as [r|] eqn:E.
    + injection H as <-. destruct at_bol; [|discriminate].
      by eapply Forall_match_hash_comment.
    + destruct (startswith s TRIPLE_SQ).
      * eapply Forall_skip_past; [exact H|]. by apply Forall_drop.
      * destruct (startswith s TRIPLE_DQ); [|discriminate].
        eapply Forall_skip_past; [exact H|]. by apply Forall_drop.
  - destruct at_bol; [|discriminate]. by eapply Forall_match_hash_comment.
Qed.

Lemma Forall_re_sub_scan (rx : comment_re) (fuel : nat) :
  forall (at_bol : bool) (s : pystr),
    Forall P s -> Forall P (re_sub_scan rx fuel at_bol s).
Proof.
  induction fuel as [|fuel IH]; intros at_bol s Hs; simpl; [done|].
  destruct s as [|c s']; [constructor|].
  destruct (match_comment rx at_bol (c :: s')) as [rest|] eqn:E.
  - apply IH. by eapply Forall_match_comment.
  - apply Forall_cons in Hs as [Hc Hs']. constructor; [done | by apply IH].
Qed.

Lemma Forall_splitlines (s : pystr) :
  Forall P s -> Forall (Forall P) (splitlines s).
Proof.
  induction s as [|x|x y s IH1 IH2] using list_ind2; intros Hs.
  - constructor.
  - simpl. destruct (is_linebreak x).
    + destruct (x =? 13); repeat constructor.
    + repeat constructor. by apply Forall_cons in Hs as [? _].
  - change (splitlines (x :: y :: s)) with
      (if is_linebreak x then
         [] :: (if x =? 13
                then (if y =? 10 then splitlines s else splitlines (y :: s))
                else splitlines (y :: s))
       else match splitlines (y :: s) with
            | l :: ls => (x :: l) :: ls
            | [] => [[x]]
            end).
    apply Forall_cons in Hs as [Hx Hys].
    pose proof (IH2 Hys) as H2.
    apply Forall_cons in Hys as [Hy Hs]. pose proof (IH1 Hs) as H1.
    destruct (is_linebreak x).
    + constructor; [constructor|]. destruct (x =? 13); [|done]. by destruct (y =? 10).
    + destruct (splitlines (y :: s)) as [|l ls].
      * by repeat constructor.
      * apply Forall_cons in H2 as [Hl Hls]. constructor; [by constructor | done].
Qed.

Lemma Forall_collapse_spaces (in_run : bool) (s : pystr) :
  Forall P s -> Forall P (collapse_spaces_from in_run s).
Proof.
  intros Hs. revert in_run. induction Hs as [|c s Hc Hs IH]; intros in_run; simpl;
    [constructor|].
  destruct (is_space c).
  - destruct in_run; [apply IH|]. constructor; [apply P_ascii; lia | apply IH].
  - constructor; [done | apply IH].
Qed.

Lemma Forall_strip (s : pystr) : Forall P s -> Forall P (strip s).
Proof.
  intros Hs. unfold strip.
  apply Forall_rev, Forall_skip_spaces, Forall_rev, Forall_skip_spaces, Hs.
Qed.

Lemma Forall_py_slice_to (i : Z) (s : pystr) : Forall P s -> Forall P (py_slice_to i s).
Proof. intros Hs. unfold py_slice_to. destruct (i <? 0); by apply Forall_take. Qed.

Lemma Forall_minify_line (lines : list pystr) (line : pystr) :
  Forall (Forall P) lines -> Forall P line ->
  Forall (Forall P) (minify_line lines line).
Proof.
  intros Hlines Hline. unfold minify_line.
  assert (Forall P (strip (collapse_spaces line))) as Hs
    by (by apply Forall_strip, Forall_collapse_spaces).
  destruct (strip (collapse_spaces line)) as [|c l] eqn:E; [done|].
  apply Forall_app. split; [done|]. constructor; [|constructor].
  destruct (MAX_LINE_CHARS <? len (c :: l)); [|done].
  apply Forall_app. split; [by apply Forall_py_slice_to|].
  constructor; [apply P_ascii; lia|]. by constructor.
Qed.

Lemma Forall_join (sep : pystr) (parts : list pystr) :
  Forall P sep -> Forall (Forall P) parts -> Forall P (join sep parts).
Proof.
  intros Hsep. induction 1 as [|p ps Hp Hps IH]; simpl; [constructor|].
  destruct ps as [|q ps]; [done|].
  apply Forall_app. split; [done|]. apply Forall_app. by split.
Qed.

Lemma Forall_minify_text (text ext : pystr) :
  Forall P text -> Forall P (minify_text text ext).
Proof.
  intros Htext. unfold minify_text. apply Forall_join.
  - constructor; [apply P_ascii; unfold NL; lia | constructor].
  - assert (forall ls acc, Forall (Forall P) ls -> Forall (Forall P) acc ->
              Forall (Forall P) (fold_left minify_line ls acc)) as Hfold.
    { induction ls as [|l ls IH]; intros acc Hls Hacc; simpl; [done|].
      apply Forall_cons in Hls as [Hl Hls]. apply IH; [done|].
      by apply Forall_minify_line. }
    apply Hfold; [|constructor].
    apply Forall_splitlines. by apply Forall_re_sub_scan.
Qed.

Lemma Forall_partition_head (c : Z) (s : pystr) :
  Forall P s -> Forall P (partition_head c s).
Proof.
  induction 1 as [|x s Hx Hs IH]; simpl; [constructor|].
  destruct (x =? c); [constructor | by constructor].
Qed.

Lemma Forall_redact_secrets (text : pystr) :
  Forall P text -> Forall P (redact_secrets text).
Proof.
  intros Htext. unfold redact_secrets. rewrite redact_loop_map. simpl.
  apply Forall_join.
  - constructor; [apply P_ascii; unfold NL; lia | constructor].
  - apply Forall_forall. intros l Hl. apply list_elem_of_In in Hl.
    apply in_map_iff in Hl as (line & <- & Hline).
    assert (Forall P line) as Hp.
    { pose proof (Forall_splitlines text Htext) as Hall.
      rewrite Forall_forall in Hall. apply Hall. by apply list_elem_of_In. }
    unfold redact_line. destruct (existsb _ _); [|done].
    destruct (has_char EQUALS line).
    + apply Forall_app. split; [by apply Forall_partition_head | apply Forall_lit].
    + destruct (has_char COLON line); [|apply Forall_lit].
      apply Forall_app. split; [by apply Forall_partition_head | apply Forall_lit].
Qed.
End CharsPreserved.

Lemma encodable_range (c : Z) :
  0 <= c < 55296 \/ 57343 < c < 1114112 -> utf8_encode_cp c <> None.
Proof.
  intros H. unfold utf8_encode_cp, is_surrogate.
  destruct (Z.ltb_spec c 0); [lia|].
  destruct (Z.ltb_spec c 128); [done|].
  destruct (Z.ltb_spec c 2048); [done|].
  destruct (Z.ltb_spec c 65536).
  - destruct (Z.leb_spec 55296 c), (Z.leb_spec c 57343); simpl; try done. lia.
  - destruct (Z.ltb_spec c 1114112); [done | lia].
Qed.

Ltac tests_to_props :=
  repeat match goal with
         | H : _ && _ = true |- _ => apply andb_prop in H as [? ?]
         | H : _ && _ = false |- _ => apply andb_false_iff in H
         | H : (_ <=? _) = true |- _ => apply Z.leb_le in H
         | H : (_ <=? _) = false |- _ => apply Z.leb_gt in H
         | H : (_ <? _) = true |- _ => apply Z.ltb_lt in H
         | H : (_ <? _) = false |- _ => apply Z.ltb_ge in H
         | H : (_ =? _) = true |- _ => apply Z.eqb_eq in H
         | H : (_ =? _) = false |- _ => apply Z.eqb_neq in H
         end.

Lemma on_error_encodable (e : decode_errors) : encodable (on_error e).
Proof. destruct e; repeat constructor. vm_compute. discriminate. Qed.

(** Whatever the bytes, the decoded text holds code points only. *)
Lemma decode_utf8_encodable (e : decode_errors) (bs : pybytes) :
  encodable (decode_utf8 e bs).
Proof.
  unfold encodable.
  assert (forall n bs, (length bs <= n)%nat ->
            Forall (fun c => utf8_encode_cp c <> None) (decode_utf8 e bs)) as H;
    [|by apply (H (length bs))].
  clear bs. induction n as [|n IH]; intros bs Hn.
  - destruct bs; [constructor | simpl in Hn; lia].
  - destruct bs as [|b0 r0]; [constructor|].
    rewrite decode_utf8_unfold. unfold second_ok, is_cont.
    simpl in Hn.
    repeat match goal with
           | |- context [if ?b then _ else _] => destruct b eqn:?
           | |- context [match ?l with [] => _ | _ :: _ => _ end] =>
               destruct l; simpl in Hn
           end;
      repeat first [apply Forall_app; split | apply Forall_cons; split];
      try apply on_error_encodable;
      try (apply IH; simpl; lia);
      tests_to_props; apply encodable_range; lia.
Qed.

(** ** The size of a sanitised snippet *)

Lemma encodable_cp_latin1 (c : Z) : 0 <= c < 256 -> utf8_encode_cp c <> None.
Proof. intros H. apply encodable_range. lia. Qed.

Lemma encodable_cp_ellipsis : utf8_encode_cp ELLIPSIS <> None.
Proof. vm_compute. discriminate. Qed.

Lemma minify_text_encodable (text ext : pystr) :
  encodable text -> encodable (minify_text text ext).
Proof.
  apply (Forall_minify_text _ encodable_cp_latin1 encodable_cp_ellipsis).
Qed.

Lemma snippet_bytes_some (r : result pystr) (n : Z) :
  snippet_bytes r = Some n ->
  exists out encoded, r = Ok out /\ encode_utf8 out = Ok encoded /\ len encoded = n.
Proof.
  unfold snippet_bytes. destruct r as [out|]; [|discriminate].
  destruct (encode_utf8 out) as [encoded|] eqn:Henc; [|discriminate].
  intros [= <-]. by exists out, encoded.
Qed.

(** C3, as stated, fails: 81 lines of 200 letters are cut at 16000 bytes
    and the 16 bytes of the marker come on top. *)
Lemma marker_exceeds_file_ceiling :
  ~ within_file_ceiling long_text (lit ".txt").
Proof.
  intros H.
  assert (snippet_bytes (strip_comments_and_minify long_text (lit ".txt")) = Some 16016)
    as Hsize by (vm_compute; reflexivity).
  apply snippet_bytes_some in Hsize as (out & encoded & Hout & Henc & Hlen).
  specialize (H out encoded Hout Henc). rewrite Hlen in H.
  unfold MAX_BYTES_PER_FILE in H. lia.
Qed.

(** C3, amended: for every text without lone surrogates
    [strip_comments_and_minify] returns a snippet of at most
    MAX_BYTES_PER_FILE + 16 bytes. A minified text within the ceiling is
    returned as it is; a longer one is cut to its longest prefix of whole
    characters that fits in MAX_BYTES_PER_FILE bytes (so at most 3 bytes
    short of the ceiling), and the 16-byte truncation marker line is
    appended to it. *)
Theorem sanitized_snippet_size (text ext : pystr) :
  encodable text ->
  exists out encoded minified,
    strip_comments_and_minify text ext = Ok out
    /\ encode_utf8 out = Ok encoded
    /\ encode_utf8 (minify_text text ext) = Ok minified
    /\ len encoded <= MAX_BYTES_PER_FILE + 16
    /\ (len minified <= MAX_BYTES_PER_FILE -> out = minify_text text ext)
    /\ (MAX_BYTES_PER_FILE < len minified ->
        exists kept suffix kept_bytes,
          out = kept ++ TRUNCATED_MARKER
          /\ minify_text text ext = kept ++ suffix
          /\ encode_utf8 kept = Ok kept_bytes
          /\ MAX_BYTES_PER_FILE - 3 <= len kept_bytes <= MAX_BYTES_PER_FILE
          /\ len encoded = len kept_bytes + 16).
Proof.
  intros Htext.
  destruct (proj1 (encodable_encode _) (minify_text_encodable text ext Htext))
    as [minified Hmin].
  unfold strip_comments_and_minify. rewrite Hmin. simpl.
  assert (0 <= MAX_BYTES_PER_FILE) as Hmax by (vm_compute; discriminate).
  destruct (fit_bytes_size _ _ MAX_BYTES_PER_FILE Hmin Hmax)
    as (kept_bytes & suffix & Hkept & Hsplit & Hfit & Hlow & Hall).
  destruct truncated_marker_bytes as (marker & Hmarker & Hlen).
  destruct (Z.ltb_spec MAX_BYTES_PER_FILE (len minified)) as [Hlt|Hge].
  - rewrite (cut_bytes_fit _ _ _ Hmin Hmax).
    exists (fit_bytes MAX_BYTES_PER_FILE (minify_text text ext) ++ TRUNCATED_MARKER),
      (kept_bytes ++ marker), minified.
    split; [done|]. split; [by apply encode_utf8_app|]. split; [done|].
    rewrite len_app. split; [lia|]. split; [lia|]. intros _.
    exists (fit_bytes MAX_BYTES_PER_FILE (minify_text text ext)), suffix, kept_bytes.
    repeat split; try done; try lia.
  - exists (minify_text text ext), minified, minified.
    repeat split; try done; try lia.
Qed.

Lemma sanitized_snippet_size_witness :
  exists out, strip_comments_and_minify (lit "a  =  1 // one") (lit ".js") = Ok out.
Proof.
  destruct (sanitized_snippet_size (lit "a  =  1 // one") (lit ".js"))
    as (out & encoded & minified & Hout & Hrest).
  - apply encodable_encode. eexists. vm_compute. reflexivity.
  - by exists out.
Defined.

(** Sanitising the bytes of a file never raises, whatever the bytes. *)
Lemma strip_and_cap_bytes_total (content : pybytes) (ext : pystr) :
  exists snippet encoded,
    strip_and_cap_bytes content ext = Ok snippet
    /\ encode_utf8 snippet = Ok encoded
    /\ len encoded <= MAX_BYTES_PER_FILE + 16.
Proof.
  unfold strip_and_cap_bytes.
  destruct (sanitized_snippet_size (redact_secrets (decode_utf8 Replace content)) ext)
    as (out & encoded & minified & Hout & Henc & Hmin & Hsize & Hrest).
  - apply (Forall_redact_secrets _ encodable_cp_latin1), decode_utf8_encodable.
  - by exists out, encoded.
Qed.

(** ** The budget of the collection loop *)

Lemma collect_files_unfold (L : limits) (read : pystr -> result pybytes)
    (project_root name : pystr) (rest : list pystr) (st : collect_state) :
  collect_files L read project_root (name :: rest) st
  = if max_total_bytes L <=? used_total_bytes st then Ok st
    else
      raw <- read name ;;
      let ext := snd (splitext name) in
      snippet <- strip_and_cap_bytes raw ext ;;
      encoded <- encode_utf8 snippet ;;
      let size := len encoded in
      if max_total_bytes L <? used_total_bytes st + size then
        let remain := max_total_bytes L - used_total_bytes st in
        if remain <=? 0 then Ok st
        else
          let snippet := cut_bytes remain encoded ++ TRUNCATED_MARKER in
          encoded' <- encode_utf8 snippet ;;
          collect_files L read project_root rest
            (accept_file project_root name ext snippet (len encoded') st)
      else
        collect_files L read project_root rest
          (accept_file project_root name ext snippet size st).
Proof. reflexivity. Qed.

(** Once the byte budget is used up, the loop accepts nothing more. *)
Lemma collect_files_exhausted (L : limits) (read : pystr -> result pybytes)
    (project_root : pystr) (names : list pystr) (st : collect_state) :
  max_total_bytes L <= used_total_bytes st ->
  collect_files L read project_root names st = Ok st.
Proof.
  intros H. destruct names as [|name rest]; [done|].
  rewrite collect_files_unfold. by rewrite (proj2 (Z.leb_le _ _) H).
Qed.

(** The step that truncates: the candidate that would overflow the budget
    is cut to the longest prefix of whole characters that fits what is
    left, the marker is appended, and whatever candidates follow are not
    looked at. *)
Lemma collect_files_truncates (L : limits) (read : pystr -> result pybytes)
    (project_root name : pystr) (rest : list pystr) (st : collect_state)
    (raw : pybytes) (snippet : pystr) (encoded : pybytes) :
  used_total_bytes st < max_total_bytes L ->
  read name = Ok raw ->
  strip_and_cap_bytes raw (snd (splitext name)) = Ok snippet ->
  encode_utf8 snippet = Ok encoded ->
  max_total_bytes L < used_total_bytes st + len encoded ->
  let remain := max_total_bytes L - used_total_bytes st in
  exists kept suffix kept_bytes,
    snippet = kept ++ suffix
    /\ encode_utf8 kept = Ok kept_bytes
    /\ remain - 3 <= len kept_bytes <= remain
    /\ collect_files L read project_root (name :: rest) st
       = Ok (accept_file project_root name (snd (splitext name))
               (kept ++ TRUNCATED_MARKER) (len kept_bytes + 16) st).
Proof.
  intros Hused Hread Hstrip Henc Hover remain.
  assert (0 <= remain) as Hremain by (unfold remain; lia).
  destruct (fit_bytes_size snippet encoded remain Henc Hremain)
    as (kept_bytes & suffix & Hkept & Hsplit & Hfit & Hlow & _).
  destruct truncated_marker_bytes as (marker & Hmarker & Hlen).
  exists (fit_bytes remain snippet), suffix, kept_bytes.
  split; [done|]. split; [done|].
  split; [split; [apply Hlow; unfold remain; lia | done]|].
  rewrite collect_files_unfold.
  rewrite (proj2 (Z.leb_gt _ _)) by lia.
  rewrite Hread. cbn [bind]. cbv zeta. rewrite Hstrip. cbn [bind].
  rewrite Henc. cbn [bind].
  rewrite (proj2 (Z.ltb_lt _ _)) by lia.
  rewrite (proj2 (Z.leb_gt _ _)) by lia.
  fold remain. rewrite (cut_bytes_fit snippet encoded remain Henc Hremain).
  rewrite (encode_utf8_app _ _ _ _ Hkept Hmarker). cbn [bind].
  rewrite len_app, Hlen.
  apply collect_files_exhausted. simpl.
  specialize (Hlow ltac:(unfold remain; lia)). unfold remain in Hlow. lia.
Qed.

(** The loop never raises when the archive can be read, it accepts at
    most one file per candidate, and its byte count ends at most 16 bytes
    (one truncation marker) above the cap. *)
Lemma collect_files_bounds (L : limits) (read : pystr -> result pybytes)
    (project_root : pystr) (names : list pystr) :
  (forall name, exists raw, read name = Ok raw) ->
  forall st : collect_state,
    used_total_bytes st <= max_total_bytes L + 16 ->
    exists cs,
      collect_files L read project_root names st = Ok cs
      /\ total_files_collected st <= total_files_collected cs
         <= total_files_collected st + len names
      /\ used_total_bytes st <= used_total_bytes cs <= max_total_bytes L + 16
      /\ len (file_summaries cs) - len (file_summaries st)
         = total_files_collected cs - total_files_collected st.
Proof.
  intros Hread. induction names as [|name rest IH]; intros st Hst.
  - exists st. simpl. unfold len. simpl. repeat split; lia.
  - destruct (Z.le_gt_cases (max_total_bytes L) (used_total_bytes st)) as [Hfull|Hroom].
    + exists st. rewrite collect_files_exhausted by done.
      pose proof (len_nonneg (name :: rest)). repeat split; lia.
    + destruct (Hread name) as [raw Hraw].
      destruct (strip_and_cap_bytes_total raw (snd (splitext name)))
        as (snippet & encoded & Hstrip & Henc & _).
      assert (len (name :: rest) = len rest + 1) as Hlen
        by (unfold len; simpl; lia).
      pose proof (len_nonneg rest) as Hrest.
      destruct (Z.lt_ge_cases (max_total_bytes L) (used_total_bytes st + len encoded))
        as [Hover|Hfits].
      * destruct (collect_files_truncates L read project_root name rest st raw snippet
                    encoded ltac:(lia) Hraw Hstrip Henc Hover)
          as (kept & suffix & kept_bytes & _ & _ & Hkept & ->).
        eexists. split; [reflexivity|]. simpl. rewrite len_app.
        change (len [_]) with 1. repeat split; lia.
      * rewrite collect_files_unfold.
        rewrite (proj2 (Z.leb_gt _ _)) by lia.
        rewrite Hraw. cbn [bind]. cbv zeta. rewrite Hstrip. cbn [bind].
        rewrite Henc. cbn [bind].
        rewrite (proj2 (Z.ltb_ge _ _)) by lia.
        pose proof (len_nonneg encoded) as Hsize.
        destruct (IH (accept_file project_root name (snd (splitext name)) snippet
                        (len encoded) st)) as (cs & -> & Hfiles & Hbytes & Hsum).
        { simpl. lia. }
        exists cs. split; [done|]. simpl in Hfiles, Hbytes, Hsum.
        rewrite len_app in Hsum. change (len [_]) with 1 in Hsum.
        repeat split; lia.
Qed.


Lemma len_py_slice_to {A} (i : Z) (l : list A) :
  0 <= i -> len (py_slice_to i l) <= i.
Proof.
  intros Hi. unfold py_slice_to, len.
  rewrite (proj2 (Z.ltb_ge i 0)) by lia. rewrite length_take. lia.
Qed.

Lemma process_projects_unfold (W : world) (L : limits)
    (read : pystr -> result pybytes) (project_root : pystr)
    (project_files : gset pystr) (rest : roots_dict) (st : run_state) :
  process_projects W L read ((project_root, project_files) :: rest) st
  = if max_total_files L <=? run_files st then Ok st
    else
      cs <- collect_project W L read project_root project_files st ;;
      process_projects W L read rest (after_project W project_root st cs).
Proof. reflexivity. Qed.

Lemma after_project_counters (W : world) (project_root : pystr) (st : run_state)
    (cs : collect_state) :
  run_files (after_project W project_root st cs) = total_files_collected cs
  /\ run_bytes (after_project W project_root st cs) = used_total_bytes cs.
Proof. split; reflexivity. Qed.

(** The project loop never raises when the archive can be read; the file
    count stays within the cap and the byte count within 16 bytes of it. *)
Lemma process_projects_bounds (W : world) (L : limits)
    (read : pystr -> result pybytes) :
  (forall name, exists raw, read name = Ok raw) ->
  0 <= max_files_per_project L ->
  forall (projects : roots_dict) (st : run_state),
    run_files st <= max_total_files L ->
    run_bytes st <= max_total_bytes L + 16 ->
    exists st',
      process_projects W L read projects st = Ok st'
      /\ run_files st <= run_files st' <= max_total_files L
      /\ run_bytes st <= run_bytes st' <= max_total_bytes L + 16.
Proof.
  intros Hread Hper. induction projects as [|[project_root project_files] rest IH];
    intros st Hfiles Hbytes.
  - exists st. split; [reflexivity|]. lia.
  - rewrite process_projects_unfold.
    destruct (Z.leb_spec (max_total_files L) (run_files st)) as [Hfull|Hroom].
    + exists st. split; [reflexivity|]. lia.
    + unfold collect_project.
      set (names := py_slice_to _ _).
      assert (len names <= max_total_files L - run_files st) as Hnames.
      { unfold names.
        etransitivity; [apply len_py_slice_to; lia | lia]. }
      set (st0 := {| file_summaries := []; project_bytes := 0;
                     used_total_bytes := run_bytes st;
                     total_files_collected := run_files st |}).
      destruct (collect_files_bounds L read project_root names Hread st0)
        as (cs & -> & Hcf & Hcb & _); [exact Hbytes|].
      cbn [bind].
      change (total_files_collected st0) with (run_files st) in Hcf.
      change (used_total_bytes st0) with (run_bytes st) in Hcb.
      destruct (after_project_counters W project_root st cs) as [Hf1 Hb1].
      destruct (IH (after_project W project_root st cs)) as (st' & -> & Hf & Hb).
      { rewrite Hf1. lia. }
      { rewrite Hb1. lia. }
      exists st'. split; [reflexivity|]. rewrite Hf1 in Hf. rewrite Hb1 in Hb. lia.
Qed.





(** The scenario of the specification: with a byte cap of 100 and files
    that sanitise to 60 and 80 bytes, the first is accepted in full and the
    second is cut to 40 bytes with the marker appended: 116 bytes in all. *)
Example scenario_two_files :
  match collect_project throttled_world scenario_limits scenario_read (lit ".")
          (list_to_set (List.map lit ["a.tf"; "b.yml"]%string)) run_init with
  | Ok cs =>
      List.map fs_path (file_summaries cs) = [lit "a.tf"; lit "b.yml"]
      /\ List.map (fun fs => snippet_bytes (Ok (fs_content fs))) (file_summaries cs)
         = [Some 60; Some 56]
      /\ used_total_bytes cs = 116
      /\ total_files_collected cs = 2
  | Raise _ => False
  end.
Proof. vm_compute. repeat split; reflexivity. Qed.

(** ** The handler when no project yields metadata *)

Lemma after_project_keeps_metadata (W : world) (project_root : pystr)
    (st : run_state) (cs : collect_state) :
  (forall summaries name root, exists e, analyze_project W summaries name root = Raise e) ->
  metadata_list (after_project W project_root st cs) = metadata_list st.
Proof.
  intros Hfail. unfold after_project. cbn [metadata_list].
  destruct (file_summaries cs) as [|fs rest]; [reflexivity|].
  destruct (Hfail (fs :: rest) (project_name_for project_root) project_root) as [e ->].
  reflexivity.
Qed.

Lemma process_projects_no_metadata (W : world) (L : limits)
    (read : pystr -> result pybytes) :
  (forall summaries name root, exists e, analyze_project W summaries name root = Raise e) ->
  forall (projects : roots_dict) (st st' : run_state),
    process_projects W L read projects st = Ok st' ->
    metadata_list st' = metadata_list st.
Proof.
  intros Hfail. induction projects as [|[project_root project_files] rest IH];
    intros st st' Hrun.
  - by injection Hrun as <-.
  - rewrite process_projects_unfold in Hrun.
    destruct (max_total_files L <=? run_files st); [by injection Hrun as <-|].
    destruct (collect_project W L read project_root project_files st) as [cs|];
      cbn [bind] in Hrun; [|discriminate].
    apply IH in Hrun. rewrite Hrun. by apply after_project_keeps_metadata.
Qed.

(** When the inference service fails every call, every analysis fails. *)
Lemma analysis_fails_when_service_fails (W : world) :
  (forall call, exists e, converse W call = Raise e) ->
  forall summaries name root, exists e, analyze_project W summaries name root = Raise e.
Proof.
  intros Hdown summaries name root. unfold analyze_project, safe_invoke_bedrock.
  destruct (encode_utf8 _) as [encoded|e]; [|by exists e].
  destruct (PAYLOAD_SOFT_CAP_BYTES <? len encoded); [by eexists|].
  cbn [snd].
  match goal with
  | |- context [converse W ?call] => destruct (Hdown call) as [e ->]
  end.
  by exists e.
Qed.

(** C9: for a request with both identifiers, an archive that downloads,
    opens and can be read, and per-project analyses that all fail, the
    handler answers with status 200 and reports zero projects analysed. *)
Theorem handler_reports_zero_projects (W : world) (event aws_request_id : json)
    (uuid req_file_name : json) (zip_content : pybytes) (zip_ref : zip_archive) :
  request_ids W event = Ok (uuid, req_file_name) ->
  truthy uuid = true -> truthy req_file_name = true ->
  s3_get_object W BUCKET_NAME (zip_key_of W uuid req_file_name) = Ok zip_content ->
  open_zip W zip_content = Ok zip_ref ->
  (forall name, exists raw, zip_read zip_ref name = Ok raw) ->
  (forall summaries name root, exists e, analyze_project W summaries name root = Raise e) ->
  exists files_collected,
    lambda_handler W event aws_request_id
    = Ok {| statusCode := 200;
            headers := Some CORS_HEADERS;
            body := json_dumps (JDict [(lit "message", JStr MSG_SUCCESS);
                                       (lit "projectsAnalyzed", JInt 0);
                                       (lit "filesCollected", JInt files_collected)]) |}
    /\ 0 <= files_collected <= MAX_TOTAL_FILES.
Proof.
  intros Hids Huuid Hfile Hget Hzip Hread Hfail.
  set (all_paths :=
         List.filter (fun name => negb (endswith name (lit "/")) && negb (should_skip_path name))
           (namelist zip_ref)).
  destruct (process_projects_bounds W source_limits (zip_read zip_ref) Hread
              ltac:(vm_compute; discriminate) (detect_project_roots all_paths) run_init)
    as (st & Hst & Hfiles & _).
  { vm_compute. discriminate. }
  { vm_compute. discriminate. }
  pose proof (process_projects_no_metadata W source_limits (zip_read zip_ref) Hfail
                _ _ _ Hst) as Hmeta.
  change (metadata_list run_init) with (@nil json) in Hmeta.
  exists (run_files st). split.
  - unfold lambda_handler. cbv zeta. rewrite Hids. cbn [bind fst snd].
    rewrite Huuid, Hfile. cbn [negb orb].
    unfold analyze_archive. rewrite Hget. cbn [bind]. rewrite Hzip. cbn [bind].
    cbv zeta. fold all_paths. rewrite Hst. cbn [bind]. rewrite Hmeta.
    unfold success_response. rewrite Hmeta. reflexivity.
  - change (run_files run_init) with 0 in Hfiles.
    change (max_total_files source_limits) with MAX_TOTAL_FILES in Hfiles. lia.
Qed.

Lemma handler_reports_zero_projects_witness :
  exists files_collected,
    lambda_handler throttled_world sample_event JNull
    = Ok {| statusCode := 200;
            headers := Some CORS_HEADERS;
            body := json_dumps (JDict [(lit "message", JStr MSG_SUCCESS);
                                       (lit "projectsAnalyzed", JInt 0);
                                       (lit "filesCollected", JInt files_collected)]) |}
    /\ 0 <= files_collected <= MAX_TOTAL_FILES.
Proof.
  apply (handler_reports_zero_projects throttled_world sample_event JNull
           (JStr (lit "r-1")) (JStr (lit "src.zip")) [80; 75]
           {| namelist := List.map lit ["infra/main.tf"; "infra/notes.txt"]%string;
              zip_read := fun _ => Ok (lit "region = 1") |}).
  - vm_compute. reflexivity.
  - reflexivity.
  - reflexivity.
  - reflexivity.
  - reflexivity.
  - intros name. by eexists.
  - apply analysis_fails_when_service_fails. intros call. by eexists.
Defined.

(** The same run, evaluated: one signal file is collected, the inference
    service throttles the call, and the answer is a 200 with no project. *)
Example throttled_run_answers_200 :
  lambda_handler throttled_world sample_event JNull
  = Ok {| statusCode := 200;
          headers := Some CORS_HEADERS;
          body := json_dumps (JDict [(lit "message", JStr MSG_SUCCESS);
                                     (lit "projectsAnalyzed", JInt 0);
                                     (lit "filesCollected", JInt 1)]) |}.
Proof. vm_compute. reflexivity. Qed.

(** * Further properties of the code *)

(** ** Path classification *)

Lemma split_char_fields_no_sep (c : Z) (s : pystr) :
  Forall (fun f => has_char c f = false) (split_char c s).
Proof.
  induction s as [|x s IH]; simpl; [by repeat constructor|].
  destruct (x =? c) eqn:E.
  - by constructor.
  - destruct (split_char c s) as [|f fs]; [repeat constructor|].
    + simpl. by rewrite (Z.eqb_sym c x), E.
    + apply Forall_cons in IH as [Hf Hfs]. constructor; [|done].
      unfold has_char in *. simpl. by rewrite (Z.eqb_sym c x), E.
Qed.

(** What [rfind] returns: no occurrence, or the place of the last one. *)
Lemma rfind_from_spec (c : Z) (s : pystr) :
  forall i acc, acc < i ->
    let r := rfind_from c s i acc in
    (r = acc /\ has_char c s = false)
    \/ (i <= r < i + len s
        /\ has_char c (drop (Z.to_nat (r - i + 1)) s) = false
        /\ exists before, take (Z.to_nat (r - i + 1)) s = before ++ [c]).
Proof.
  induction s as [|x s IH]; intros i acc Hacc; simpl.
  - by left.
  - assert (len (x :: s) = len s + 1) as Hlen by (unfold len; simpl; lia).
    rewrite Hlen. unfold has_char. simpl. rewrite (Z.eqb_sym c x).
    destruct (x =? c) eqn:E.
    + apply Z.eqb_eq in E as ->.
      destruct (IH (i + 1) i ltac:(lia)) as [[Hr Hno]|(Hr & Hno & before & Hb)].
      * right. rewrite Hr. pose proof (len_nonneg s).
        replace (i - i + 1) with 1 by lia. simpl.
        split; [lia|]. split; [exact Hno|]. by exists [].
      * right. split; [lia|].
        replace (Z.to_nat (rfind_from c s (i + 1) i - i + 1))
          with (S (Z.to_nat (rfind_from c s (i + 1) i - (i + 1) + 1))) by lia.
        simpl. split; [exact Hno|]. exists (c :: before). by rewrite Hb.
    + destruct (IH (i + 1) acc ltac:(lia)) as [[Hr Hno]|(Hr & Hno & before & Hb)].
      * left. by split.
      * right. split; [lia|].
        replace (Z.to_nat (rfind_from c s (i + 1) acc - i + 1))
          with (S (Z.to_nat (rfind_from c s (i + 1) acc - (i + 1) + 1))) by lia.
        simpl. split; [exact Hno|]. exists (x :: before). by rewrite Hb.
Qed.

Lemma basename_no_slash (p : pystr) : has_char SLASH (basename p) = false.
Proof.
  unfold basename, slice_from, rfind.
  destruct (rfind_from_spec SLASH p 0 (-1) ltac:(lia)) as [[-> Hno]|(Hr & Hno & _)].
  - exact Hno.
  - by rewrite Z.sub_0_r in Hno.
Qed.

Lemma basename_of_plain (s : pystr) :
  has_char SLASH s = false -> basename s = s.
Proof.
  intros Hno. unfold basename, slice_from, rfind.
  destruct (rfind_from_spec SLASH s 0 (-1) ltac:(lia)) as [[-> _]|(Hr & Hno' & b & Hb)].
  - reflexivity.
  - exfalso. rewrite Z.sub_0_r in Hb.
    assert (has_char SLASH (take (Z.to_nat (rfind_from SLASH s 0 (-1) + 1)) s) = true)
      as Htake.
    { rewrite Hb. unfold has_char. rewrite existsb_app.
      apply orb_true_iff. right. reflexivity. }
    unfold has_char in *.
    rewrite <- (take_drop (Z.to_nat (rfind_from SLASH s 0 (-1) + 1)) s) in Hno.
    rewrite existsb_app, Htake in Hno. discriminate.
Qed.

(** X1: the directory test of [is_signal_path] can never hold, because the
    entries of SIGNAL_PATH_PARTS contain a slash and the segments of a path
    do not; whether a path is a signal file depends on its basename alone. *)
Theorem is_signal_path_by_basename (path : pystr) :
  existsb (fun p => str_in p (split_char SLASH path)) SIGNAL_PATH_PARTS = false
  /\ is_signal_path path = is_signal_path (basename path).
Proof.
  assert (forall q, existsb (fun p => str_in p (split_char SLASH q)) SIGNAL_PATH_PARTS
                    = false) as Hdead.
  { intros q. apply not_true_is_false. intros Hex.
    apply existsb_exists in Hex as (p & Hp & Hin).
    apply str_in_In in Hin.
    pose proof (split_char_fields_no_sep SLASH q) as Hall.
    rewrite Forall_forall in Hall.
    specialize (Hall p (proj2 (list_elem_of_In _ _) Hin)).
    unfold SIGNAL_PATH_PARTS in Hp. simpl in Hp.
    destruct Hp as [<-|[<-|[]]]; vm_compute in Hall; discriminate. }
  split; [apply Hdead|].
  unfold is_signal_path. rewrite !Hdead.
  by rewrite (basename_of_plain (basename path) (basename_no_slash path)).
Qed.

Lemma split_char_field (c : Z) (f rest : pystr) :
  has_char c f = false ->
  split_char c (f ++ c :: rest) = f :: split_char c rest.
Proof.
  unfold has_char. induction f as [|x f IH]; simpl.
  - intros _. by rewrite Z.eqb_refl.
  - rewrite (Z.eqb_sym c x). destruct (x =? c); [discriminate|].
    simpl. intros Hf. by rewrite (IH Hf).
Qed.

Lemma split_char_single (c : Z) (f : pystr) :
  has_char c f = false -> split_char c f = [f].
Proof.
  unfold has_char. induction f as [|x f IH]; simpl; [done|].
  rewrite (Z.eqb_sym c x). destruct (x =? c); [discriminate|].
  simpl. intros Hf. by rewrite (IH Hf).
Qed.

Lemma join_cons2 (sep p q : pystr) (ps : list pystr) :
  join sep (p :: q :: ps) = p ++ sep ++ join sep (q :: ps).
Proof. reflexivity. Qed.

(** Splitting a path made of slash-free segments gives the segments back. *)
Lemma split_join_segments (segs : list pystr) :
  segs <> [] -> Forall (fun seg => has_char SLASH seg = false) segs ->
  split_char SLASH (join [SLASH] segs) = segs.
Proof.
  induction segs as [|seg [|seg2 rest] IH]; intros Hne Hall; [done| |].
  - apply Forall_cons in Hall as [Hseg _]. simpl. by apply split_char_single.
  - apply Forall_cons in Hall as [Hseg Hrest].
    rewrite join_cons2. simpl app.
    rewrite split_char_field by done. f_equal. by apply IH.
Qed.

Lemma plain_segment_spec (seg : pystr) :
  plain_segment seg = true ->
  seg <> [] /\ has_char SLASH seg = false /\ seg <> lit "." /\ seg <> lit "..".
Proof.
  unfold plain_segment. intros H.
  apply andb_prop in H as [H H4]. apply andb_prop in H as [H H3].
  apply andb_prop in H as [H1 H2].
  apply negb_true_iff in H1, H2, H3, H4.
  apply str_eqb_neq in H1, H3, H4. by repeat split.
Qed.

Lemma normpath_comps_plain (segs : list pystr) :
  Forall (fun seg => plain_segment seg = true) segs ->
  forall new_comps, normpath_comps 0 segs new_comps = rev new_comps ++ segs.
Proof.
  induction 1 as [|seg segs Hseg _ IH]; intros new_comps; simpl.
  - by rewrite app_nil_r.
  - apply plain_segment_spec in Hseg as (H1 & _ & H3 & H4).
    rewrite (proj2 (str_eqb_neq seg [])) by done.
    rewrite (proj2 (str_eqb_neq seg (lit "."))) by done.
    rewrite (proj2 (str_eqb_neq seg (lit ".."))) by done.
    simpl. rewrite IH. simpl. by rewrite <- app_assoc.
Qed.

(** The first character of a joined path is that of its first segment. *)
Lemma join_head (sep seg : pystr) (rest : list pystr) :
  exists tail, join sep (seg :: rest) = seg ++ tail.
Proof.
  destruct rest as [|seg2 rest].
  - exists []. simpl. by rewrite app_nil_r.
  - eexists. apply join_cons2.
Qed.

Lemma join_last (sep : pystr) (segs : list pystr) :
  segs <> [] -> exists front, join sep segs = front ++ List.last segs [].
Proof.
  induction segs as [|seg [|seg2 rest] IH]; intros Hne; [done| |].
  - by exists [].
  - destruct IH as [front Hfront]; [done|].
    exists (seg ++ sep ++ front). rewrite join_cons2, Hfront.
    change (List.last (seg :: seg2 :: rest) []) with (List.last (seg2 :: rest) []).
    by rewrite <- !app_assoc.
Qed.

Lemma startswith_app_sep (c : Z) (a b p : pystr) :
  has_char c p = false -> startswith (a ++ c :: b) p = startswith a p.
Proof.
  unfold has_char. revert p. induction a as [|y a IH]; intros p Hp.
  - destruct p as [|x p]; [done|]. simpl in *.
    apply orb_false_iff in Hp as [Hp _]. by rewrite Z.eqb_sym, Hp.
  - destruct p as [|x p]; [done|]. simpl in *.
    apply orb_false_iff in Hp as [_ Hp]. by rewrite IH.
Qed.

Lemma startswith_prefix_only (a tail p : pystr) :
  (length p <= length a)%nat -> startswith (a ++ tail) p = startswith a p.
Proof.
  revert p. induction a as [|y a IH]; intros p Hlen.
  - destruct p; [by destruct tail | simpl in Hlen; lia].
  - destruct p as [|x p]; [done|]. simpl in *. rewrite IH by lia. done.
Qed.

Lemma endswith_char (s : pystr) (c : Z) :
  endswith s [c] = true -> exists front, s = front ++ [c].
Proof.
  unfold endswith. simpl. intros H.
  destruct (rev s) as [|x r] eqn:E; [discriminate|].
  simpl in H. apply andb_prop in H as [Hx _]. apply Z.eqb_eq in Hx as <-.
  exists (rev r). rewrite <- (rev_involutive s), E. reflexivity.
Qed.

Lemma has_char_app (c : Z) (a b : pystr) :
  has_char c (a ++ b) = has_char c a || has_char c b.
Proof. unfold has_char. apply existsb_app. Qed.

Lemma has_char_rev (c : Z) (s : pystr) : has_char c (rev s) = has_char c s.
Proof.
  induction s as [|x s IH]; [done|].
  simpl rev. rewrite has_char_app, IH. unfold has_char. simpl.
  rewrite orb_false_r. apply orb_comm.
Qed.

(** The place of the last separator is determined by what follows it. *)
Lemma last_separator_unique (c : Z) (a a' b b' : pystr) :
  has_char c b = false -> has_char c b' = false ->
  a ++ c :: b = a' ++ c :: b' -> b = b'.
Proof.
  intros Hb Hb' Heq.
  assert (forall x x' y y' : pystr,
            has_char c x = false -> has_char c x' = false ->
            x ++ c :: y = x' ++ c :: y' -> x = x') as Hfirst.
  { induction x as [|u x IH]; intros [|u' x'] y y' Hx Hx' E; simpl in *.
    - done.
    - injection E as <- _. unfold has_char in Hx'. simpl in Hx'.
      by rewrite Z.eqb_refl in Hx'.
    - injection E as -> _. unfold has_char in Hx. simpl in Hx.
      by rewrite Z.eqb_refl in Hx.
    - injection E as <- E. unfold has_char in Hx, Hx'. simpl in Hx, Hx'.
      apply orb_false_iff in Hx as [_ Hx]. apply orb_false_iff in Hx' as [_ Hx'].
      f_equal. by eapply IH. }
  apply (f_equal (@rev Z)) in Heq.
  rewrite !rev_app_distr in Heq. simpl in Heq. rewrite <- !app_assoc in Heq.
  simpl in Heq.
  assert (rev b = rev b') as Hrev.
  { eapply Hfirst; [| |exact Heq].
    - by rewrite has_char_rev.
    - by rewrite has_char_rev. }
  by rewrite <- (rev_involutive b), Hrev, rev_involutive.
Qed.

Lemma basename_after_slash (a b : pystr) :
  has_char SLASH b = false -> basename (a ++ SLASH :: b) = b.
Proof.
  intros Hb. unfold basename, slice_from, rfind.
  destruct (rfind_from_spec SLASH (a ++ SLASH :: b) 0 (-1) ltac:(lia))
    as [[_ Hno]|(Hr & Hno & before & Hbefore)].
  - rewrite has_char_app in Hno. apply orb_false_iff in Hno as [_ Hno].
    unfold has_char in Hno. simpl in Hno. discriminate.
  - rewrite Z.sub_0_r in Hno, Hbefore.
    set (k := Z.to_nat (rfind_from SLASH (a ++ SLASH :: b) 0 (-1) + 1)) in *.
    symmetry. eapply (last_separator_unique SLASH a before); [done | exact Hno |].
    rewrite <- (take_drop k (a ++ SLASH :: b)) at 1.
    rewrite Hbefore. by rewrite <- app_assoc.
Qed.

Lemma join_last_slash (segs : list pystr) (seg : pystr) :
  segs <> [] ->
  exists front, join [SLASH] (seg :: segs) = front ++ SLASH :: List.last segs [].
Proof.
  revert seg. induction segs as [|seg2 [|seg3 rest] IH]; intros seg Hne; [done| |].
  - by exists seg.
  - destruct (IH seg2 ltac:(done)) as [front Hfront].
    exists (seg ++ SLASH :: front). rewrite join_cons2, Hfront.
    change (List.last (seg2 :: seg3 :: rest) []) with (List.last (seg3 :: rest) []).
    by rewrite <- app_assoc.
Qed.

Lemma basename_join (segs : list pystr) :
  segs <> [] -> Forall (fun seg => has_char SLASH seg = false) segs ->
  basename (join [SLASH] segs) = List.last segs [].
Proof.
  destruct segs as [|seg [|seg2 rest]]; intros Hne Hall; [done| |].
  - apply Forall_cons in Hall as [Hseg _]. by apply basename_of_plain.
  - destruct (join_last_slash (seg2 :: rest) seg ltac:(done)) as [front ->].
    apply basename_after_slash.
    apply Forall_cons in Hall as [_ Hall].
    change (List.last (seg :: seg2 :: rest) []) with (List.last (seg2 :: rest) []).
    assert (In (List.last (seg2 :: rest) []) (seg2 :: rest)) as Hin.
    { destruct (exists_last (l:=seg2 :: rest) ltac:(done)) as (l' & a & ->).
      rewrite last_last. apply in_or_app. right. by left. }
    rewrite List.Forall_forall in Hall. by apply Hall.
Qed.

Lemma startswith_head_ne (x c : Z) (tail p : pystr) :
  x <> c -> startswith (x :: tail) (c :: p) = false.
Proof.
  intros Hx. cbn [startswith].
  rewrite (proj2 (Z.eqb_neq c x)) by (intros E; by apply Hx). done.
Qed.

Lemma no_char_head (c x : Z) (s : pystr) :
  has_char c (x :: s) = false -> x <> c /\ has_char c s = false.
Proof.
  unfold has_char. cbn [existsb]. intros H.
  apply orb_false_iff in H as [Hx Hs]. split; [|done].
  intros ->. by rewrite Z.eqb_refl in Hx.
Qed.

Lemma no_slash_head (x : Z) (s : pystr) :
  has_char SLASH (x :: s) = false -> x <> SLASH /\ has_char SLASH s = false.
Proof.
  unfold has_char. cbn [existsb]. intros H.
  apply orb_false_iff in H as [Hx Hs]. split; [|done].
  intros ->. by rewrite Z.eqb_refl in Hx.
Qed.

Section PlainPath.
Variable seg : pystr.
Variable rest : list pystr.
Hypothesis Hplain : Forall (fun s => plain_segment s = true) (seg :: rest).

Local Abbreviation path := (join [SLASH] (seg :: rest)).

Lemma plain_no_slash :
  Forall (fun s => has_char SLASH s = false) (seg :: rest).
Proof.
  eapply Forall_impl; [exact Hplain|].
  intros s Hs. by apply plain_segment_spec in Hs as (_ & ? & _).
Qed.

Lemma plain_path_head :
  exists x tail, path = x :: tail /\ x <> SLASH.
Proof.
  destruct (join_head [SLASH] seg rest) as [tail Htail].
  pose proof Hplain as H. apply Forall_cons in H as [Hseg _].
  apply plain_segment_spec in Hseg as (Hne & Hslash & _).
  destruct seg as [|x seg'] eqn:E; [done|].
  exists x, (seg' ++ tail). split; [exact Htail|].
  by apply no_slash_head in Hslash as [? _].
Qed.

Lemma normpath_plain : normpath path = path.
Proof.
  destruct plain_path_head as (x & tail & Hpath & Hx).
  assert (split_char SLASH path = seg :: rest) as Hsplit
    by (apply split_join_segments; [done | apply plain_no_slash]).
  unfold normpath.
  assert (str_eqb path [] = false) as -> by (apply str_eqb_neq; by rewrite Hpath).
  assert (startswith path (lit "/") = false) as ->.
  { rewrite Hpath. change (lit "/") with [SLASH]. by apply startswith_head_ne. }
  cbv zeta. rewrite Hsplit, normpath_comps_plain by exact Hplain.
  change (repeat SLASH (Z.to_nat 0) ++ join (lit "/") (rev [] ++ seg :: rest))
    with path.
  by assert (str_eqb path [] = false) as -> by (apply str_eqb_neq; by rewrite Hpath).
Qed.

Lemma plain_path_not_dir : endswith path (lit "/") = false.
Proof.
  destruct (endswith path (lit "/")) eqn:E; [exfalso | done].
  apply endswith_char in E as [front Hfront].
  destruct (join_last [SLASH] (seg :: rest) ltac:(done)) as [front' Hlast].
  assert (In (List.last (seg :: rest) []) (seg :: rest)) as Hin.
  { destruct (exists_last (l:=seg :: rest) ltac:(done)) as (l' & a & ->).
    rewrite last_last. apply in_or_app. right. by left. }
  pose proof Hplain as H. rewrite List.Forall_forall in H.
  apply H, plain_segment_spec in Hin as (Hne & Hslash & _).
  destruct (exists_last Hne) as (l' & a & Hl).
  rewrite Hl in Hlast, Hslash. rewrite Hlast, app_assoc in Hfront.
  apply app_inj_tail in Hfront as [_ ->].
  rewrite has_char_app in Hslash. apply orb_false_iff in Hslash as [_ Hslash].
  unfold has_char in Hslash. simpl in Hslash. discriminate.
Qed.

Lemma plain_path_prefixes :
  existsb (startswith path) SKIP_PREFIXES = startswith seg (lit "._").
Proof.
  change (existsb (startswith path) SKIP_PREFIXES)
    with (startswith path (lit "./") || (startswith path (lit "._") || false)).
  rewrite orb_false_r.
  assert (startswith path (lit "./") = false) as ->.
  { destruct (join_head [SLASH] seg rest) as [tail Htail].
    pose proof Hplain as H. apply Forall_cons in H as [Hseg _].
    apply plain_segment_spec in Hseg as (Hne & Hslash & Hdot & _).
    rewrite Htail. change (lit "./") with [DOT; SLASH].
    destruct seg as [|x [|y seg']]; [done| |].
    - apply startswith_head_ne. intros ->. by apply Hdot.
    - apply no_slash_head in Hslash as [_ Hslash].
      apply no_slash_head in Hslash as [Hy _].
      cbn [app startswith].
      assert ((SLASH =? y) = false) as ->
        by (apply Z.eqb_neq; intros E; by apply Hy).
      cbn [andb]. apply andb_false_r. }
  cbn [orb]. destruct rest as [|seg2 rest']; [done|].
  rewrite join_cons2. by apply startswith_app_sep.
Qed.

End PlainPath.

(** X2: for a path made of ordinary segments (non-empty, without a slash,
    neither [.] nor [..]) joined by slashes, [should_skip_path] holds exactly
    when the first segment or the file name starts with [._], or one of the
    directory segments (all but the last) is one of [SKIP_DIRS].  The test
    for the prefix [./] and the trailing-slash test never fire on such a
    path. *)
Theorem should_skip_path_plain (segs : list pystr) :
  segs <> [] -> forallb plain_segment segs = true ->
  should_skip_path (join (lit "/") segs)
  = startswith (hd [] segs) (lit "._")
    || existsb (fun part => str_in part SKIP_DIRS) (all_but_last segs)
    || startswith (List.last segs []) (lit "._").
Proof.
  intros Hne Hall. destruct segs as [|seg rest]; [done|].
  assert (Forall (fun s => plain_segment s = true) (seg :: rest)) as Hplain
    by (apply List.Forall_forall; by apply forallb_forall).
  change (lit "/") with [SLASH].
  unfold should_skip_path.
  rewrite (normpath_plain seg rest Hplain).
  destruct (plain_path_head seg rest Hplain) as (x & tail & Hpath & Hx).
  assert (lstrip_char SLASH (join [SLASH] (seg :: rest)) = join [SLASH] (seg :: rest))
    as ->.
  { rewrite Hpath. cbn [lstrip_char]. by rewrite (proj2 (Z.eqb_neq x SLASH)). }
  cbv zeta.
  rewrite (plain_path_not_dir seg rest Hplain).
  rewrite (plain_path_prefixes seg rest Hplain).
  rewrite split_join_segments by (done || by apply plain_no_slash).
  rewrite basename_join by (done || by apply plain_no_slash).
  change (hd [] (seg :: rest)) with seg.
  destruct (startswith seg (lit "._")); [done|].
  destruct (existsb _ (all_but_last (seg :: rest))); [done|].
  by destruct (startswith (List.last (seg :: rest) []) (lit "._")).
Qed.

Lemma should_skip_path_plain_witness :
  should_skip_path (join (lit "/") [lit "src"; lit "node_modules"; lit "x.js"])
  = true.
Proof.
  rewrite (should_skip_path_plain [lit "src"; lit "node_modules"; lit "x.js"]).
  - reflexivity.
  - discriminate.
  - reflexivity.
Defined.

(** ** The handler's answers *)

Ltac bind_step H x E :=
  match type of H with
  | bind ?m _ = Ok _ => destruct m as [x|] eqn:E; cbn [bind] in H; [|discriminate H]
  end.

Lemma build_error_response_ok (container_repr : json -> pystr) (status : Z)
    (message : pystr) (exc : exn) (aws_request_id : json) (debug : bool) (r : response) :
  build_error_response container_repr status message exc aws_request_id debug = Ok r ->
  statusCode r = status /\ headers r = None.
Proof.
  unfold build_error_response. intros H. bind_step H payload Epayload.
  by injection H as <-.
Qed.

Lemma build_error_response_fits (container_repr : json -> pystr) (status : Z)
    (message : pystr) (exc : exn) (aws_request_id : json) (debug : bool) :
  error_message_fits debug (Raise exc) = true ->
  exists r,
    build_error_response container_repr status message exc aws_request_id debug = Ok r.
Proof.
  unfold build_error_response, error_message_fits, sliceable.
  destruct exc as [code msg rid|cls m].
  - destruct debug; cbn [negb orb]; [|by eexists].
    destruct (truthy msg); cbn [negb orb]; [|by eexists].
    destruct msg; try discriminate; by eexists.
  - destruct debug; by eexists.
Qed.

Lemma build_error_response_raises (container_repr : json -> pystr) (status : Z)
    (message : pystr) (exc : exn) (aws_request_id : json) (debug : bool) :
  error_message_fits debug (Raise exc) = false ->
  exists e,
    build_error_response container_repr status message exc aws_request_id debug = Raise e.
Proof.
  unfold build_error_response, error_message_fits, sliceable.
  destruct exc as [code msg rid|cls m]; [|discriminate].
  destruct debug; cbn [negb orb]; [|discriminate].
  destruct (truthy msg) eqn:Ht; cbn [negb orb]; [|discriminate].
  destruct msg; try discriminate; cbn [py_slice_value bind]; by eexists.
Qed.

(** X3: once the identifiers of the request have been read, the handler
    answers with status 200, 400, 500 or 502, and only the 200 answer
    carries the CORS headers, in every case but one. In debug mode, when
    the run fails with an AWS error whose message is truthy and neither a
    string nor a list, cutting the message to SAFE_ERROR_SLICE raises
    inside the [except] clause, and that exception leaves the handler. *)
Theorem lambda_handler_answers (W : world) (event aws_request_id : json)
    (ids : json * json) :
  request_ids W event = Ok ids ->
  let outcome :=
    analyze_archive W (zip_key_of W (fst ids) (snd ids)) (result_prefix_of W (fst ids)) in
  let fits := error_message_fits (is_debug_mode W event) outcome in
  (truthy (fst ids) && truthy (snd ids) = false \/ fits = true ->
   exists r, lambda_handler W event aws_request_id = Ok r
             /\ In (statusCode r) [200; 400; 500; 502]
             /\ headers r = (if statusCode r =? 200 then Some CORS_HEADERS else None))
  /\ (truthy (fst ids) && truthy (snd ids) = true -> fits = false ->
      exists e, lambda_handler W event aws_request_id = Raise e).
Proof.
  intros Hids outcome fits. subst outcome fits.
  unfold lambda_handler. rewrite Hids. cbn [bind]. rewrite <- negb_andb.
  destruct (truthy (fst ids) && truthy (snd ids)); cbn [negb].
  - split; [|intros _ Hfits].
    + intros [Hno|Hfits]; [discriminate|].
      destruct (analyze_archive W _ _) as [st|[code msg rid|cls m]].
      * eexists. split; [reflexivity|]. cbn [success_response statusCode headers].
        split; [by left | reflexivity].
      * destruct (build_error_response_fits (container_repr W) 502 MSG_CLIENT_ERROR
                    _ aws_request_id _ Hfits) as [r Hr].
        exists r. split; [exact Hr|].
        apply build_error_response_ok in Hr as [-> ->].
        split; [do 3 right; by left | reflexivity].
      * destruct (build_error_response_fits (container_repr W) 500 MSG_INTERNAL_ERROR
                    _ aws_request_id _ Hfits) as [r Hr].
        exists r. split; [exact Hr|].
        apply build_error_response_ok in Hr as [-> ->].
        split; [do 2 right; by left | reflexivity].
    + destruct (analyze_archive W _ _) as [st|[code msg rid|cls m]]; try discriminate.
      by apply build_error_response_raises.
  - split; [intros _ | discriminate].
    eexists. split; [reflexivity|]. cbn [statusCode headers].
    split; [right; by left | reflexivity].
Qed.

Lemma lambda_handler_answers_witness :
  (exists r, lambda_handler throttled_world sample_event JNull = Ok r
             /\ In (statusCode r) [200; 400; 500; 502]
             /\ headers r = (if statusCode r =? 200 then Some CORS_HEADERS else None))
  /\ (exists e, lambda_handler numeric_message_world sample_event JNull = Raise e).
Proof.
  split.
  - apply (lambda_handler_answers throttled_world sample_event JNull
             (JStr (lit "r-1"), JStr (lit "src.zip")) eq_refl).
    right. vm_compute. reflexivity.
  - apply (lambda_handler_answers numeric_message_world sample_event JNull
             (JStr (lit "r-1"), JStr (lit "src.zip")) eq_refl);
      vm_compute; reflexivity.
Defined.

(** X4: a request body that is not an object makes the handler itself fail.
    When the event carries a [body] that is neither a string nor an object
    (a null body, for one), or a string that parses to something other than
    an object, the lookup of [request_id] raises an [AttributeError] before
    the [try] block is entered, and the exception leaves the handler. *)
Theorem lambda_handler_body_not_object (W : world) (d : pydict) (b : json)
    (aws_request_id : json) :
  dict_get (lit "body") d = Some b ->
  (is_str b = false /\ is_dict b = false)
  \/ (exists s parsed, b = JStr s /\ json_loads W s = Some parsed
                       /\ is_dict parsed = false) ->
  exists msg,
    lambda_handler W (JDict d) aws_request_id = Raise (PyError "AttributeError" msg).
Proof.
  intros Hbody Hcase. unfold lambda_handler, request_ids, get_or at 1.
  rewrite Hbody.
  destruct Hcase as [[Hstr Hdict]|(s & parsed & -> & Hparsed & Hdict)]; cbn [bind].
  - destruct b; try discriminate; by eexists.
  - rewrite Hparsed. destruct parsed; try discriminate; by eexists.
Qed.

Lemma lambda_handler_body_not_object_witness :
  exists msg,
    lambda_handler throttled_world (JDict [(lit "body", JNull)]) JNull
    = Raise (PyError "AttributeError" msg).
Proof.
  apply (lambda_handler_body_not_object throttled_world [(lit "body", JNull)] JNull JNull).
  - reflexivity.
  - left. split; reflexivity.
Defined.





(** X6: with the debug mode off, the text of a failure never reaches the
    caller. The body of a 500 answer is the same whatever exception was
    caught, and the body of a 502 answer repeats the error code of the AWS
    service in place of its message. *)
Theorem lambda_handler_quiet_errors (W : world) (event aws_request_id : json)
    (r : response) :
  is_debug_mode W event = false ->
  lambda_handler W event aws_request_id = Ok r ->
  (statusCode r = 500 ->
   body r = json_dumps (JDict [(lit "message", JStr MSG_FAILURE);
                               (lit "reason", JStr MSG_INTERNAL_ERROR);
                               (lit "requestId", aws_request_id)]))
  /\ (statusCode r = 502 ->
      exists code service_request_id,
        body r = json_dumps
                   (JDict [(lit "message", JStr MSG_FAILURE);
                           (lit "reason", JStr MSG_CLIENT_ERROR);
                           (lit "requestId", aws_request_id);
                           (lit "error",
                            JDict [(lit "type", JStr (lit "AWS.ClientError"));
                                   (lit "code", code);
                                   (lit "message", code);
                                   (lit "serviceRequestId", service_request_id)])])).
Proof.
  intros Hdebug. unfold lambda_handler. rewrite Hdebug.
  destruct (request_ids W event) as [ids|]; cbn [bind]; [|discriminate].
  destruct (negb (truthy (fst ids)) || negb (truthy (snd ids))).
  - intros [= <-]. split; discriminate.
  - destruct (analyze_archive W _ _) as [st|[code msg rid|cls m]];
      unfold build_error_response; cbn [bind]; intros [= <-].
    + split; discriminate.
    + split; [discriminate|]. intros _. by exists code, rid.
    + split; [|discriminate]. intros _. reflexivity.
Qed.

Lemma lambda_handler_quiet_errors_witness :
  exists r,
    lambda_handler corrupt_archive_world sample_event (JStr (lit "req-7")) = Ok r
    /\ body r = json_dumps (JDict [(lit "message", JStr MSG_FAILURE);
                                   (lit "reason", JStr MSG_INTERNAL_ERROR);
                                   (lit "requestId", JStr (lit "req-7"))]).
Proof.
  eexists. split; [vm_compute; reflexivity|].
  refine (proj1 (lambda_handler_quiet_errors corrupt_archive_world sample_event
                   (JStr (lit "req-7")) _ _ _) _);
    vm_compute; reflexivity.
Defined.

(** ** Merging: infrastructure, deployment and findings *)

Lemma tag_finding_ok (project_name finding tagged : json) :
  tag_finding project_name finding = Ok tagged ->
  is_dict finding = true /\ tagged = tagged_finding project_name finding.
Proof.
  unfold tag_finding. destruct finding; simpl; try discriminate.
  by intros [= <-].
Qed.

Lemma append_each_all_ok {A B} (f : A -> result B) (xs : list A) :
  forall acc r, append_each f xs acc = Ok r -> Forall (fun x => exists y, f x = Ok y) xs.
Proof.
  induction xs as [|x xs IH]; intros acc r H; [constructor|].
  simpl in H. destruct (f x) as [y|] eqn:E; cbn [bind] in H; [|discriminate].
  constructor; [by exists y | by eapply IH].
Qed.

(** What one round of the loop does to the other sections of [merged]. *)
Lemma merge_one_sections (container_repr : json -> pystr) (m m' : merged)
    (idx : Z) (meta : json) :
  merge_one container_repr m idx meta = Ok m' ->
  (exists items, doc_aws meta = JDict items
                 /\ merge_aws (m_aws m) items = Ok (m_aws m'))
  /\ merge_deployment (m_deployment m) (doc_deployment meta) = Ok (m_deployment m')
  /\ m_external m' = m_external m ++ doc_external meta
  /\ m_findings m'
     = m_findings m
       ++ List.map (tagged_finding (doc_project_name idx meta)) (doc_findings meta)
  /\ Forall (fun finding => is_dict finding = true) (doc_findings meta).
Proof.
  unfold merge_one. intros H.
  bind_step H pn Epn. bind_step H root Eroot. bind_step H svcs Esvcs.
  bind_step H count Ecount. bind_step H items Eitems. bind_step H services Eservices.
  bind_step H infra Einfra. bind_step H aws_infra Eaws_infra. bind_step H aws Eaws.
  bind_step H ext_infra Eext. bind_step H ext_items Eext_items.
  bind_step H deploy Edeploy. bind_step H deployment Edeployment.
  bind_step H findings Efindings. bind_step H finding_items Efinding_items.
  bind_step H findings' Efindings'.
  injection H as <-. cbn [m_aws m_deployment m_external m_findings].
  apply get_or_ok in Epn as [_ ->], Einfra as [_ ->], Eaws_infra as [_ ->],
    Eext as [_ ->], Edeploy as [_ ->], Efindings as [_ ->].
  assert (doc_findings meta = finding_items) as Hfindings
    by (unfold doc_findings; by rewrite Efinding_items).
  assert (doc_external meta = ext_items) as Hexternal
    by (unfold doc_external; by rewrite Eext_items).
  repeat split.
  - fold (doc_aws meta) in Eaws. destruct (doc_aws meta) as [| | | | | |aws_items];
      try discriminate. by exists aws_items.
  - exact Edeployment.
  - by rewrite Hexternal.
  - rewrite Hfindings. eapply append_each_map; [|exact Efindings'].
    intros x y Hxy. by apply tag_finding_ok in Hxy as [_ ->].
  - rewrite Hfindings. apply append_each_all_ok in Efindings'.
    eapply Forall_impl; [exact Efindings'|].
    intros x [y Hy]. by apply tag_finding_ok in Hy as [? _].
Qed.

Lemma merge_loop_external_findings (container_repr : json -> pystr)
    (docs : list json) :
  forall (m m' : merged) (idx : Z),
    merge_loop container_repr m idx docs = Ok m' ->
    m_external m' = m_external m ++ concat (List.map doc_external docs)
    /\ m_findings m'
       = m_findings m
         ++ concat (map_indexed
                      (fun i meta =>
                         List.map (tagged_finding (doc_project_name i meta))
                           (doc_findings meta))
                      idx docs).
Proof.
  induction docs as [|meta rest IH]; intros m m' idx H; simpl in *.
  - injection H as <-. by rewrite !app_nil_r.
  - destruct (merge_one container_repr m idx meta) as [m1|] eqn:E1; cbn [bind] in H;
      [|discriminate].
    apply merge_one_sections in E1 as (_ & _ & He & Hf & _).
    apply IH in H as [-> ->]. rewrite He, Hf. by rewrite <- !app_assoc.
Qed.

(** X7: when [merge_metadata] returns, the merged [external] list is the
    concatenation of the documents' lists in document order (nothing is
    dropped or de-duplicated), and the merged [findings] are the documents'
    findings in the same order, each a copy that carries a [project] key
    with the name of its project. *)
Theorem merge_metadata_external_and_findings (container_repr : json -> pystr)
    (docs : list json) (merged : json) :
  merge_metadata container_repr docs = Ok merged ->
  (infra <- py_getitem (lit "infrastructure") merged ;;
   py_getitem (lit "external") infra)
  = Ok (JList (concat (List.map doc_external docs)))
  /\ py_getitem (lit "findings") merged
     = Ok (JList (concat (map_indexed
                            (fun i meta =>
                               List.map (tagged_finding (doc_project_name i meta))
                                 (doc_findings meta))
                            0 docs))).
Proof.
  unfold merge_metadata. intros H.
  destruct (merge_loop container_repr merged_init 0 docs) as [m|] eqn:E;
    cbn [bind] in H; [|discriminate].
  injection H as <-.
  apply merge_loop_external_findings in E as [He Hf].
  cbn [merged_init m_external m_findings app] in He, Hf.
  unfold merged_json. split.
  - rewrite <- He. reflexivity.
  - rewrite <- Hf. reflexivity.
Qed.

Lemma merge_metadata_external_and_findings_witness :
  exists merged,
    merge_metadata (fun _ => []) two_project_documents = Ok merged
    /\ (infra <- py_getitem (lit "infrastructure") merged ;;
        py_getitem (lit "external") infra)
       = Ok (JList [JStr (lit "stripe")])
    /\ py_getitem (lit "findings") merged
       = Ok (JList [JDict [(lit "type", JStr (lit "info"));
                           (lit "project", JStr (lit "infra"))]]).
Proof.
  eexists. split; [vm_compute; reflexivity|].
  exact (merge_metadata_external_and_findings (fun _ => []) two_project_documents _
           eq_refl).
Defined.

Lemma service_counts_sum (container_repr : json -> pystr) (docs : list json) :
  forall idx,
    sum_Z (List.map entry_service_count (map_indexed project_entry idx docs))
    = len (concat (map_indexed
                     (fun i meta =>
                        List.map (prefixed_service container_repr (doc_project_name i meta))
                          (doc_services meta))
                     idx docs)).
Proof.
  induction docs as [|meta rest IH]; intros idx; [reflexivity|].
  cbn [map_indexed List.map concat sum_Z fold_right].
  fold (sum_Z (List.map entry_service_count (map_indexed project_entry (idx + 1) rest))).
  rewrite IH, len_app.
  assert (entry_service_count (project_entry idx meta) = len (doc_services meta)) as ->
    by reflexivity.
  unfold len. by rewrite length_map.
Qed.

(** X8: when [merge_metadata] returns, the [serviceCount] values of the
    [projects] entries add up to the number of merged services: every
    service that was counted was also copied, and no other. *)
Theorem merge_metadata_service_counts (container_repr : json -> pystr)
    (docs : list json) (merged : json) :
  merge_metadata container_repr docs = Ok merged ->
  exists projects services,
    py_getitem (lit "projects") merged = Ok (JList projects)
    /\ py_getitem (lit "services") merged = Ok (JList services)
    /\ sum_Z (List.map entry_service_count projects) = len services.
Proof.
  intros H. apply merge_metadata_ok_projects_services in H as [Hp Hs].
  eexists _, _. split; [exact Hp|]. split; [exact Hs|].
  apply service_counts_sum.
Qed.

Lemma merge_metadata_service_counts_witness :
  exists merged,
    merge_metadata (fun _ => []) two_project_documents = Ok merged
    /\ exists projects services,
         py_getitem (lit "projects") merged = Ok (JList projects)
         /\ py_getitem (lit "services") merged = Ok (JList services)
         /\ sum_Z (List.map entry_service_count projects) = len services.
Proof.
  eexists. split; [vm_compute; reflexivity|].
  apply (merge_metadata_service_counts (fun _ => []) two_project_documents).
  vm_compute. reflexivity.
Defined.

(** A value that is not an object, once recorded under a key of the AWS
    section, stays as it is. *)
Lemma merge_aws_keeps (items : pydict) (key : pystr) (v : json) :
  is_dict v = false ->
  forall aws aws',
    merge_aws aws items = Ok aws' -> dict_get key aws = Some v ->
    dict_get key aws' = Some v.
Proof.
  intros Hv. induction items as [|[k value] items IH]; intros aws aws' H Hget.
  - simpl in H. by injection H as <-.
  - cbn [merge_aws] in H. destruct (truthy value); [|by eapply IH].
    destruct (dict_has k aws) eqn:Hhas; cbn [negb] in H.
    + destruct value as [| | | | | |vd]; try by eapply IH.
      destruct (dict_get k aws) as [[| | | | | |ed]|] eqn:Ek; try discriminate.
      eapply IH; [exact H|].
      destruct (str_eqb k key) eqn:Ekey.
      * apply str_eqb_eq in Ekey as ->. rewrite Hget in Ek. injection Ek as ->.
        discriminate.
      * apply str_eqb_neq in Ekey. by rewrite dict_get_set_ne.
    + eapply IH; [exact H|].
      destruct (str_eqb k key) eqn:Ekey.
      * apply str_eqb_eq in Ekey as ->.
        assert (dict_has key aws = true) as Hin
          by (apply dict_has_get; by exists v).
        congruence.
      * apply str_eqb_neq in Ekey. by rewrite dict_get_set_ne.
Qed.

(** The first non-empty value given for a new key is recorded. *)
Lemma merge_aws_records (items : pydict) (key : pystr) (v : json) :
  is_dict v = false -> truthy v = true ->
  forall aws aws',
    merge_aws aws items = Ok aws' -> dict_has key aws = false ->
    dict_get key items = Some v ->
    dict_get key aws' = Some v.
Proof.
  intros Hv Ht. induction items as [|[k value] items IH]; intros aws aws' H Hnew Hget;
    [discriminate|].
  cbn [merge_aws] in H. cbn [dict_get] in Hget.
  destruct (str_eqb k key) eqn:Ekey.
  - apply str_eqb_eq in Ekey as ->. injection Hget as ->.
    rewrite Ht, Hnew in H. cbn [negb] in H.
    eapply merge_aws_keeps; [exact Hv | exact H | apply dict_get_set_eq].
  - assert (forall x, dict_has key (dict_set k x aws) = false) as Hstill.
    { intros x. destruct (dict_has key (dict_set k x aws)) eqn:E; [|done].
      apply dict_has_get in E as [w Hw].
      rewrite dict_get_set_ne in Hw by (by apply str_eqb_neq).
      assert (dict_has key aws = true) by (apply dict_has_get; by exists w).
      congruence. }
    destruct (truthy value); [|by eapply IH].
    destruct (dict_has k aws) eqn:Hhas; cbn [negb] in H.
    + destruct value as [| | | | | |vd]; try by eapply IH.
      destruct (dict_get k aws) as [[| | | | | |ed]|] eqn:Ek; try discriminate.
      eapply IH; [exact H | apply Hstill | exact Hget].
    + eapply IH; [exact H | apply Hstill | exact Hget].
Qed.

Lemma merge_loop_aws_keeps (container_repr : json -> pystr) (key : pystr) (v : json)
    (docs : list json) :
  is_dict v = false ->
  forall (m m' : merged) (idx : Z),
    merge_loop container_repr m idx docs = Ok m' ->
    dict_get key (m_aws m) = Some v -> dict_get key (m_aws m') = Some v.
Proof.
  intros Hv. induction docs as [|meta rest IH]; intros m m' idx H Hget; simpl in H.
  - by injection H as <-.
  - destruct (merge_one container_repr m idx meta) as [m1|] eqn:E1; cbn [bind] in H;
      [|discriminate].
    apply merge_one_sections in E1 as ((items & _ & Haws) & _).
    eapply IH; [exact H|]. by eapply merge_aws_keeps.
Qed.

(** X9: in the AWS section the first project wins for every value that is
    not an object. When the first document gives a key a non-empty value
    such as a list, a string or [true], the merged document has exactly
    that value under the key, whatever the later documents say about it:
    their values for the key are dropped, not appended. *)
Theorem merge_metadata_aws_first_wins (container_repr : json -> pystr)
    (first : json) (rest : list json) (merged : json) (items : pydict)
    (key : pystr) (v : json) :
  merge_metadata container_repr (first :: rest) = Ok merged ->
  doc_aws first = JDict items -> dict_get key items = Some v ->
  truthy v = true -> is_dict v = false ->
  (infra <- py_getitem (lit "infrastructure") merged ;;
   aws <- py_getitem (lit "aws") infra ;;
   py_getitem key aws) = Ok v.
Proof.
  unfold merge_metadata. intros H Hitems Hget Ht Hv.
  destruct (merge_loop container_repr merged_init 0 (first :: rest)) as [m|] eqn:E;
    cbn [bind] in H; [|discriminate].
  injection H as <-. cbn [merge_loop] in E.
  destruct (merge_one container_repr merged_init 0 first) as [m1|] eqn:E1;
    cbn [bind] in E; [|discriminate].
  apply merge_one_sections in E1 as ((items' & Hitems' & Haws) & _).
  rewrite Hitems in Hitems'. injection Hitems' as <-.
  assert (dict_get key (m_aws m) = Some v) as Hfinal.
  { eapply merge_loop_aws_keeps; [exact Hv | exact E |].
    eapply merge_aws_records; [exact Hv | exact Ht | exact Haws | reflexivity | exact Hget]. }
  unfold merged_json.
  change (py_getitem (lit "infrastructure") _)
    with (Ok (JDict [(lit "aws", JDict (m_aws m)); (lit "external", JList (m_external m))])).
  cbn [bind].
  change (py_getitem (lit "aws") _) with (Ok (JDict (m_aws m))).
  cbn [bind py_getitem]. by rewrite Hfinal.
Qed.

Lemma merge_metadata_aws_first_wins_witness :
  exists merged,
    merge_metadata (fun _ => []) two_bucket_documents = Ok merged
    /\ (infra <- py_getitem (lit "infrastructure") merged ;;
        aws <- py_getitem (lit "aws") infra ;;
        py_getitem (lit "s3") aws) = Ok (JList [JStr (lit "assets")]).
Proof.
  eexists. split; [vm_compute; reflexivity|].
  apply (merge_metadata_aws_first_wins (fun _ => [])
           (hd JNull two_bucket_documents) (tl two_bucket_documents) _
           [(lit "s3", JList [JStr (lit "assets")])]);
    vm_compute; reflexivity.
Defined.

Lemma merge_deployment_keeps (k : pystr) (current deploy r : json) :
  truthy current = true -> merge_deployment current deploy = Ok r ->
  k <> TERRAFORM_HINTS ->
  truthy r = true /\ get_or k JNull r = get_or k JNull current.
Proof.
  intros Ht H Hk. unfold merge_deployment in H. rewrite Ht in H. cbn [negb] in H.
  bind_step H has Ehas. destruct has; [|by injection H as <-].
  bind_step H has_current Ecur. destruct has_current; [by injection H as <-|].
  cbn [negb] in H. bind_step H hints Ehints.
  destruct current as [| | | | | |d]; try discriminate. injection H as <-.
  split.
  - destruct d as [|[k0 v0] d]; [done|]. cbn [dict_set]. by destruct (str_eqb k0 _).
  - cbn [get_or]. rewrite dict_get_set_ne; [done|]. intros E. by apply Hk.
Qed.

Lemma merge_loop_deployment_keeps (container_repr : json -> pystr) (k : pystr)
    (docs : list json) :
  k <> TERRAFORM_HINTS ->
  forall (m m' : merged) (idx : Z),
    merge_loop container_repr m idx docs = Ok m' ->
    truthy (m_deployment m) = true ->
    get_or k JNull (m_deployment m') = get_or k JNull (m_deployment m).
Proof.
  intros Hk. induction docs as [|meta rest IH]; intros m m' idx H Ht; simpl in H.
  - by injection H as <-.
  - destruct (merge_one container_repr m idx meta) as [m1|] eqn:E1; cbn [bind] in H;
      [|discriminate].
    apply merge_one_sections in E1 as (_ & Hdep & _).
    destruct (merge_deployment_keeps k _ _ _ Ht Hdep Hk) as [Ht1 <-].
    by eapply IH.
Qed.

(** X10: the deployment section is that of the first project. When the
    first document has a non-empty [deployment], every key of the merged
    [deployment] other than [terraformHints] has the value the first
    document gives it (or none, if it gives none): what later documents say
    under such a key is dropped. *)
Theorem merge_metadata_deployment_first_wins (container_repr : json -> pystr)
    (first : json) (rest : list json) (merged : json) (k : pystr) :
  merge_metadata container_repr (first :: rest) = Ok merged ->
  truthy (doc_deployment first) = true -> k <> TERRAFORM_HINTS ->
  (deployment <- py_getitem (lit "deployment") merged ;; get_or k JNull deployment)
  = get_or k JNull (doc_deployment first).
Proof.
  unfold merge_metadata. intros H Ht Hk.
  destruct (merge_loop container_repr merged_init 0 (first :: rest)) as [m|] eqn:E;
    cbn [bind] in H; [|discriminate].
  injection H as <-. cbn [merge_loop] in E.
  destruct (merge_one container_repr merged_init 0 first) as [m1|] eqn:E1;
    cbn [bind] in E; [|discriminate].
  apply merge_one_sections in E1 as (_ & Hdep & _).
  injection Hdep as Hdep.
  apply (merge_loop_deployment_keeps container_repr k rest Hk) in E;
    [|by rewrite <- Hdep].
  rewrite <- Hdep in E. rewrite <- E. reflexivity.
Qed.

Lemma merge_metadata_deployment_first_wins_witness :
  exists merged,
    merge_metadata (fun _ => []) two_bucket_documents = Ok merged
    /\ (deployment <- py_getitem (lit "deployment") merged ;;
        get_or (lit "ci") JNull deployment) = Ok JNull.
Proof.
  eexists. split; [vm_compute; reflexivity|].
  apply (merge_metadata_deployment_first_wins (fun _ => [])
           (hd JNull two_bucket_documents) (tl two_bucket_documents) _ (lit "ci")).
  - vm_compute. reflexivity.
  - reflexivity.
  - discriminate.
Defined.

Lemma merge_loop_items_objects (container_repr : json -> pystr) (docs : list json) :
  forall (m m' : merged) (idx : Z),
    merge_loop container_repr m idx docs = Ok m' ->
    forall meta item,
      In meta docs -> In item (doc_services meta) \/ In item (doc_findings meta) ->
      is_dict item = true.
Proof.
  induction docs as [|doc rest IH]; intros m m' idx H meta item Hmeta Hitem;
    [destruct Hmeta|].
  simpl in H.
  destruct (merge_one container_repr m idx doc) as [m1|] eqn:E1; cbn [bind] in H;
    [|discriminate].
  destruct Hmeta as [->|Hmeta]; [|by eapply IH].
  pose proof (merge_one_projects_services _ _ _ _ _ E1) as (_ & _ & Hsvcs).
  pose proof (merge_one_sections _ _ _ _ _ E1) as (_ & _ & _ & _ & Hfindings).
  rewrite List.Forall_forall in Hsvcs, Hfindings.
  destruct Hitem as [Hitem|Hitem]; [by apply Hsvcs | by apply Hfindings].
Qed.

(** X11: [merge_metadata] raises as soon as one document lists a service or
    a finding that is not an object (a service given by its name only, for
    one): such an item has no [copy] that could be tagged, and nothing is
    merged at all. *)
Theorem merge_metadata_rejects_plain_items (container_repr : json -> pystr)
    (docs : list json) (meta item : json) :
  In meta docs -> In item (doc_services meta) \/ In item (doc_findings meta) ->
  is_dict item = false ->
  exists e, merge_metadata container_repr docs = Raise e.
Proof.
  intros Hmeta Hitem Hplain. unfold merge_metadata.
  destruct (merge_loop container_repr merged_init 0 docs) as [m|e] eqn:E;
    cbn [bind]; [|by exists e].
  pose proof (merge_loop_items_objects _ _ _ _ _ E meta item Hmeta Hitem).
  congruence.
Qed.

Lemma merge_metadata_rejects_plain_items_witness :
  exists e, merge_metadata (fun _ => []) documents_with_named_service = Raise e.
Proof.
  apply (merge_metadata_rejects_plain_items (fun _ => []) documents_with_named_service
           (JDict [(lit "services", JList [JStr (lit "worker")])]) (JStr (lit "worker"))).
  - right. left. reflexivity.
  - left. left. reflexivity.
  - reflexivity.
Defined.

(** ** The collection loop *)

Lemma startswith_prefix (s p : pystr) :
  startswith s p = true -> s = p ++ drop (length p) s.
Proof.
  revert s. induction p as [|c p IH]; intros s H; [done|].
  destruct s as [|d s]; [discriminate|]. cbn [startswith] in H.
  apply andb_prop in H as [Hc Hp]. apply Z.eqb_eq in Hc as ->.
  cbn [length drop app]. f_equal. by apply IH.
Qed.

(** X12: the path a file summary carries is the archive name with the
    project root and one slash taken off the front: putting them back
    gives the archive name. *)
Theorem rel_path_of_round_trip (project_root name : pystr) :
  project_root <> lit "." -> startswith name (project_root ++ lit "/") = true ->
  project_root ++ lit "/" ++ rel_path_of project_root name = name.
Proof.
  intros Hroot Hstarts. unfold rel_path_of.
  rewrite (proj2 (str_eqb_neq _ _) Hroot), Hstarts. cbn [negb andb].
  rewrite (startswith_prefix _ _ Hstarts) at 2. rewrite <- app_assoc.
  do 2 f_equal. unfold slice_from. f_equal.
  rewrite length_app. change (length (lit "/")) with 1%nat. unfold len. lia.
Qed.

Lemma rel_path_of_round_trip_witness :
  lit "infra" ++ lit "/" ++ rel_path_of (lit "infra") (lit "infra/main.tf")
  = lit "infra/main.tf".
Proof.
  apply rel_path_of_round_trip; [discriminate | reflexivity].
Defined.

(** The collection loop works through the candidates in order and never
    skips one: the summaries it adds are those of the first [k]
    candidates, for some [k]. *)
Lemma collect_files_prefix (L : limits) (read : pystr -> result pybytes)
    (project_root : pystr) (names : list pystr) :
  forall (st cs : collect_state),
    collect_files L read project_root names st = Ok cs ->
    exists k,
      (k <= length names)%nat
      /\ List.map (fun fs => (fs_path fs, fs_languageHint fs)) (file_summaries cs)
         = List.map (fun fs => (fs_path fs, fs_languageHint fs)) (file_summaries st)
           ++ List.map (fun name => (rel_path_of project_root name,
                                     lstrip_char DOT (snd (splitext name))))
                (take k names)
      /\ total_files_collected cs = total_files_collected st + Z.of_nat k.
Proof.
  induction names as [|name rest IH]; intros st cs H.
  - injection H as <-. exists 0%nat. cbn [take List.map]. rewrite app_nil_r.
    repeat split; [done | lia].
  - assert (exists k,
              (k <= length (name :: rest))%nat
              /\ List.map (fun fs => (fs_path fs, fs_languageHint fs)) (file_summaries st)
                 = List.map (fun fs => (fs_path fs, fs_languageHint fs)) (file_summaries st)
                   ++ List.map (fun name => (rel_path_of project_root name,
                                             lstrip_char DOT (snd (splitext name))))
                        (take k (name :: rest))
              /\ total_files_collected st = total_files_collected st + Z.of_nat k)
      as Hstop.
    { exists 0%nat. cbn [take List.map]. rewrite app_nil_r.
      repeat split; [cbn [length]; lia | lia]. }
    assert (forall snippet size,
              collect_files L read project_root rest
                (accept_file project_root name (snd (splitext name)) snippet size st)
              = Ok cs ->
              exists k,
                (k <= length (name :: rest))%nat
                /\ List.map (fun fs => (fs_path fs, fs_languageHint fs)) (file_summaries cs)
                   = List.map (fun fs => (fs_path fs, fs_languageHint fs))
                       (file_summaries st)
                     ++ List.map (fun name => (rel_path_of project_root name,
                                               lstrip_char DOT (snd (splitext name))))
                          (take k (name :: rest))
                /\ total_files_collected cs = total_files_collected st + Z.of_nat k)
      as Hnext.
    { intros snippet size Hrest. apply IH in Hrest as (k & Hk & Hmap & Hcount).
      exists (S k). cbn [length take List.map].
      split; [lia|]. split.
      - rewrite Hmap. cbn [accept_file file_summaries].
        rewrite map_app, <- app_assoc. reflexivity.
      - rewrite Hcount. cbn [accept_file total_files_collected]. lia. }
    rewrite collect_files_unfold in H.
    destruct (max_total_bytes L <=? used_total_bytes st);
      [injection H as <-; exact Hstop|].
    bind_step H raw Eraw. cbv zeta in H.
    bind_step H snippet Esnippet. bind_step H encoded Eencoded.
    destruct (max_total_bytes L <? used_total_bytes st + len encoded).
    + destruct (max_total_bytes L - used_total_bytes st <=? 0);
        [injection H as <-; exact Hstop|].
      bind_step H encoded' Eencoded'. by eapply Hnext.
    + by eapply Hnext.
Qed.

(** X13: a project's summaries are its best-ranked candidates. When the
    collection for a project finishes without an exception, the summaries
    are those of the first [k] ranked candidates, in rank order and none
    skipped, where [k] is at most MAX_FILES_PER_PROJECT and at most what is
    left of MAX_TOTAL_FILES; each summary carries the path relative to the
    project root and the extension without its leading dots, and the file
    counter has advanced by [k]. *)
Theorem collect_project_takes_top_ranked (W : world) (L : limits)
    (read : pystr -> result pybytes) (project_root : pystr)
    (project_files : gset pystr) (st : run_state) (cs : collect_state) :
  collect_project W L read project_root project_files st = Ok cs ->
  0 <= max_files_per_project L -> run_files st < max_total_files L ->
  exists k,
    Z.of_nat k <= Z.min (max_files_per_project L) (max_total_files L - run_files st)
    /\ List.map (fun fs => (fs_path fs, fs_languageHint fs)) (file_summaries cs)
       = List.map (fun name => (rel_path_of project_root name,
                                lstrip_char DOT (snd (splitext name))))
           (take k (ranked_candidates (set_iter W) project_files))
    /\ total_files_collected cs = run_files st + Z.of_nat k.
Proof.
  unfold collect_project. intros H Hper Hroom.
  set (limit := Z.min (max_files_per_project L) (max_total_files L - run_files st)) in *.
  assert (0 <= limit) as Hlimit by lia.
  apply collect_files_prefix in H as (k & Hk & Hmap & Hcount).
  cbn [file_summaries total_files_collected List.map app] in Hmap, Hcount.
  unfold py_slice_to in Hk, Hmap. rewrite (proj2 (Z.ltb_ge _ _) Hlimit) in Hk, Hmap.
  rewrite length_take in Hk.
  exists k. split; [lia|]. split; [|exact Hcount].
  rewrite Hmap, take_take. do 2 f_equal. lia.
Qed.

Lemma collect_project_takes_top_ranked_witness :
  exists cs k,
    collect_project throttled_world scenario_limits scenario_read (lit ".")
      (list_to_set (List.map lit ["a.tf"; "b.yml"]%string)) run_init = Ok cs
    /\ Z.of_nat k <= 50
    /\ List.map (fun fs => (fs_path fs, fs_languageHint fs)) (file_summaries cs)
       = List.map (fun name => (rel_path_of (lit ".") name,
                                lstrip_char DOT (snd (splitext name))))
           (take k (ranked_candidates elements
                      (list_to_set (List.map lit ["a.tf"; "b.yml"]%string))))
    /\ total_files_collected cs = 0 + Z.of_nat k.
Proof.
  assert (exists cs,
            collect_project throttled_world scenario_limits scenario_read (lit ".")
              (list_to_set (List.map lit ["a.tf"; "b.yml"]%string)) run_init = Ok cs)
    as [cs Hcs] by (eexists; vm_compute; reflexivity).
  destruct (collect_project_takes_top_ranked _ _ _ _ _ _ _ Hcs)
    as (k & Hk & Hmap & Hcount); [vm_compute; discriminate | reflexivity |].
  exists cs, k. split; [exact Hcs|]. split; [exact Hk|]. split; [exact Hmap|].
  exact Hcount.
Defined.

(** ** The documents of the project loop *)

Lemma analyze_project_labels (W : world) (summaries : list file_summary)
    (project_name project_root : pystr) (doc : json) :
  analyze_project W summaries project_name project_root = Ok doc ->
  exists d, doc = JDict d
            /\ dict_get (lit "projectName") d = Some (JStr project_name)
            /\ dict_get (lit "projectRoot") d = Some (JStr project_root).
Proof.
  unfold analyze_project. intros H. bind_step H llm_raw Eraw.
  destruct llm_raw as [| | | |raw| |]; try discriminate.
  destruct (json_loads W _) as [[| | | | | |d]|]; try discriminate.
  injection H as <-. eexists. split; [reflexivity|]. split.
  - rewrite dict_get_set_ne by discriminate. apply dict_get_set_eq.
  - apply dict_get_set_eq.
Qed.

Lemma process_projects_labels (W : world) (L : limits)
    (read : pystr -> result pybytes) (projects : roots_dict) :
  forall st st' : run_state,
    process_projects W L read projects st = Ok st' ->
    exists roots added,
      sublist roots (List.map fst projects)
      /\ metadata_list st' = metadata_list st ++ added
      /\ Forall2 labelled roots added.
Proof.
  induction projects as [|[project_root project_files] rest IH]; intros st st' H.
  - injection H as <-. exists [], []. rewrite app_nil_r.
    repeat split; constructor.
  - rewrite process_projects_unfold in H.
    destruct (max_total_files L <=? run_files st).
    { injection H as <-. exists [], []. rewrite app_nil_r.
      repeat split; [apply sublist_nil_l | constructor]. }
    bind_step H cs Ecs.
    apply IH in H as (roots & added & Hsub & Hlist & Hall).
    unfold after_project in Hlist. cbn [metadata_list] in Hlist.
    destruct (file_summaries cs) as [|fs summaries].
    { exists roots, added. repeat split; [by apply sublist_cons | done | done]. }
    destruct (analyze_project W (fs :: summaries) (project_name_for project_root)
                project_root) as [doc|] eqn:Edoc.
    + exists (project_root :: roots), (doc :: added). repeat split.
      * cbn [List.map fst]. by apply sublist_skip.
      * rewrite Hlist, <- app_assoc. reflexivity.
      * constructor; [|done]. by apply analyze_project_labels in Edoc.
    + exists roots, added. repeat split; [by apply sublist_cons | done | done].
Qed.

(** X14: every document the project loop hands to the merge step is an
    object whose [projectName] and [projectRoot] are the ones the handler
    derived from the archive, whatever the model answered under these
    keys; the documents come in the order of the projects, at most one per
    project. *)
Theorem process_projects_labels_documents (W : world) (L : limits)
    (read : pystr -> result pybytes) (projects : roots_dict) (st : run_state) :
  process_projects W L read projects run_init = Ok st ->
  exists roots,
    sublist roots (List.map fst projects)
    /\ Forall2 labelled roots (metadata_list st).
Proof.
  intros H. apply process_projects_labels in H as (roots & added & Hsub & Hlist & Hall).
  exists roots. split; [done|]. by rewrite Hlist.
Qed.

Lemma process_projects_labels_documents_witness :
  exists st,
    process_projects renaming_world source_limits (fun _ => Ok (lit "region = 1"))
      [(lit "infra", {[lit "infra/main.tf"]})] run_init = Ok st
    /\ exists roots,
         sublist roots [lit "infra"] /\ Forall2 labelled roots (metadata_list st).
Proof.
  eexists. split; [vm_compute; reflexivity|].
  apply (process_projects_labels_documents renaming_world source_limits
           (fun _ => Ok (lit "region = 1")) [(lit "infra", {[lit "infra/main.tf"]})]).
  vm_compute. reflexivity.
Defined.

(** ** What a 200 answer reports *)

Lemma collect_files_counts (L : limits) (read : pystr -> result pybytes)
    (project_root : pystr) (names : list pystr) :
  forall (st cs : collect_state),
    collect_files L read project_root names st = Ok cs ->
    exists k,
      0 <= k <= len names
      /\ total_files_collected cs = total_files_collected st + k
      /\ len (file_summaries cs) = len (file_summaries st) + k.
Proof.
  induction names as [|name rest IH]; intros st cs H.
  - injection H as <-. exists 0. unfold len. cbn [length]. lia.
  - assert (len (name :: rest) = len rest + 1) as Hlen
      by (unfold len; cbn [length]; lia).
    assert (forall snippet size,
              collect_files L read project_root rest
                (accept_file project_root name (snd (splitext name)) snippet size st)
              = Ok cs ->
              exists k,
                0 <= k <= len (name :: rest)
                /\ total_files_collected cs = total_files_collected st + k
                /\ len (file_summaries cs) = len (file_summaries st) + k) as Hnext.
    { intros snippet size Hrest. apply IH in Hrest as (k & Hk & Hcount & Hsum).
      exists (k + 1). cbn [accept_file total_files_collected file_summaries] in *.
      rewrite len_app in Hsum. change (len [_]) with 1 in Hsum.
      pose proof (len_nonneg rest). lia. }
    rewrite collect_files_unfold in H.
    destruct (max_total_bytes L <=? used_total_bytes st).
    { injection H as <-. exists 0. pose proof (len_nonneg rest). lia. }
    bind_step H raw Eraw. cbv zeta in H.
    bind_step H snippet Esnippet. bind_step H encoded Eencoded.
    destruct (max_total_bytes L <? used_total_bytes st + len encoded).
    + destruct (max_total_bytes L - used_total_bytes st <=? 0).
      { injection H as <-. exists 0. pose proof (len_nonneg rest). lia. }
      bind_step H encoded' Eencoded'. by eapply Hnext.
    + by eapply Hnext.
Qed.

(** Every document of the project loop is paid for by at least one
    collected file, and the file counter stays within the cap. *)
Lemma process_projects_counts (W : world) (L : limits)
    (read : pystr -> result pybytes) (projects : roots_dict) :
  0 <= max_files_per_project L ->
  forall st st' : run_state,
    process_projects W L read projects st = Ok st' ->
    run_files st <= max_total_files L ->
    run_files st <= run_files st' <= max_total_files L
    /\ len (metadata_list st') - len (metadata_list st)
       <= run_files st' - run_files st.
Proof.
  intros Hper.
  induction projects as [|[project_root project_files] rest IH]; intros st st' H Hcap.
  - injection H as <-. lia.
  - rewrite process_projects_unfold in H.
    destruct (Z.leb_spec (max_total_files L) (run_files st)) as [Hfull|Hroom].
    { injection H as <-. lia. }
    bind_step H cs Ecs.
    unfold collect_project in Ecs.
    apply collect_files_counts in Ecs as (k & Hk & Hcount & Hsum).
    cbn [total_files_collected file_summaries] in Hcount, Hsum.
    change (len (@nil file_summary)) with 0 in Hsum.
    pose proof (len_py_slice_to
                  (Z.min (max_files_per_project L) (max_total_files L - run_files st))
                  (ranked_candidates (set_iter W) project_files) ltac:(lia)) as Hslice.
    apply IH in H; cbn [after_project run_files metadata_list] in *; [|lia].
    destruct H as [Hfiles Hdocs]. split; [lia|].
    destruct (file_summaries cs) as [|fs summaries] eqn:Esum; [lia|].
    assert (1 <= k).
    { unfold len in Hsum. cbn [length] in Hsum. lia. }
    destruct (analyze_project W _ _ _); [|lia].
    rewrite len_app in Hdocs. change (len [_]) with 1 in Hdocs. lia.
Qed.

Lemma analyze_archive_run (W : world) (zip_key result_prefix : pystr) (st : run_state) :
  analyze_archive W zip_key result_prefix = Ok st ->
  exists (zip_ref : zip_archive) (projects : roots_dict),
    process_projects W source_limits (zip_read zip_ref) projects run_init = Ok st.
Proof.
  unfold analyze_archive. intros H.
  bind_step H zip_content Eget. bind_step H zip_ref Ezip. cbv zeta in H.
  bind_step H st0 Erun. exists zip_ref. eexists.
  assert (st0 = st) as <-; [|exact Erun].
  destruct (metadata_list st0); [by injection H|].
  bind_step H final Efinal. cbv zeta in H. cbn [SAVE_METADATA_TO_S3] in H.
  unfold SAVE_METADATA_TO_S3 in H.
  bind_step H payload Epayload. bind_step H put Eput. by injection H.
Qed.

(** X15: every 200 answer reports counts that fit together: the number of
    projects analysed is at most the number of files collected, which is
    at most MAX_TOTAL_FILES. No project is reported as analysed without a
    file of its own having been collected. *)
Theorem lambda_handler_success_counts (W : world) (event aws_request_id : json)
    (r : response) :
  lambda_handler W event aws_request_id = Ok r -> statusCode r = 200 ->
  exists projects_analyzed files_collected,
    body r = json_dumps (JDict [(lit "message", JStr MSG_SUCCESS);
                                (lit "projectsAnalyzed", JInt projects_analyzed);
                                (lit "filesCollected", JInt files_collected)])
    /\ 0 <= projects_analyzed <= files_collected
    /\ files_collected <= MAX_TOTAL_FILES.
Proof.
  unfold lambda_handler. intros H Hstatus.
  bind_step H ids Eids. cbv zeta in H.
  destruct (negb (truthy (fst ids)) || negb (truthy (snd ids)));
    [injection H as <-; discriminate|].
  destruct (analyze_archive W _ _) as [st|[code msg rid|cls m]] eqn:Erun;
    [injection H as <- | | ];
    try (apply build_error_response_ok in H as [Hcode _]; rewrite Hcode in Hstatus;
         discriminate).
  apply analyze_archive_run in Erun as (zip_ref & projects & Erun).
  apply process_projects_counts in Erun as [Hfiles Hdocs];
    [|vm_compute; discriminate|vm_compute; discriminate].
  exists (len (metadata_list st)), (run_files st).
  split; [reflexivity|].
  cbn [run_init run_files metadata_list] in Hfiles, Hdocs.
  change (len (@nil json)) with 0 in Hdocs.
  change (max_total_files source_limits) with MAX_TOTAL_FILES in Hfiles.
  pose proof (len_nonneg (metadata_list st)). lia.
Qed.

Lemma lambda_handler_success_counts_witness :
  exists r,
    lambda_handler renaming_world sample_event JNull = Ok r
    /\ exists projects_analyzed files_collected,
         body r = json_dumps (JDict [(lit "message", JStr MSG_SUCCESS);
                                     (lit "projectsAnalyzed", JInt projects_analyzed);
                                     (lit "filesCollected", JInt files_collected)])
         /\ 0 <= projects_analyzed <= files_collected
         /\ files_collected <= MAX_TOTAL_FILES.
Proof.
  eexists. split; [vm_compute; reflexivity|].
  apply (lambda_handler_success_counts renaming_world sample_event JNull);
    vm_compute; reflexivity.
Defined.

(** ** The minifier *)

Lemma collapse_spaces_tidy (s : pystr) :
  forall in_run, Forall tidy_char (collapse_spaces_from in_run s).
Proof.
  induction s as [|c s IH]; intros in_run; cbn [collapse_spaces_from]; [constructor|].
  destruct (is_space c) eqn:E.
  - destruct in_run; [apply IH|]. constructor; [by intros _ | apply IH].
  - constructor; [|apply IH]. unfold tidy_char. congruence.
Qed.

Lemma skip_spaces_head (s : pystr) (c : Z) (rest : pystr) :
  skip_spaces s = c :: rest -> is_space c = false.
Proof.
  induction s as [|x s IH]; cbn [skip_spaces]; [discriminate|].
  destruct (is_space x) eqn:E; [exact IH|]. by intros [= <- _].
Qed.

Lemma skip_spaces_snoc (s : pystr) (c : Z) :
  is_space c = false -> skip_spaces (s ++ [c]) = skip_spaces s ++ [c].
Proof.
  intros Hc. induction s as [|x s IH]; cbn [skip_spaces app].
  - by rewrite Hc.
  - by destruct (is_space x).
Qed.

Lemma strip_head (s : pystr) (c : Z) (rest : pystr) :
  strip s = c :: rest -> is_space c = false.
Proof.
  unfold strip. destruct (skip_spaces s) as [|x t] eqn:E; [discriminate|].
  pose proof (skip_spaces_head _ _ _ E) as Hx.
  cbn [rev]. rewrite skip_spaces_snoc by done. rewrite rev_app_distr.
  cbn [rev app]. by intros [= <- _].
Qed.

Lemma is_space_ellipsis : is_space ELLIPSIS = false.
Proof. reflexivity. Qed.

Lemma minify_line_tidy (lines : list pystr) (line : pystr) :
  Forall tidy_line lines -> Forall tidy_line (minify_line lines line).
Proof.
  intros Hlines. unfold minify_line.
  assert (Forall tidy_char (strip (collapse_spaces line))) as Htidy
    by apply Forall_strip, collapse_spaces_tidy.
  destruct (strip (collapse_spaces line)) as [|c l] eqn:E; [done|].
  pose proof (strip_head _ _ _ E) as Hc.
  apply Forall_app. split; [done|]. constructor; [|constructor].
  destruct (Z.ltb_spec MAX_LINE_CHARS (len (c :: l))) as [Hlong|Hshort].
  - repeat split.
    + exists c. eexists. split; [reflexivity | done].
    + rewrite len_app. pose proof (len_py_slice_to MAX_LINE_CHARS (c :: l)).
      change (len [32; ELLIPSIS]) with 2. unfold MAX_LINE_CHARS in *. lia.
    + apply Forall_app. split; [by apply Forall_py_slice_to|].
      constructor; [by intros _|]. constructor; [|constructor].
      unfold tidy_char. by rewrite is_space_ellipsis.
  - repeat split; [by exists c, l | lia | done].
Qed.

Lemma fold_minify_line_tidy (ls : list pystr) :
  forall lines, Forall tidy_line lines -> Forall tidy_line (fold_left minify_line ls lines).
Proof.
  induction ls as [|l ls IH]; intros lines Hlines; cbn [fold_left]; [done|].
  by apply IH, minify_line_tidy.
Qed.

(** X16: the minified text is a sequence of lines joined by single line
    feeds in which no line is blank: each begins with a character that is
    not whitespace, is at most MAX_LINE_CHARS + 2 characters long (the cut
    at MAX_LINE_CHARS plus the two characters of the ellipsis mark), and has
    no whitespace character other than the plain space (tabs, line breaks
    and the like have all been turned into spaces). *)
Theorem minify_text_lines (text ext : pystr) :
  exists lines,
    minify_text text ext = join [NL] lines /\ Forall tidy_line lines.
Proof.
  unfold minify_text. eexists. split; [reflexivity|].
  apply fold_minify_line_tidy. constructor.
Qed.

Lemma re_sub_scan_default (fuel : nat) :
  forall at_bol s, re_sub_scan RE_default fuel at_bol s = s.
Proof.
  induction fuel as [|fuel IH]; intros at_bol s; cbn [re_sub_scan]; [done|].
  destruct s as [|c s]; [done|]. cbn [match_comment]. by rewrite IH.
Qed.

(** X17: comments are removed only from files whose extension is one of
    js, ts, java, kt, go, py, sh, yml, yaml and properties. For every other
    extension (Terraform's [.tf] among them, and files without one) the
    comment expression never matches, and the text goes to the line
    minifier as it is. *)
Theorem minify_text_keeps_comments (text ext : pystr) :
  str_in (lstrip_char DOT (lower ext)) COMMENT_LANGS = false ->
  minify_text text ext = join [NL] (fold_left minify_line (splitlines text) []).
Proof.
  intros Hext. unfold minify_text.
  assert (comment_re_for (lstrip_char DOT (lower ext)) = RE_default) as ->.
  { unfold comment_re_for. revert Hext. generalize (lstrip_char DOT (lower ext)).
    intros lang Hlang. unfold COMMENT_LANGS, str_in in *. cbn [List.map existsb] in *.
    repeat (apply orb_false_iff in Hlang as [?E Hlang]).
    by rewrite E, E0, E1, E2, E3, E4, E5, E6, E7, E8. }
  unfold re_sub. by rewrite re_sub_scan_default.
Qed.

Lemma minify_text_keeps_comments_witness :
  minify_text (lit "# managed by ops" ++ [NL] ++ lit "region = 1") (lit ".tf")
  = lit "# managed by ops" ++ [NL] ++ lit "region = 1".
Proof.
  rewrite (minify_text_keeps_comments _ (lit ".tf")); reflexivity.
Defined.

(** ** Redaction *)

Lemma first_separator_unique (c : Z) (x x' y y' : pystr) :
  has_char c x = false -> has_char c x' = false ->
  x ++ c :: y = x' ++ c :: y' -> x = x'.
Proof.
  revert x'. induction x as [|u x IH]; intros [|u' x'] Hx Hx' E; cbn [app] in E.
  - done.
  - injection E as <- _. apply no_char_head in Hx'. by destruct Hx'.
  - injection E as -> _. apply no_char_head in Hx. by destruct Hx.
  - injection E as <- E. apply no_char_head in Hx as [_ Hx], Hx' as [_ Hx'].
    f_equal. by eapply IH.
Qed.

Lemma redact_line_fixed (key : pystr) (sep : Z) (tail : pystr) :
  (sep = EQUALS \/ (sep = COLON /\ has_char EQUALS (key ++ sep :: tail) = false)) ->
  has_char sep key = false ->
  redact_line (key ++ sep :: tail)
  = (if sensitive (key ++ sep :: tail)
     then key ++ (if sep =? EQUALS then lit "=***REDACTED***" else lit ": ***REDACTED***")
     else key ++ sep :: tail).
Proof.
  intros Hsep Hkey.
  assert (has_char sep (key ++ sep :: tail) = true) as Hhas.
  { rewrite has_char_app. apply orb_true_iff. right.
    unfold has_char. cbn [existsb]. by rewrite Z.eqb_refl. }
  assert (partition_head sep (key ++ sep :: tail) = key) as Hpart.
  { destruct (partition_head_spec sep _ Hhas) as (value & Hsplit & Hno).
    symmetry. eapply first_separator_unique; [exact Hkey | exact Hno | exact Hsplit]. }
  unfold redact_line. fold (sensitive (key ++ sep :: tail)).
  destruct (sensitive (key ++ sep :: tail)); [|done].
  destruct Hsep as [->|[-> Hno]].
  - by rewrite Hhas, Hpart.
  - by rewrite Hno, Hhas, Hpart.
Qed.

(** X18: redacting a line a second time changes nothing: the output of the
    loop body of [redact_secrets] for one line is a fixed point of it. *)
Theorem redact_line_idempotent (line : pystr) :
  redact_line (redact_line line) = redact_line line.
Proof.
  destruct (redact_line_cases line) as (Hkeep & Heq & Hcolon & Hnone).
  destruct (sensitive line) eqn:Hs; [|by rewrite !Hkeep].
  destruct (has_char EQUALS line) eqn:He.
  - destruct (Heq eq_refl eq_refl) as (key & value & Hline & Hkey & ->).
    change (key ++ [EQUALS] ++ REDACTED) with (key ++ EQUALS :: REDACTED).
    rewrite redact_line_fixed by (by left || done).
    destruct (sensitive (key ++ EQUALS :: REDACTED)); reflexivity.
  - destruct (has_char COLON line) eqn:Hc.
    + destruct (Hcolon eq_refl eq_refl eq_refl) as (key & value & Hline & Hkey & ->).
      change (key ++ [COLON; 32] ++ REDACTED) with (key ++ COLON :: 32 :: REDACTED).
      rewrite redact_line_fixed;
        [destruct (sensitive (key ++ COLON :: 32 :: REDACTED)); reflexivity | | done].
      right. split; [done|]. rewrite Hline, has_char_app in He.
      apply orb_false_iff in He as [He _]. rewrite has_char_app, He. reflexivity.
    + rewrite (Hnone eq_refl eq_refl eq_refl). vm_compute. reflexivity.
Qed.

(** ** The prompt *)

Lemma join_empty_concat (parts : list pystr) : join [] parts = concat parts.
Proof.
  induction parts as [|p [|q parts] IH]; [done| |].
  - cbn [join concat]. by rewrite app_nil_r.
  - rewrite join_cons2, IH. reflexivity.
Qed.

Lemma prompt_parts (summaries : list file_summary) :
  forall parts : list pystr,
    concat
      (fold_left
         (fun parts fs =>
            parts ++ [lit "[" ++ fs_path fs ++ lit "]" ++ [NL]; fs_content fs;
                      [NL] ++ lit "---" ++ [NL]])
         summaries parts)
    = concat parts ++ concat (List.map file_block summaries).
Proof.
  induction summaries as [|fs summaries IH]; intros parts; cbn [fold_left List.map concat].
  - by rewrite app_nil_r.
  - rewrite IH, concat_app, <- app_assoc. f_equal.
    cbn [concat]. unfold file_block. rewrite app_nil_r, <- !app_assoc. reflexivity.
Qed.

(** X19: the prompt is the header, then one block per file summary in
    order (the path in square brackets, a line feed, the content, and the
    separator line), then the closing sentence; nothing else is put
    between them. Its length is therefore that of the header and the
    closing sentence plus, for every file, the lengths of its path and
    content and 8 characters of framing. *)
Theorem build_llm_prompt_layout (summaries : list file_summary) (project_context : pystr) :
  build_llm_prompt summaries project_context
  = prompt_header project_context ++ concat (List.map file_block summaries)
    ++ PROMPT_FOOTER
  /\ len (build_llm_prompt summaries project_context)
     = len (prompt_header project_context)
       + sum_Z (List.map (fun fs => len (fs_path fs) + len (fs_content fs) + 8) summaries)
       + 27.
Proof.
  assert (build_llm_prompt summaries project_context
          = prompt_header project_context ++ concat (List.map file_block summaries)
            ++ PROMPT_FOOTER) as Hlayout.
  { unfold build_llm_prompt. cbv zeta. rewrite join_empty_concat, concat_app, prompt_parts.
    cbn [concat]. rewrite !app_nil_r, <- app_assoc. reflexivity. }
  split; [exact Hlayout|]. rewrite Hlayout, !len_app. clear Hlayout.
  change (len PROMPT_FOOTER) with 27.
  assert (len (concat (List.map file_block summaries))
          = sum_Z (List.map (fun fs => len (fs_path fs) + len (fs_content fs) + 8)
                     summaries)) as ->; [|lia].
  induction summaries as [|fs summaries IH]; [reflexivity|].
  cbn [List.map concat sum_Z fold_right]. rewrite len_app.
  fold (sum_Z (List.map (fun fs => len (fs_path fs) + len (fs_content fs) + 8) summaries)).
  rewrite IH.
  unfold file_block. rewrite !len_app.
  change (len (lit "[")) with 1. change (len (lit "]")) with 1.
  change (len [NL]) with 1. change (len (lit "---")) with 3. lia.
Qed.

(** ** The code fence *)




(** ** Detection: archives without markers, and the marker files *)

Lemma collect_roots_no_marker (all_paths : list pystr) :
  (forall p, In p all_paths -> skipped p = false ->
             str_in (basename p) PROJECT_ROOT_MARKERS = false) ->
  collect_roots all_paths = [].
Proof.
  unfold collect_roots. induction all_paths as [|p ps IH]; intros Hno; [done|].
  cbn [fold_left].
  assert (register_root [] p = []) as ->.
  { unfold register_root. destruct (skipped p) eqn:Hskip; [done|].
    by rewrite (Hno p (or_introl eq_refl) Hskip). }
  apply IH. intros q Hq. apply Hno. by right.
Qed.

Lemma assigned_root_default (q : pystr) :
  assigned_root [lit "."] q = Some (lit ".").
Proof. reflexivity. Qed.

Lemma single_root_shape (d : roots_dict) (root : pystr) :
  List.map fst d = [root] -> d = [(root, files_of root d)].
Proof.
  destruct d as [|[k v] [|e d]]; try discriminate. cbn [List.map fst].
  intros [= ->]. cbn [files_of]. by rewrite str_eqb_refl.
Qed.

(** X21: an archive without a marker file is one project. When no
    qualifying path has a marker file name, the result of detection is
    empty if no path qualifies, and otherwise it is the single root [.]
    holding every qualifying path. *)
Theorem detect_without_markers (all_paths : list pystr) :
  (forall p, In p all_paths -> skipped p = false ->
             str_in (basename p) PROJECT_ROOT_MARKERS = false) ->
  detect_project_roots all_paths
  = if bool_decide (qualifying all_paths = ∅) then []
    else [(lit ".", qualifying all_paths)].
Proof.
  intros Hno.
  assert (registered_roots all_paths = [(lit ".", ∅)]) as Hreg
    by (unfold registered_roots; by rewrite collect_roots_no_marker).
  pose proof (fold_assign_keys all_paths (registered_roots all_paths)) as Hkeys.
  rewrite Hreg in Hkeys. cbn [List.map fst] in Hkeys.
  apply single_root_shape in Hkeys.
  assert (files_of (lit ".") (fold_left assign_path all_paths [(lit ".", ∅)])
          = qualifying all_paths) as Hfiles.
  { apply set_eq. intros q. rewrite files_of_assign_fold.
    unfold qualifying. rewrite elem_of_list_to_set, list_elem_of_In, filter_In.
    cbn [files_of List.map fst]. rewrite str_eqb_refl, assigned_root_default.
    rewrite negb_true_iff. split.
    - intros [Hin|(Hin & Hskip & _)]; [by apply not_elem_of_empty in Hin | done].
    - intros [Hin Hskip]. by right. }
  unfold detect_project_roots. rewrite Hreg, Hkeys, Hfiles.
  unfold drop_empty. cbn [List.filter snd].
  by destruct (bool_decide (qualifying all_paths = ∅)).
Qed.

Lemma detect_without_markers_witness :
  List.map fst (detect_project_roots (List.map lit ["notes.txt"; "src/app.py"]%string))
  = [lit "."].
Proof.
  rewrite (detect_without_markers (List.map lit ["notes.txt"; "src/app.py"]%string)).
  - reflexivity.
  - intros p [<-|[<-|[]]] _; reflexivity.
Defined.

Lemma lstrip_char_spec (c : Z) (s : pystr) :
  exists run,
    s = run ++ lstrip_char c s /\ Forall (eq c) run
    /\ forall x rest, lstrip_char c s = x :: rest -> x <> c.
Proof.
  induction s as [|y s (run & Hs & Hrun & Hhead)]; cbn [lstrip_char].
  - exists []. repeat split; [constructor | discriminate].
  - destruct (Z.eqb_spec y c) as [->|Hy].
    + exists (c :: run). repeat split; [|by constructor | exact Hhead].
      cbn [app]. f_equal. exact Hs.
    + exists []. repeat split; [constructor|]. by intros x rest [= <- _].
Qed.

Lemma rstrip_char_spec (c : Z) (s : pystr) :
  exists run,
    s = rstrip_char c s ++ run /\ Forall (eq c) run
    /\ forall front, rstrip_char c s <> front ++ [c].
Proof.
  unfold rstrip_char.
  destruct (lstrip_char_spec c (rev s)) as (run & Hs & Hrun & Hhead).
  exists (rev run). repeat split.
  - rewrite <- rev_app_distr, <- Hs. by rewrite rev_involutive.
  - by apply Forall_rev.
  - intros front Hfront. apply (f_equal (@rev Z)) in Hfront.
    rewrite rev_involutive, rev_app_distr in Hfront. cbn [rev app] in Hfront.
    by apply Hhead in Hfront.
Qed.

Lemma startswith_app_self (a b : pystr) : startswith (a ++ b) a = true.
Proof.
  induction a as [|x a IH]; [by destruct b|].
  cbn [app startswith]. by rewrite Z.eqb_refl, IH.
Qed.

(** A relative path starts with its directory and a slash. *)
Lemma dirname_prefix (p : pystr) :
  startswith p (lit "/") = false -> dirname p <> [] ->
  startswith p (dirname p ++ lit "/") = true.
Proof.
  intros Hrel. unfold dirname, slice_to, rfind.
  destruct (rfind_from_spec SLASH p 0 (-1) ltac:(lia))
    as [[-> _]|(Hr & _ & before & Hbefore)]; [done|].
  rewrite Z.sub_0_r in Hbefore.
  set (k := Z.to_nat (rfind_from SLASH p 0 (-1) + 1)) in *.
  pose proof (take_drop k p) as Hp. rewrite Hbefore in *.
  cbv zeta.
  destruct (negb (str_eqb (before ++ [SLASH]) [])
            && negb (forallb (Z.eqb SLASH) (before ++ [SLASH]))) eqn:Hcond.
  - intros _. destruct (rstrip_char_spec SLASH (before ++ [SLASH]))
      as (run & Hhead & Hrun & Hend).
    remember (rstrip_char SLASH (before ++ [SLASH])) as d eqn:Hd. clear Hd.
    destruct run as [|x run].
    { rewrite app_nil_r in Hhead. symmetry in Hhead. by apply Hend in Hhead. }
    apply Forall_cons in Hrun as [<- _].
    rewrite <- Hp, Hhead.
    change (SLASH :: run) with (lit "/" ++ run). rewrite !app_assoc, <- app_assoc.
    apply startswith_app_self.
  - intros Hne. exfalso.
    assert (str_eqb (before ++ [SLASH]) [] = false) as Hne'
      by (by apply str_eqb_neq).
    rewrite Hne' in Hcond. cbn [negb andb] in Hcond.
    apply negb_false_iff in Hcond.
    change (lit "/") with [SLASH] in Hrel.
    assert (exists rest, p = [SLASH] ++ rest) as [rest Hrest].
    { destruct before as [|x before]; cbn [app forallb] in Hp, Hcond.
      - eexists. symmetry. exact Hp.
      - apply andb_prop in Hcond as [Hx _]. apply Z.eqb_eq in Hx as <-.
        eexists. symmetry. exact Hp. }
    rewrite Hrest, startswith_app_self in Hrel. discriminate.
Qed.

Lemma register_root_mono (d : roots_dict) (p r : pystr) :
  In r (List.map fst d) -> In r (List.map fst (register_root d p)).
Proof.
  intros Hin. unfold register_root. destruct (skipped p); [done|].
  destruct (str_in _ _); [|done]. cbv zeta. destruct (dict_has _ d); [done|].
  rewrite map_app. apply in_or_app. by left.
Qed.

Lemma register_root_adds (d : roots_dict) (p : pystr) :
  skipped p = false -> str_in (basename p) PROJECT_ROOT_MARKERS = true ->
  In (marker_root p) (List.map fst (register_root d p)).
Proof.
  intros Hskip Hmarker. unfold register_root. rewrite Hskip, Hmarker. cbv zeta.
  fold (marker_root p). destruct (dict_has (marker_root p) d) eqn:Hhas.
  - by apply dict_has_In.
  - rewrite map_app. apply in_or_app. right. by left.
Qed.

Lemma collect_roots_registers (ps : list pystr) (r : pystr) :
  forall d,
    In r (List.map fst d)
    \/ (exists p, In p ps /\ skipped p = false
                  /\ str_in (basename p) PROJECT_ROOT_MARKERS = true
                  /\ marker_root p = r) ->
    In r (List.map fst (fold_left register_root ps d)).
Proof.
  induction ps as [|q ps IH]; intros d H; cbn [fold_left].
  - destruct H as [H|(p & [] & _)]. exact H.
  - apply IH. destruct H as [H|(p & [<-|Hin] & Hskip & Hmarker & <-)].
    + left. by apply register_root_mono.
    + left. by apply register_root_adds.
    + right. by exists p.
Qed.

(** X22: a marker file belongs to a project. A qualifying path with a
    marker file name that does not begin with a slash is filed under some
    root of the result, and that root has at least as many separators as
    the directory the marker file registered. (A marker at an absolute
    path such as [/pom.xml] registers the root [/], which its own path
    does not match.) *)
Theorem marker_file_is_filed (all_paths : list pystr) (p : pystr) :
  In p all_paths -> skipped p = false ->
  str_in (basename p) PROJECT_ROOT_MARKERS = true ->
  startswith p (lit "/") = false ->
  exists r, p ∈ files_of r (detect_project_roots all_paths)
            /\ depth (marker_root p) <= depth r.
Proof.
  intros Hin Hskip Hmarker Hrel.
  assert (In (marker_root p) (List.map fst (registered_roots all_paths))) as Hreg.
  { assert (In (marker_root p) (List.map fst (collect_roots all_paths))) as Hc.
    { apply collect_roots_registers. right. by exists p. }
    unfold registered_roots, with_default_root.
    by destruct (collect_roots all_paths). }
  assert (root_matches (marker_root p) p = true) as Hmatch.
  { unfold root_matches, marker_root.
    destruct (dirname p) as [|c d] eqn:Hdir; [reflexivity|].
    rewrite <- Hdir, dirname_prefix by (done || by rewrite Hdir).
    by rewrite orb_true_r. }
  pose proof (choose_root_spec (List.map fst (registered_roots all_paths)) p None (-1)
                eq_refl) as Hspec.
  destruct (choose_root (List.map fst (registered_roots all_paths)) p None (-1))
    as [r|] eqn:Hchoose.
  - destruct Hspec as ([Habs|Hr] & Hm & _ & Hmax); [done|].
    exists r. split; [|by apply Hmax].
    apply detect_files_of. repeat split; [done | done |].
    unfold assigned_root. rewrite Hchoose.
    pose proof (registered_roots_nonempty all_paths r Hr). by destruct r.
  - destruct Hspec as [_ Hnone]. rewrite (Hnone _ Hreg) in Hmatch. discriminate.
Qed.

Lemma marker_file_is_filed_witness :
  exists r, lit "app/package.json" ∈ files_of r (detect_project_roots spec_scenario_paths)
            /\ depth (marker_root (lit "app/package.json")) <= depth r.
Proof.
  apply marker_file_is_filed.
  - left. reflexivity.
  - vm_compute. reflexivity.
  - vm_compute. reflexivity.
  - reflexivity.
Defined.

(** A marker file at the top of an absolute path is filed nowhere, and
    with it the archive has no project at all. *)
Example detect_absolute_marker :
  detect_project_roots [lit "/pom.xml"] = [].
Proof. vm_compute. reflexivity. Qed.

(** ** The model's answers and the collection *)

Lemma collect_project_same (W W' : world) (L : limits)
    (read : pystr -> result pybytes) (project_root : pystr)
    (project_files : gset pystr) (st st' : run_state) :
  set_iter W = set_iter W' -> same_counters st st' ->
  collect_project W L read project_root project_files st
  = collect_project W' L read project_root project_files st'.
Proof.
  intros Hiter [Hfiles Hbytes]. unfold collect_project.
  by rewrite Hiter, Hfiles, Hbytes.
Qed.

(** X23: what is collected does not depend on the model. Two runs over the
    same archive that differ only in what the inference service and the
    JSON parser return end the same way: both finish with the same file and
    byte counters, or both raise the same exception. An answer of the model
    (or its failure) never stops the loop and never changes which files
    are read. *)
Theorem process_projects_ignores_model (W W' : world) (L : limits)
    (read : pystr -> result pybytes) (projects : roots_dict) :
  set_iter W = set_iter W' ->
  forall st st' : run_state,
    same_counters st st' ->
    match process_projects W L read projects st,
          process_projects W' L read projects st' with
    | Ok a, Ok b => same_counters a b
    | Raise e, Raise e' => e = e'
    | _, _ => False
    end.
Proof.
  intros Hiter.
  induction projects as [|[project_root project_files] rest IH]; intros st st' Hsame.
  - exact Hsame.
  - rewrite !process_projects_unfold.
    rewrite (collect_project_same W W' L read project_root project_files st st' Hiter Hsame).
    destruct Hsame as [Hfiles Hbytes]. rewrite Hfiles.
    destruct (max_total_files L <=? run_files st'); [by split|].
    destruct (collect_project W' L read project_root project_files st') as [cs|e];
      cbn [bind]; [|reflexivity].
    apply IH. split; reflexivity.
Qed.

Lemma process_projects_ignores_model_witness :
  match process_projects throttled_world scenario_limits scenario_read scenario_projects
          run_init,
        process_projects renaming_world scenario_limits scenario_read scenario_projects
          run_init with
  | Ok a, Ok b => same_counters a b
  | Raise e, Raise e' => e = e'
  | _, _ => False
  end.
Proof.
  apply process_projects_ignores_model; [reflexivity|]. split; reflexivity.
Defined.

(** ** Sanitising any bytes *)

(** X24: [strip_and_cap_bytes] accepts every byte string, valid UTF-8 or
    not: it never raises, its result can be encoded again, and the encoding
    takes at most MAX_BYTES_PER_FILE + 16 bytes. The result is the
    minified, redacted text itself, or a prefix of it followed by the
    truncation marker. *)
Theorem strip_and_cap_bytes_any_bytes (content : pybytes) (ext : pystr) :
  exists snippet encoded,
    strip_and_cap_bytes content ext = Ok snippet
    /\ encode_utf8 snippet = Ok encoded
    /\ len encoded <= MAX_BYTES_PER_FILE + 16
    /\ (snippet = minify_text (redact_secrets (decode_utf8 Replace content)) ext
        \/ exists kept rest,
             snippet = kept ++ TRUNCATED_MARKER
             /\ minify_text (redact_secrets (decode_utf8 Replace content)) ext
                = kept ++ rest).
Proof.
  unfold strip_and_cap_bytes. cbv zeta.
  set (text := redact_secrets (decode_utf8 Replace content)).
  assert (encodable text) as Htext
    by apply (Forall_redact_secrets _ encodable_cp_latin1), decode_utf8_encodable.
  destruct (proj1 (encodable_encode _) (minify_text_encodable text ext Htext))
    as [minified Hmin].
  assert (exists out, strip_comments_and_minify text ext = Ok out
                      /\ (out = minify_text text ext
                          \/ exists kept rest,
                               out = kept ++ TRUNCATED_MARKER
                               /\ minify_text text ext = kept ++ rest))
    as (out & Hout & Hshape).
  { unfold strip_comments_and_minify. cbv zeta. rewrite Hmin. cbn [bind].
    destruct (MAX_BYTES_PER_FILE <? len minified); eexists; (split; [reflexivity|]);
      [|by left].
    right. rewrite (cut_bytes_fit _ _ _ Hmin) by (vm_compute; discriminate).
    destruct (fit_bytes_size _ _ MAX_BYTES_PER_FILE Hmin ltac:(vm_compute; discriminate))
      as (kept_bytes & suffix & _ & Hsplit & _).
    by exists (fit_bytes MAX_BYTES_PER_FILE (minify_text text ext)), suffix. }
  destruct (strip_comments_and_minify_size _ _ _ Hout) as (encoded & Henc & Hsize).
  by exists out, encoded.
Qed.

(** ** Ranking and the file caps *)

Lemma descending_prefix_closed {A} (key : A -> Z) (l : list A) (k : nat) (a b : A) :
  descending key l -> In b (take k l) -> In a l -> key b < key a -> In a (take k l).
Proof.
  unfold descending. intros Hsorted. revert k.
  induction Hsorted as [|x l Hl IH Hx]; intros k Hb Ha Hlt.
  - destruct Ha.
  - destruct k as [|k]; [destruct Hb|]. cbn [take] in *.
    destruct Ha as [->|Ha]; [by left|]. right.
    destruct Hb as [->|Hb].
    + rewrite List.Forall_forall in Hx. specialize (Hx a Ha). cbn beta in Hx. lia.
    + by apply IH.
Qed.

Lemma In_take {A} (x : A) (k : nat) (l : list A) : In x (take k l) -> In x l.
Proof.
  revert k. induction l as [|y l IH]; intros [|k] H; cbn [take] in H; try destruct H.
  - by left.
  - right. by eapply IH.
Qed.

Lemma ranked_candidates_In (iter : set_order) (project_files : gset pystr) (p : pystr) :
  enumerates iter ->
  In p (ranked_candidates iter project_files)
  <-> p ∈ project_files /\ is_signal_path p = true.
Proof.
  intros Hiter. unfold ranked_candidates, candidates_of.
  rewrite <- (proj2 (Hiter project_files) p), <- filter_In.
  split; intros H.
  - eapply Permutation_in; [apply sort_desc_perm | exact H].
  - eapply Permutation_in; [symmetry; apply sort_desc_perm | exact H].
Qed.

(** X25: no signal file is passed over for a lower-scored one. When the
    collection for a project finishes without an exception, the files it
    accepted are signal files of the project, and every signal file of the
    project that scores higher than an accepted file is accepted too. *)
Theorem collect_project_prefers_higher_scores (W : world) (L : limits)
    (read : pystr -> result pybytes) (project_root : pystr)
    (project_files : gset pystr) (st : run_state) (cs : collect_state) :
  enumerates (set_iter W) ->
  collect_project W L read project_root project_files st = Ok cs ->
  0 <= max_files_per_project L -> run_files st < max_total_files L ->
  exists accepted,
    List.map fs_path (file_summaries cs) = List.map (rel_path_of project_root) accepted
    /\ (forall b, In b accepted -> b ∈ project_files /\ is_signal_path b = true)
    /\ (forall a b, In b accepted -> a ∈ project_files -> is_signal_path a = true ->
                    score b < score a -> In a accepted).
Proof.
  intros Hiter H Hper Hroom. unfold collect_project in H.
  set (limit := Z.min (max_files_per_project L) (max_total_files L - run_files st)) in *.
  assert (0 <= limit) as Hlimit by lia.
  apply collect_files_prefix in H as (k & Hk & Hmap & _).
  cbn [file_summaries List.map app] in Hmap.
  unfold py_slice_to in Hmap. rewrite (proj2 (Z.ltb_ge _ _) Hlimit), take_take in Hmap.
  set (ranked := ranked_candidates (set_iter W) project_files) in *.
  exists (take (k `min` Z.to_nat limit) ranked). repeat split.
  - apply (f_equal (List.map fst)) in Hmap. rewrite !List.map_map in Hmap.
    exact Hmap.
  - apply (ranked_candidates_In (set_iter W) project_files b Hiter). by eapply In_take.
  - apply (ranked_candidates_In (set_iter W) project_files b Hiter). by eapply In_take.
  - intros a b Hb Ha Hsig Hlt.
    apply (descending_prefix_closed score ranked _ a b); [| exact Hb | | exact Hlt].
    + apply sort_desc_descending.
    + by apply (ranked_candidates_In (set_iter W) project_files a Hiter).
Qed.

Lemma collect_project_prefers_higher_scores_witness :
  exists cs accepted,
    collect_project throttled_world scenario_limits scenario_read (lit ".")
      (list_to_set (List.map lit ["a.tf"; "b.yml"]%string)) run_init = Ok cs
    /\ List.map fs_path (file_summaries cs) = List.map (rel_path_of (lit ".")) accepted
    /\ (forall b, In b accepted ->
                  b ∈ (list_to_set (List.map lit ["a.tf"; "b.yml"]%string) : gset pystr)
                  /\ is_signal_path b = true)
    /\ (forall a b, In b accepted ->
                    a ∈ (list_to_set (List.map lit ["a.tf"; "b.yml"]%string) : gset pystr) ->
                    is_signal_path a = true -> score b < score a -> In a accepted).
Proof.
  assert (exists cs,
            collect_project throttled_world scenario_limits scenario_read (lit ".")
              (list_to_set (List.map lit ["a.tf"; "b.yml"]%string)) run_init = Ok cs)
    as [cs Hcs] by (eexists; vm_compute; reflexivity).
  destruct (collect_project_prefers_higher_scores throttled_world scenario_limits
              scenario_read (lit ".")
              (list_to_set (List.map lit ["a.tf"; "b.yml"]%string)) run_init cs
              enumerates_elements Hcs)
    as (accepted & Hmap & Hin & Hup); [vm_compute; discriminate | reflexivity |].
  exists cs, accepted. split; [exact Hcs|]. split; [exact Hmap|].
  split; [exact Hin | exact Hup].
Defined.

(** * Detection, redaction, ranking, merging and markers: amended statements *)

(** ** C1: the registered roots and the root a path is filed under *)

Lemma collect_roots_seeded (ps : list pystr) (r : pystr) :
  forall d,
    In r (List.map fst (fold_left register_root ps d)) ->
    In r (List.map fst d)
    \/ (exists m, In m ps /\ skipped m = false
                  /\ str_in (basename m) PROJECT_ROOT_MARKERS = true
                  /\ marker_root m = r).
Proof.
  induction ps as [|q ps IH]; intros d H; cbn [fold_left] in H; [by left|].
  apply IH in H as [H|(m & Hm & Hrest)]; [|right; exists m; split; [by right | done]].
  unfold register_root in H.
  destruct (skipped q) eqn:Hskip; [by left|].
  destruct (str_in (basename q) PROJECT_ROOT_MARKERS) eqn:Hmarker; [|by left].
  cbv zeta in H. fold (marker_root q) in H.
  destruct (dict_has (marker_root q) d); [by left|].
  rewrite map_app in H. apply in_app_or in H as [H|[<-|[]]]; [by left|].
  right. exists q. split; [by left | done].
Qed.

(** The registered roots are the directories of the qualifying marker
    files, or "." alone when there is no such file. *)
Lemma registered_roots_from_markers (all_paths : list pystr) (r : pystr) :
  In r (List.map fst (registered_roots all_paths))
  <-> (exists m, In m all_paths /\ skipped m = false
                 /\ str_in (basename m) PROJECT_ROOT_MARKERS = true
                 /\ marker_root m = r)
      \/ (r = lit "."
          /\ forall m, In m all_paths -> skipped m = false ->
                       str_in (basename m) PROJECT_ROOT_MARKERS = false).
Proof.
  unfold registered_roots, with_default_root. split.
  - intros Hr. destruct (collect_roots all_paths) as [|e d] eqn:Hroots.
    + right. destruct Hr as [<-|[]]. split; [reflexivity|].
      intros m Hm Hskip.
      destruct (str_in (basename m) PROJECT_ROOT_MARKERS) eqn:Hmarker; [|done].
      assert (In (marker_root m) (List.map fst (collect_roots all_paths))) as Hin
        by (apply collect_roots_registers; right; by exists m).
      rewrite Hroots in Hin. destruct Hin.
    + left. rewrite <- Hroots in Hr. unfold collect_roots in Hr.
      by apply collect_roots_seeded in Hr as [[]|Hm].
  - intros [(m & Hm & Hskip & Hmarker & <-)|[-> Hnone]].
    + assert (In (marker_root m) (List.map fst (collect_roots all_paths))) as Hin
        by (apply collect_roots_registers; right; by exists m).
      by destruct (collect_roots all_paths).
    + rewrite (collect_roots_no_marker all_paths Hnone). by left.
Qed.

(** C1, amended: a path that is neither skipped nor a directory is filed
    under at most one root; it is filed exactly when some registered root
    matches it (the root is ".", or equals the path, or is followed by "/"
    at the start of the path); the root it is filed under is registered,
    matches it, and no matching registered root has more "/" separators.
    The roots of the result are pairwise distinct and hold only such paths.
    The registered roots are the directories of the qualifying marker files
    ("." for a marker file at the top level), or "." alone when no
    qualifying path is a marker file. *)
Theorem detect_assigns_deepest_matching_root (all_paths : list pystr) (p : pystr) :
  In p all_paths -> skipped p = false ->
  let result := detect_project_roots all_paths in
  let registered := List.map fst (registered_roots all_paths) in
  (forall r1 r2, p ∈ files_of r1 result -> p ∈ files_of r2 result -> r1 = r2)
  /\ ((exists r, p ∈ files_of r result)
      <-> (exists r, In r registered /\ root_matches r p = true))
  /\ (forall r, p ∈ files_of r result ->
        In r registered /\ root_matches r p = true
        /\ forall r', In r' registered -> root_matches r' p = true ->
                      depth r' <= depth r)
  /\ NoDup (List.map fst result)
  /\ (forall r q, q ∈ files_of r result -> In q all_paths /\ skipped q = false)
  /\ (forall r,
        In r registered
        <-> (exists m, In m all_paths /\ skipped m = false
                       /\ str_in (basename m) PROJECT_ROOT_MARKERS = true
                       /\ marker_root m = r)
            \/ (r = lit "."
                /\ forall m, In m all_paths -> skipped m = false ->
                             str_in (basename m) PROJECT_ROOT_MARKERS = false)).
Proof.
  intros Hin Hskip result registered. subst result registered.
  split; [|split; [|split; [|split; [|split]]]];
    [| | | | |intros r; apply registered_roots_from_markers].
  all: pose proof (choose_root_spec (List.map fst (registered_roots all_paths)) p None (-1)
                     eq_refl) as Hspec.
  - intros r1 r2 H1 H2.
    apply detect_files_of in H1 as (_ & _ & H1).
    apply detect_files_of in H2 as (_ & _ & H2). congruence.
  - split.
    + intros [r Hr]. apply detect_files_of in Hr as (_ & _ & Hr).
      unfold assigned_root in Hr.
      destruct (choose_root _ _ _ _) as [[|c r0]|]; try done.
      injection Hr as <-. destruct Hspec as ([Habs|Hreg] & Hm & _); [done|].
      by exists (c :: r0).
    + intros (r & Hreg & Hm).
      destruct (choose_root (List.map fst (registered_roots all_paths)) p None (-1))
        as [r0|] eqn:Hch.
      * destruct Hspec as ([Habs|Hreg0] & _); [done|].
        exists r0. apply detect_files_of. repeat split; try done.
        unfold assigned_root. rewrite Hch.
        pose proof (registered_roots_nonempty all_paths r0 Hreg0).
        by destruct r0.
      * destruct Hspec as [_ Hnone]. rewrite (Hnone r Hreg) in Hm. done.
  - intros r H.
    apply detect_files_of in H as (_ & _ & Hr). unfold assigned_root in Hr.
    destruct (choose_root _ _ _ _) as [[|c r0]|]; try done.
    injection Hr as <-. destruct Hspec as ([Habs|Hreg] & Hm & _ & Hmax); [done|].
    split; [done|]. split; [done|]. exact Hmax.
  - apply detect_keys_NoDup.
  - intros r q H. by apply detect_files_of in H as (? & ? & _).
Qed.

Lemma detect_assigns_deepest_matching_root_witness :
  lit "app/src/index.js" ∈ files_of (lit "app") (detect_project_roots spec_scenario_paths)
  /\ forall r, lit "app/src/index.js" ∈ files_of r (detect_project_roots spec_scenario_paths)
       -> r = lit "app".
Proof.
  assert (In (lit "app/src/index.js") spec_scenario_paths) as Hin
    by (right; left; reflexivity).
  assert (skipped (lit "app/src/index.js") = false) as Hskip
    by (vm_compute; reflexivity).
  pose proof (detect_assigns_deepest_matching_root spec_scenario_paths
                (lit "app/src/index.js") Hin Hskip) as (Huniq & _).
  assert (lit "app/src/index.js"
            ∈ files_of (lit "app") (detect_project_roots spec_scenario_paths)) as Happ.
  { apply (bool_decide_unpack _). vm_compute. exact I. }
  split; [exact Happ | intros r Hr; exact (Huniq r (lit "app") Hr Happ)].
Defined.

(** ** C4: what redaction keeps *)




(** ** C5: the score table and the ranking *)

(** C5, amended: the ranked candidates of a project are its signal files,
    arranged by non-increasing score, and candidates of equal score keep
    the relative order in which the set of project files enumerates them.
    The score is read off the lower-cased path: 100 when it ends in .tf,
    .tfvars or .tf.json; otherwise 90 when it contains docker or compose;
    otherwise 80 when its basename is package.json, pom.xml, build.gradle
    or build.gradle.kts; otherwise 70 when it contains application and ends
    in .yml, .yaml or .properties; otherwise 60 when its basename starts
    with readme; otherwise 10. Whatever order they are listed in, the five
    candidates of the scenario rank as main.tf, Dockerfile, package.json,
    README.md, src/App.java. *)
Theorem ranked_candidates_stable_descending (iter : set_order)
    (project_files : gset pystr) (listed : list pystr) :
  Permutation listed scenario_candidates ->
  let candidates := candidates_of iter project_files in
  let ranked := ranked_candidates iter project_files in
  Permutation ranked candidates
  /\ StronglySorted (fun p q => score q <= score p) ranked
  /\ (forall k, List.filter (fun p => score p =? k) ranked
                = List.filter (fun p => score p =? k) candidates)
  /\ (forall p,
        score p
        = let p_l := lower p in
          if iac_suffix p_l then 100
          else if names_docker p_l then 90
          else if build_manifest p_l then 80
          else if application_config p_l then 70
          else if readme_file p_l then 60
          else 10)
  /\ List.map score
       (List.map lit ["config/application.yml"; "docker/application.yml";
                      "Dockerfile.tf"; "docs/ReadMe.txt"]%string)
     = [70; 90; 100; 60]
  /\ List.map score scenario_candidates = [100; 90; 80; 60; 10]
  /\ sort_desc score listed = scenario_candidates.
Proof.
  intros Hperm candidates ranked. subst candidates ranked.
  unfold ranked_candidates.
  split; [apply sort_desc_perm|]. split; [apply sort_desc_descending|].
  split; [intros k; apply sort_desc_stable|]. split; [reflexivity|].
  split; [vm_compute; reflexivity|]. split; [vm_compute; reflexivity|].
  rewrite (sort_desc_perm_unique score scenario_candidates listed).
  - vm_compute. reflexivity.
  - apply (bool_decide_unpack _). vm_compute. exact I.
  - exact Hperm.
Qed.

Lemma ranked_candidates_stable_descending_witness :
  sort_desc score (rev scenario_candidates) = scenario_candidates
  /\ Permutation (ranked_candidates elements (list_to_set scenario_candidates))
       (candidates_of elements (list_to_set scenario_candidates))
  /\ StronglySorted (fun p q => score q <= score p)
       (ranked_candidates elements (list_to_set scenario_candidates)).
Proof.
  destruct (ranked_candidates_stable_descending elements
              (list_to_set scenario_candidates) (rev scenario_candidates))
    as (Hperm & Hsorted & _ & _ & _ & _ & Hranked).
  - apply Permutation_sym, Permutation_rev.
  - split; [exact Hranked|]. split; [exact Hperm | exact Hsorted].
Defined.

(** ** C7: the projects and the services of the merged document *)

(** C7, as stated, fails: a document whose services are given by name only
    makes [merge_metadata] raise, and no merged document is produced. *)
Lemma merge_raises_on_named_service : ~ merge_lists_every_service.
Proof.
  intros H.
  destruct (H (fun _ => []) documents_with_named_service ltac:(discriminate))
    as (merged & projects & services & Hmerged & _).
  vm_compute in Hmerged. discriminate.
Qed.

(** C7, amended: whenever [merge_metadata] returns, the merged document
    has a [projects] list with one entry per input document, in input
    order, and a [services] list with the services of all documents, in
    order, each a copy with [project] set to its project's name and, when
    it has a name, that name prefixed by the project's name and "/". It
    returns for every list of documents of the prompted shape, and it
    raises when some document lists a service that is not an object. *)
Theorem merge_metadata_projects_and_services (container_repr : json -> pystr)
    (docs : list json) :
  (forall merged,
     merge_metadata container_repr docs = Ok merged ->
     exists projects services,
       py_getitem (lit "projects") merged = Ok (JList projects)
       /\ projects = map_indexed project_entry 0 docs
       /\ length projects = length docs
       /\ py_getitem (lit "services") merged = Ok (JList services)
       /\ services
          = concat (map_indexed
                      (fun i meta =>
                         List.map (prefixed_service container_repr (doc_project_name i meta))
                           (doc_services meta))
                      0 docs))
  /\ (well_shaped docs = true ->
      exists merged, merge_metadata container_repr docs = Ok merged)
  /\ (forall meta svc,
        In meta docs -> In svc (doc_services meta) -> is_dict svc = false ->
        exists e, merge_metadata container_repr docs = Raise e)
  /\ (forall project_name d,
        exists d',
          prefixed_service container_repr project_name (JDict d) = JDict d'
          /\ dict_get (lit "project") d' = Some project_name
          /\ (forall name, dict_get (lit "name") d = Some name ->
                dict_get (lit "name") d'
                = Some (JStr (py_str container_repr project_name ++ lit "/"
                              ++ py_str container_repr name)))
          /\ (forall k, k <> lit "name" -> k <> lit "project" ->
                dict_get k d' = dict_get k d)).
Proof.
  split; [|split; [|split]].
  - intros merged Hmerged.
    destruct (merge_metadata_ok_projects_services _ _ _ Hmerged) as [Hp Hs].
    eexists. eexists. split; [exact Hp|]. split; [reflexivity|].
    split; [apply map_indexed_length|]. split; [exact Hs | reflexivity].
  - apply merge_metadata_total.
  - intros meta svc Hmeta Hsvc Hplain. unfold merge_metadata.
    destruct (merge_loop container_repr merged_init 0 docs) as [m|e] eqn:E;
      cbn [bind]; [|by exists e].
    pose proof (merge_loop_items_objects _ _ _ _ _ E meta svc Hmeta (or_introl Hsvc)).
    congruence.
  - intros project_name d. apply prefixed_service_fields.
Qed.

Lemma merge_metadata_projects_and_services_witness :
  exists merged,
    merge_metadata (fun _ => []) two_project_documents = Ok merged
    /\ py_getitem (lit "services") merged
       = Ok (JList [JDict [(lit "name", JStr (lit "app/web"));
                           (lit "language", JStr (lit "js"));
                           (lit "project", JStr (lit "app"))];
                    JDict [(lit "name", JStr (lit "infra/db"));
                           (lit "project", JStr (lit "infra"))];
                    JDict [(lit "language", JStr (lit "go"));
                           (lit "project", JStr (lit "infra"))]]).
Proof.
  destruct (merge_metadata_projects_and_services (fun _ => []) two_project_documents)
    as (Hok & Htotal & _).
  destruct (Htotal ltac:(vm_compute; reflexivity)) as [merged Hm].
  destruct (Hok merged Hm) as (projects & services & _ & _ & _ & Hs & ->).
  exists merged. split; [exact Hm|]. rewrite Hs. vm_compute. reflexivity.
Defined.

(** ** C10: marker files as signal candidates *)





(** The tie of "." with a top-level directory: the marker file of [api] is
    filed under ".", and [api] is no root of the result. *)
Example detect_dot_takes_marker :
  List.map fst (detect_project_roots (List.map lit ["package.json"; "api/pom.xml"]%string))
  = [lit "."].
Proof. vm_compute. reflexivity. Qed.
